(** * Batch upload to a commit-oriented store: a shallow embedding

    The development follows the two source files of the gateway:
    the batched commit handler ([onRequestPost] and its helpers) and
    the mime type utilities ([resolveMimeType] and its helpers).

    Conventions of the embedding.
    - A JavaScript string is the sequence of its UTF-16 code units.  The
      embedding covers the strings whose code units are below 256, written
      as [string]; on these [trim], the class [\s], [toLowerCase] and
      [encodeURIComponent] are defined exactly as the language defines them.
    - JavaScript numbers that hold sizes, counts and lengths are integers far
      below 2^53; they are [Z] or [nat] here.  The value of [Math.random()]
      is a fraction, given by its numerator and its denominator; its
      product with a length is taken exactly, the rounding of the product
      of two doubles is not part of the model.
    - A thrown value is a [JsError]; a function that may throw returns a
      [result].
    - The key-value store is a finite map whose operations do not throw,
      and [getFileURL], which builds an address from its arguments, returns;
      on the strings covered [encodeURIComponent] returns too.  The other
      collaborators of the handler (authorisation, configuration, the
      backend client, [JSON.parse], ...) are fields of an environment
      record, and those that the handler awaits may throw.  The properties
      below are those of the handler on a store that answers; none of them
      lists who may throw.
    - A run of the handler gives its response, the store it leaves and the
      trace of the calls it made on the store, the backend, the classifier
      and the deferred bookkeeping.  Logging and the update of the search
      parameters of the request URL are not part of the model. *)

From Stdlib Require Import ZArith Lia Ascii String List Bool DecimalString.
From stdpp Require Import base option list strings gmap.

Local Open Scope string_scope.
Local Open Scope Z_scope.

Ltac Zify.zify_post_hook ::= Z.div_mod_to_equations.

(** ** Thrown values and results *)

(** One file reported by the backend client as already staged; the client
    may attach more to an item than the two fields the handler reads. *)
Record StagedFile := mkStagedFile {
  sf_name : string;
  sf_filePath : string;
  sf_oid : string
}.

(** The properties of a thrown value that the handler inspects. [None] is
    [undefined]. *)
Record JsError := mkJsError {
  err_code : option string;
  err_message : option string;
  err_status : option Z;
  err_stage : option string;
  err_retryAfterSeconds : option Z;
  err_uploadedFiles : option (list StagedFile)
}.

Definition createApiError (code message : string) (status : Z) : JsError :=
  {| err_code := Some code; err_message := Some message;
     err_status := Some status; err_stage := None;
     err_retryAfterSeconds := None; err_uploadedFiles := None |}.

Inductive result (A : Type) : Type :=
| OK (a : A)
| Err (e : JsError).
Arguments OK {A} a.
Arguments Err {A} e.

Definition rbind {A B} (r : result A) (f : A -> result B) : result B :=
  match r with
  | OK a => f a
  | Err e => Err e
  end.

Notation "'let*' x ':=' r 'in' k" := (rbind r (fun x => k))
  (at level 10, x pattern, r at level 100, k at level 200).

Definition is_ok {A} (r : result A) : bool :=
  match r with OK _ => true | Err _ => false end.

(** ** Strings *)

Module Str.

Definition code (c : ascii) : N := N_of_ascii c.

(** White space and line terminators below 256, the characters that
    [trim] removes and that [\s] matches: TAB, LF, VT, FF, CR, SP, NBSP. *)
Definition is_space (c : ascii) : bool :=
  match code c with
  | 9 | 10 | 11 | 12 | 13 | 32 | 160 => true
  | _ => false
  end%N.

Definition is_slash (c : ascii) : bool := Ascii.eqb c "/".

Definition is_empty (s : string) : bool :=
  match s with EmptyString => true | _ => false end.

(** Removal of the longest prefix of characters satisfying [p]. *)
Fixpoint drop_leading (p : ascii -> bool) (s : string) : string :=
  match s with
  | EmptyString => EmptyString
  | String c r => if p c then drop_leading p r else s
  end.

(** Removal of the longest suffix of characters satisfying [p]. *)
Fixpoint drop_trailing (p : ascii -> bool) (s : string) : string :=
  match s with
  | EmptyString => EmptyString
  | String c r =>
      let r' := drop_trailing p r in
      if p c && is_empty r' then EmptyString else String c r'
  end.

(** [s.trim()] *)
Definition trim (s : string) : string :=
  drop_trailing is_space (drop_leading is_space s).

(** [s.replace(/\/{2,}/g, '/')]: every maximal run of two or more
    slashes becomes one slash, that is, a slash followed by a slash is
    dropped. *)
Fixpoint collapse_slashes (s : string) : string :=
  match s with
  | EmptyString => EmptyString
  | String c r =>
      match r with
      | String c' _ =>
          if is_slash c && is_slash c' then collapse_slashes r
          else String c (collapse_slashes r)
      | EmptyString => String c EmptyString
      end
  end.

(** [s.split(sep)] for a one-character separator. *)
Fixpoint split (sep : ascii) (s : string) : list string :=
  match s with
  | EmptyString => [EmptyString]
  | String c r =>
      if Ascii.eqb c sep then EmptyString :: split sep r
      else match split sep r with
           | h :: t => String c h :: t
           | [] => [String c EmptyString]
           end
  end.

(** [s.startsWith(p)] *)
Definition startsWith (s p : string) : bool := String.prefix p s.

(** [s.endsWith(p)] *)
Fixpoint endsWith (s p : string) : bool :=
  String.eqb s p ||
  match s with
  | EmptyString => false
  | String _ r => endsWith r p
  end.

(** [s.includes(c)] for a one-character needle. *)
Fixpoint includes (s : string) (c : ascii) : bool :=
  match s with
  | EmptyString => false
  | String d r => Ascii.eqb d c || includes r c
  end.

(** [s.indexOf(c)] for a one-character needle; [None] is [-1]. *)
Fixpoint indexOf (s : string) (c : ascii) : option nat :=
  match s with
  | EmptyString => None
  | String d r =>
      if Ascii.eqb d c then Some O
      else match indexOf r c with
           | Some i => Some (S i)
           | None => None
           end
  end.

(** [s.slice(n)] for [0 <= n]. *)
Fixpoint slice_from (n : nat) (s : string) : string :=
  match n, s with
  | O, _ => s
  | S n', String _ r => slice_from n' r
  | S _, EmptyString => EmptyString
  end.

(** [s.slice(0, n)] for [0 <= n]. *)
Fixpoint slice_to (n : nat) (s : string) : string :=
  match n, s with
  | O, _ => EmptyString
  | S n', String c r => String c (slice_to n' r)
  | S _, EmptyString => EmptyString
  end.

(** [s.replace(/\s+/g, '')] *)
Fixpoint remove_spaces (s : string) : string :=
  match s with
  | EmptyString => EmptyString
  | String c r =>
      if is_space c then remove_spaces r else String c (remove_spaces r)
  end.

Definition head_is (p : ascii -> bool) (s : string) : bool :=
  match s with
  | String c _ => p c
  | EmptyString => false
  end.

Fixpoint last_is (p : ascii -> bool) (s : string) : bool :=
  match s with
  | EmptyString => false
  | String c EmptyString => p c
  | String _ r => last_is p r
  end.

Fixpoint has_double_slash (s : string) : bool :=
  match s with
  | EmptyString => false
  | String c r =>
      (is_slash c && head_is is_slash r) || has_double_slash r
  end.

End Str.

(** ** The handler's normalizers *)

Definition RESERVED_PREFIX : string := "manage@".

Definition invalid_request (message : string) : JsError :=
  createApiError "INVALID_REQUEST" message 400.

(** The [for] loop over the segments of the folder. *)
Fixpoint check_segments (segments : list string) : result unit :=
  match segments with
  | [] => OK tt
  | segment :: rest =>
      if Str.is_empty segment || String.eqb segment "."
         || String.eqb segment ".."
      then Err (invalid_request
                  "Invalid uploadFolder: contains illegal path segment")
      else if Str.startsWith segment RESERVED_PREFIX
      then Err (invalid_request
                  "Invalid uploadFolder: reserved segment name")
      else check_segments rest
  end.

Definition strip_slashes (s : string) : string :=
  Str.collapse_slashes
    (Str.drop_trailing Str.is_slash (Str.drop_leading Str.is_slash s)).

(** [normalizeUploadFolder]; [None] is [null] or [undefined]. *)
Definition normalizeUploadFolder (uploadFolder : option string)
  : result string :=
  match uploadFolder with
  | None => OK ""
  | Some s =>
      let normalized := strip_slashes (Str.trim s) in
      if Str.is_empty normalized then OK ""
      else
        let* _ := check_segments (Str.split "/" normalized) in
        OK normalized
  end.

(** [normalizeFileName]; [None] is a value that is not a string. *)
Definition normalizeFileName (name : option string) : result string :=
  match name with
  | None => Err (invalid_request "File name must be a string")
  | Some name =>
      let trimmed := Str.trim name in
      if Str.is_empty trimmed
      then Err (invalid_request "File name cannot be empty")
      else if (255 <? Z.of_nat (String.length trimmed))
      then Err (invalid_request "File name is too long")
      else if String.eqb trimmed "." || String.eqb trimmed ".."
      then Err (invalid_request "File name cannot be . or ..")
      else if Str.includes trimmed "/" || Str.includes trimmed "\"
      then Err (invalid_request "File name cannot contain path separators")
      else if Str.startsWith trimmed RESERVED_PREFIX
      then Err (invalid_request "File name cannot use reserved prefix")
      else OK trimmed
  end.

(** The handler's own [normalizeMimeType]. *)
Definition normalizeMimeType (mimeType : option string) : string :=
  match mimeType with
  | None => "application/octet-stream"
  | Some m =>
      if Str.is_empty (Str.trim m) then "application/octet-stream"
      else Str.trim m
  end.

Definition normalizeContentBase64 (contentBase64 : option string)
  : result string :=
  match contentBase64 with
  | None => Err (invalid_request "contentBase64 is required")
  | Some c =>
      if Str.is_empty (Str.trim c)
      then Err (invalid_request "contentBase64 is required")
      else
        let value := Str.trim c in
        let rawBase64 :=
          match Str.indexOf value "," with
          | Some commaIndex =>
              if Str.startsWith value "data:"
              then Str.slice_from (S commaIndex) value
              else value
          | None => value
          end in
        OK (Str.remove_spaces rawBase64)
  end.

Definition estimateBase64Size (base64Data : string) : Z :=
  let len := Z.of_nat (String.length base64Data) in
  if len =? 0 then 0
  else
    let padding :=
      if Str.endsWith base64Data "==" then 2
      else if Str.endsWith base64Data "=" then 1 else 0 in
    Z.max 0 (len * 3 / 4 - padding).

(** ** Base64 decoding: [atob]

    [atob] is the platform's forgiving base64 decoder: ASCII white space is
    removed; when the length is then a multiple of four, one or two trailing
    [=] are removed; a length of 1 modulo 4 or a character outside the
    alphabet is a failure; every four characters give three bytes, a final
    group of two or three characters gives one or two bytes. *)
Module Base64.

(** ASCII white space: TAB, LF, FF, CR, SP. *)
Definition is_ascii_whitespace (c : ascii) : bool :=
  match Str.code c with
  | 9 | 10 | 12 | 13 | 32 => true
  | _ => false
  end%N.

Definition sextet (c : ascii) : option N :=
  let n := Str.code c in
  (if (65 <=? n) && (n <=? 90) then Some (n - 65)
   else if (97 <=? n) && (n <=? 122) then Some (n - 71)
   else if (48 <=? n) && (n <=? 57) then Some (n + 4)
   else if n =? 43 then Some 62
   else if n =? 47 then Some 63
   else None)%N.

Fixpoint decode_sextets (l : list N) : list N :=
  match l with
  | a :: b :: c :: d :: r =>
      N.lor (N.shiftl a 2) (N.shiftr b 4)
      :: N.lor (N.shiftl (N.land b 15) 4) (N.shiftr c 2)
      :: N.lor (N.shiftl (N.land c 3) 6) d
      :: decode_sextets r
  | [a; b; c] =>
      [N.lor (N.shiftl a 2) (N.shiftr b 4);
       N.lor (N.shiftl (N.land b 15) 4) (N.shiftr c 2)]
  | [a; b] => [N.lor (N.shiftl a 2) (N.shiftr b 4)]
  | _ => []
  end.

Definition is_pad (c : ascii) : bool := Ascii.eqb c "=".

(** One or two trailing [=] are removed. *)
Definition strip_padding (l : list ascii) : list ascii :=
  match rev l with
  | p :: q :: r =>
      if is_pad p then (if is_pad q then rev r else rev (q :: r)) else l
  | [p] => if is_pad p then [] else l
  | [] => l
  end.

Definition atob (data : string) : option string :=
  let d := List.filter (fun c => negb (is_ascii_whitespace c))
                  (list_ascii_of_string data) in
  let d := if (length d mod 4 =? 0)%nat then strip_padding d else d in
  if (length d mod 4 =? 1)%nat then None
  else
    match mapM sextet d with
    | Some vs =>
        Some (string_of_list_ascii (map ascii_of_N (decode_sextets vs)))
    | None => None
    end.

End Base64.

(** [decodeBase64ToUint8Array]: the bytes are the character codes of the
    binary string. *)
Definition decodeBase64ToUint8Array (base64Data : string)
  : result (list N) :=
  match Base64.atob base64Data with
  | None => Err (invalid_request "Invalid base64 content")
  | Some binary => OK (map Str.code (list_ascii_of_string binary))
  end.

(** ** JSON values and responses *)

(** A value that [JSON.stringify] serialises; an object keeps its fields in
    insertion order, and a field whose value is [undefined] is absent. *)
#[warnings="-register-all"]
Inductive json : Type :=
| JNull
| JBool (b : bool)
| JNum (n : Z)
| JStr (s : string)
| JArr (items : list json)
| JObj (fields : list (string * json)).

Record Response := mkResponse {
  resp_body : json;
  resp_status : Z;
  resp_headers : list (string * string)
}.

Definition jsonResponse (data : json) (status : Z) : Response :=
  {| resp_body := data;
     resp_status := status;
     resp_headers :=
       [("Content-Type", "application/json");
        ("Access-Control-Allow-Origin", "*");
        ("Access-Control-Allow-Methods", "POST, OPTIONS");
        ("Access-Control-Allow-Headers",
         "Content-Type, Authorization, authCode")] |}.

(** Truthiness of a value that is a string or [undefined]. *)
Definition truthy_str (v : option string) : bool :=
  match v with
  | Some s => negb (Str.is_empty s)
  | None => false
  end.

(** [v || null] for a string or [undefined]. *)
Definition str_or_null (v : option string) : json :=
  match v with
  | Some s => if Str.is_empty s then JNull else JStr s
  | None => JNull
  end.

(** [v || null] for a number or [undefined]. *)
Definition num_or_null (v : option Z) : json :=
  match v with
  | Some n => if n =? 0 then JNull else JNum n
  | None => JNull
  end.

(** The field [error: error.message]; absent when the message is
    [undefined]. *)
Definition message_field (error : JsError) : list (string * json) :=
  match err_message error with
  | Some m => [("error", JStr m)]
  | None => []
  end.

Definition staged_file_json (item : StagedFile) : json :=
  JObj [("name", JStr (sf_name item)); ("filePath", JStr (sf_filePath item))].

Definition toErrorResponse (error : JsError) (fallbackCode : string)
  : Response :=
  let errorCode := err_code error in
  let status := err_status error in
  if bool_decide (errorCode = Some "INVALID_REQUEST") then
    jsonResponse
      (JObj ([("success", JBool false); ("code", JStr "INVALID_REQUEST")]
             ++ message_field error))
      (match status with
       | Some n => if n =? 0 then 400 else n
       | None => 400
       end)
  else if bool_decide (status = Some 429) then
    jsonResponse
      (JObj ([("success", JBool false); ("code", JStr "RATE_LIMIT")]
             ++ message_field error
             ++ [("retryAfterSeconds",
                  num_or_null (err_retryAfterSeconds error))]))
      429
  else if bool_decide (status = Some 401) || bool_decide (status = Some 403)
  then
    jsonResponse
      (JObj ([("success", JBool false); ("code", JStr "AUTH_ERROR")]
             ++ message_field error))
      401
  else if bool_decide (err_stage error = Some "commit") then
    jsonResponse
      (JObj ([("success", JBool false);
              ("code", JStr "PARTIAL_UPLOAD_NOT_COMMITTED")]
             ++ message_field error
             ++ [("retryAfterSeconds",
                  num_or_null (err_retryAfterSeconds error));
                 ("uploadedFiles",
                  JArr (map staged_file_json
                            (default [] (err_uploadedFiles error))))]))
      502
  else
    jsonResponse
      (JObj [("success", JBool false);
             ("code", JStr fallbackCode);
             ("error",
              JStr (if truthy_str (err_message error)
                    then default "" (err_message error)
                    else "Unknown error"))])
      500.

(** ** Paths in URLs *)

Definition is_alnum (c : ascii) : bool :=
  let n := Str.code c in
  ((48 <=? n) && (n <=? 57) || (65 <=? n) && (n <=? 90)
   || (97 <=? n) && (n <=? 122))%N.

(** The characters [encodeURIComponent] leaves as they are. *)
Definition is_uri_unreserved (c : ascii) : bool :=
  is_alnum c || Str.includes "-_.!~*'()" c.

Definition hex_digit (n : N) : ascii :=
  match String.get (N.to_nat n) "0123456789ABCDEF" with
  | Some c => c
  | None => "0"%char
  end.

Definition percent_byte (b : N) : string :=
  String "%" (String (hex_digit (b / 16)) (String (hex_digit (b mod 16)) "")).

(** A code unit below 128 is one UTF-8 byte, one from 128 to 255 is two. *)
Definition encodeURIComponent_char (c : ascii) : string :=
  let n := Str.code c in
  if is_uri_unreserved c then String c ""
  else if (n <? 128)%N then percent_byte n
  else (percent_byte (192 + n / 64) ++ percent_byte (128 + n mod 64))%N.

Fixpoint encodeURIComponent (s : string) : string :=
  match s with
  | EmptyString => EmptyString
  | String c r => encodeURIComponent_char c ++ encodeURIComponent r
  end.

Definition encodeFileIdForUrl (fileId : string) : string :=
  String.concat "/" (map encodeURIComponent (Str.split "/" fileId)).

(** ** The backend's answer and the channels *)

(** The four places where the backend's answer may carry the identifier of
    the transaction. *)
Record CommitResult := mkCommitResult {
  cr_commit_oid : option string;
  cr_commit_id : option string;
  cr_commitOid : option string;
  cr_oid : option string
}.

Definition first_truthy (candidates : list (option string)) : json :=
  match List.find truthy_str candidates with
  | Some (Some s) => JStr s
  | _ => JNull
  end.

(** [extractCommitId]; [None] is a missing [commitResult]. *)
Definition extractCommitId (commitResult : option CommitResult) : json :=
  match commitResult with
  | None => JNull
  | Some r =>
      first_truthy [cr_commit_oid r; cr_commit_id r; cr_commitOid r; cr_oid r]
  end.

Record Channel := mkChannel {
  ch_name : option string;
  ch_token : option string;
  ch_repo : option string;
  ch_isPrivate : bool
}.

Record HfSettings := mkHfSettings {
  hf_channels : list Channel;
  hf_loadBalance_enabled : bool
}.

(** [selectHuggingFaceChannel]; [random] is the value of [Math.random()],
    the fraction [fst random / snd random], and the index drawn under load
    balancing is [Math.floor(Math.random() * channels.length)].  An index
    beyond the list gives [undefined]. *)
Definition selectHuggingFaceChannel (hfSettings : HfSettings)
    (channelName : option string) (random : nat * nat) : option Channel :=
  let channels := hf_channels hfSettings in
  match channels with
  | [] => None
  | first :: _ =>
      if truthy_str channelName then
        List.find (fun channel => bool_decide (ch_name channel = channelName))
                  channels
      else if hf_loadBalance_enabled hfSettings
      then nth_error channels
                     (fst random * length channels / snd random)%nat
      else Some first
  end.

(** ** The request and the collaborators *)

(** One entry of [files]; a field is [None] when it is not a string.  An
    entry that is [null] has no field. *)
Record FileInput := mkFileInput {
  fi_name : option string;
  fi_mimeType : option string;
  fi_contentBase64 : option string;
  fi_sha256 : option string
}.

Inductive RequestId :=
| RidAbsent                (* [null] or [undefined] *)
| RidString (s : string)
| RidOther.                (* any other value *)

(** The parsed body; [body_files] is [None] when [files] is not an array,
    [body_uploadFolder] is [None] when the folder is absent or [null].  A
    body that is [null] has no field. *)
Record Body := mkBody {
  body_uploadFolder : option string;
  body_channelName : option string;
  body_files : option (list FileInput);
  body_commitMessage : option string;
  body_requestId : RequestId
}.

(** The request: [req_json] is [None] when [request.json()] throws. *)
Record Request := mkRequest {
  req_json : option Body;
  req_hostname : string
}.

Record Blob := mkBlob {
  blob_bytes : list N;
  blob_type : string
}.

(** The metadata record of a file.  The fields from [md_Channel] on are set
    after the commit. *)
Record Metadata := mkMetadata {
  md_FileName : string;
  md_FileType : string;
  md_FileSize : string;
  md_FileSizeBytes : Z;
  md_UploadIP : string;
  md_UploadAddress : string;
  md_ListType : string;
  md_TimeStamp : Z;
  md_Label : string;
  md_Directory : string;
  md_Tags : list string;
  md_Width : option Z;
  md_Height : option Z;
  md_Channel : option string;
  md_ChannelName : option string;
  md_HfRepo : option string;
  md_HfFilePath : option string;
  md_HfToken : option string;
  md_HfIsPrivate : option bool;
  md_HfFileUrl : option string
}.

Record PreparedFile := mkPreparedFile {
  pf_name : string;
  pf_fullId : string;
  pf_filePath : string;
  pf_mimeType : string;
  pf_fileBlob : Blob;
  pf_contentBase64 : string;
  pf_precomputedSha256 : option string;
  pf_metadata : Metadata
}.

(** One element of the list handed to [uploadFilesInSingleCommit]. *)
Record CommitFile := mkCommitFile {
  cf_name : string;
  cf_file : Blob;
  cf_filePath : string;
  cf_precomputedSha256 : option string;
  cf_contentBase64 : string
}.

Record UploadResult := mkUploadResult {
  ur_commitResult : option CommitResult
}.

(** The collaborators of the handler, as the answers they give on one
    run.  [None] in an [env_HF_BATCH_*] field is a [Number.parseInt] that is
    not a finite number. *)
Record Env := mkEnv {
  env_HF_BATCH_MAX_FILES : option Z;
  env_HF_BATCH_MAX_TOTAL_SIZE : option Z;
  env_HF_BATCH_MAX_SINGLE_FILE_SIZE : option Z;
  userAuthCheck : result bool;
  JSON_parse : string -> option json;
  JSON_stringify : json -> string;
  fetchUploadConfig : result (option HfSettings);
  (** [Math.random()] as a fraction: numerator and denominator. *)
  Math_random : nat * nat;
  getUploadIp : string;
  getIPAddress : result string;
  Date_now : Z;
  (** [None]: the sniffer returns [null] or throws. *)
  getImageDimensions : list N -> string -> option (Z * Z);
  uploadFilesInSingleCommit :
    Channel -> list CommitFile -> string -> result UploadResult;
  getFileURL : Channel -> string -> string;
  (** [securityConfig?.upload?.moderate?.enabled === true] *)
  fetchSecurityConfig : result bool;
  (** [None]: the classifier throws. *)
  moderateContent : string -> option string
}.

(** ** The limits *)

Definition DEFAULT_MAX_FILES : Z := 50.
Definition DEFAULT_MAX_TOTAL_SIZE : Z := 80 * 1024 * 1024.
Definition DEFAULT_MAX_SINGLE_FILE_SIZE : Z := 20 * 1024 * 1024.

Definition parseLimit (parsed : option Z) (fallback : Z) : Z :=
  match parsed with
  | Some n => if 0 <? n then n else fallback
  | None => fallback
  end.

Record Limits := mkLimits {
  maxFiles : Z;
  maxTotalSize : Z;
  maxSingleFileSize : Z
}.

Definition limits_of (env : Env) : Limits :=
  {| maxFiles := parseLimit (env_HF_BATCH_MAX_FILES env) DEFAULT_MAX_FILES;
     maxTotalSize :=
       parseLimit (env_HF_BATCH_MAX_TOTAL_SIZE env) DEFAULT_MAX_TOTAL_SIZE;
     maxSingleFileSize :=
       parseLimit (env_HF_BATCH_MAX_SINGLE_FILE_SIZE env)
                  DEFAULT_MAX_SINGLE_FILE_SIZE |}.

(** ** Numbers in messages *)

Definition show_Z (n : Z) : string :=
  match n with
  | Zneg p => String "-" (NilEmpty.string_of_uint (Pos.to_uint p))
  | _ => NilEmpty.string_of_uint (N.to_uint (Z.to_N n))
  end.

Definition show_nat (n : nat) : string := show_Z (Z.of_nat n).

(** [(bytes / 1024 / 1024).toFixed(2)]: the quotient is exact in binary
    floating point, and [toFixed] rounds it to hundredths, halves upwards. *)
Definition toFixed2_MiB (bytes : Z) : string :=
  let hundredths := (200 * bytes + 1048576) / 2097152 in
  let cents := hundredths mod 100 in
  show_Z (hundredths / 100) ++ "."
  ++ (if cents <? 10 then "0" else "") ++ show_Z cents.

(** ** Serialisation

    [JSON.stringify] on the values above. *)

Definition dquote : ascii := ascii_of_N 34.

Definition hex_digit_lower (n : N) : ascii :=
  match String.get (N.to_nat n) "0123456789abcdef" with
  | Some c => c
  | None => "0"%char
  end.

Definition escape_char (c : ascii) : string :=
  match Str.code c with
  | 34 => String "\" (String dquote "")
  | 92 => "\\"
  | 8 => "\b"
  | 9 => "\t"
  | 10 => "\n"
  | 12 => "\f"
  | 13 => "\r"
  | n =>
      if (n <? 32)%N
      then "\u00" ++ String (hex_digit_lower (n / 16))
                       (String (hex_digit_lower (n mod 16)) "")
      else String c ""
  end%N.

Fixpoint escape (s : string) : string :=
  match s with
  | EmptyString => EmptyString
  | String c r => escape_char c ++ escape r
  end.

Definition quote (s : string) : string :=
  String dquote (escape s ++ String dquote "").

Fixpoint stringify (v : json) : string :=
  match v with
  | JNull => "null"
  | JBool true => "true"
  | JBool false => "false"
  | JNum n => show_Z n
  | JStr s => quote s
  | JArr items => "[" ++ String.concat "," (map stringify items) ++ "]"
  | JObj fields =>
      "{" ++ String.concat ","
               (map (fun '(k, v) => quote k ++ ":" ++ stringify v) fields)
      ++ "}"
  end.

(** ** The walk over the batch

    The first [for] loop of [onRequestPost]: every entry is normalized,
    measured against the limits, checked against the paths seen so far,
    decoded and turned into a prepared file. *)

Record WalkCtx := mkWalkCtx {
  wc_limits : Limits;
  wc_normalizedFolder : string;
  wc_uploadIp : string;
  wc_uploadAddress : string;
  wc_now : Z;
  wc_getImageDimensions : list N -> string -> option (Z * Z)
}.

(** Only the first 65536 bytes are shown to the image sniffer. *)
Definition HEADER_BYTES : nat := Z.to_nat 65536.

Definition fullId_of (normalizedFolder fileName : string) : string :=
  if Str.is_empty normalizedFolder then fileName
  else normalizedFolder ++ "/" ++ fileName.

Definition draft_metadata (ctx : WalkCtx) (fileName mimeType : string)
    (fileSizeBytes : Z) (imageDimensions : option (Z * Z)) : Metadata :=
  {| md_FileName := fileName;
     md_FileType := mimeType;
     md_FileSize := toFixed2_MiB fileSizeBytes;
     md_FileSizeBytes := fileSizeBytes;
     md_UploadIP := wc_uploadIp ctx;
     md_UploadAddress := wc_uploadAddress ctx;
     md_ListType := "None";
     md_TimeStamp := wc_now ctx;
     md_Label := "None";
     md_Directory :=
       if Str.is_empty (wc_normalizedFolder ctx) then ""
       else wc_normalizedFolder ctx ++ "/";
     md_Tags := [];
     md_Width := fst <$> imageDimensions;
     md_Height := snd <$> imageDimensions;
     md_Channel := None; md_ChannelName := None; md_HfRepo := None;
     md_HfFilePath := None; md_HfToken := None; md_HfIsPrivate := None;
     md_HfFileUrl := None |}.

(** The state the loop carries from one entry to the next. *)
Record WalkState := mkWalkState {
  totalEstimatedBytes : Z;
  fullIdSet : gset string;
  preparedFiles : list PreparedFile
}.

Definition walk_start : WalkState :=
  {| totalEstimatedBytes := 0; fullIdSet := ∅; preparedFiles := [] |}.

(** The body of the loop at index [i]. *)
Definition prepareFile (ctx : WalkCtx) (i : nat) (st : WalkState)
    (fileInput : FileInput) : result WalkState :=
  let* fileName := normalizeFileName (fi_name fileInput) in
  let mimeType := normalizeMimeType (fi_mimeType fileInput) in
  let* base64Data := normalizeContentBase64 (fi_contentBase64 fileInput) in
  let estimatedSize := estimateBase64Size base64Data in
  if estimatedSize <=? 0 then
    Err (invalid_request ("files[" ++ show_nat i ++ "] has empty content"))
  else if maxSingleFileSize (wc_limits ctx) <? estimatedSize then
    Err (invalid_request
           ("files[" ++ show_nat i
            ++ "] exceeds max single file size limit ("
            ++ show_Z (maxSingleFileSize (wc_limits ctx)) ++ " bytes)"))
  else
    let total := totalEstimatedBytes st + estimatedSize in
    if maxTotalSize (wc_limits ctx) <? total then
      Err (invalid_request
             ("Total files size exceeds limit ("
              ++ show_Z (maxTotalSize (wc_limits ctx)) ++ " bytes)"))
    else
      let fullId := fullId_of (wc_normalizedFolder ctx) fileName in
      if Str.startsWith fullId RESERVED_PREFIX then
        Err (invalid_request
               ("files[" ++ show_nat i ++ "] uses reserved path"))
      else if bool_decide (fullId ∈ fullIdSet st) then
        Err (invalid_request ("Duplicate target path in files: " ++ fullId))
      else
        let* bytes := decodeBase64ToUint8Array base64Data in
        let fileBlob := {| blob_bytes := bytes; blob_type := mimeType |} in
        let imageDimensions :=
          if Str.startsWith mimeType "image/"
          then wc_getImageDimensions ctx (take HEADER_BYTES bytes) mimeType
          else None in
        let fileSizeBytes := Z.of_nat (length bytes) in
        OK {| totalEstimatedBytes := total;
              fullIdSet := {[ fullId ]} ∪ fullIdSet st;
              preparedFiles :=
                preparedFiles st ++
                [{| pf_name := fileName;
                    pf_fullId := fullId;
                    pf_filePath := fullId;
                    pf_mimeType := mimeType;
                    pf_fileBlob := fileBlob;
                    pf_contentBase64 := base64Data;
                    pf_precomputedSha256 :=
                      match fi_sha256 fileInput with
                      | Some h =>
                          if Str.is_empty (Str.trim h) then None
                          else Some (Str.trim h)
                      | None => None
                      end;
                    pf_metadata :=
                      draft_metadata ctx fileName mimeType fileSizeBytes
                                     imageDimensions |}] |}.

(** The loop from index [i] on. *)
Fixpoint prepareFiles_from (ctx : WalkCtx) (i : nat) (st : WalkState)
    (files : list FileInput) : result WalkState :=
  match files with
  | [] => OK st
  | fileInput :: rest =>
      let* st' := prepareFile ctx i st fileInput in
      prepareFiles_from ctx (S i) st' rest
  end.

Definition prepareFiles (ctx : WalkCtx) (files : list FileInput)
  : result (list PreparedFile) :=
  let* st := prepareFiles_from ctx 0 walk_start files in
  OK (preparedFiles st).

(** ** The store and the trace of a run *)

(** What the store keeps under a key. *)
Record DbEntry := mkDbEntry {
  db_value : string;
  db_metadata : option Metadata
}.

(** The calls with an effect outside the handler, in the order made. *)
Inductive Event :=
| EvDbDelete (key : string)
| EvDbPut (key : string) (entry : DbEntry)
| EvCommit (channel : Channel) (files : list CommitFile) (summary : string)
| EvModerate (url : string)
| EvEndUpload (fullId : string) (metadata : Metadata).

(** A step of the handler goes on with a value, returns a response, or
    throws. *)
Inductive Step (A : Type) : Type :=
| Next (a : A)
| Return (r : Response)
| Throw (e : JsError).
Arguments Next {A} a.
Arguments Return {A} r.
Arguments Throw {A} e.

(** A computation of the handler: from the store it finds to a step, the
    store it leaves and the calls it made. *)
Definition M (A : Type) : Type :=
  gmap string DbEntry -> Step A * gmap string DbEntry * list Event.

Definition ret {A} (a : A) : M A := fun db => (Next a, db, []).

Definition bind {A B} (m : M A) (k : A -> M B) : M B :=
  fun db =>
    match m db with
    | (Next a, db', t) =>
        match k a db' with
        | (step, db'', t') => (step, db'', (t ++ t')%list)
        end
    | (Return r, db', t) => (Return r, db', t)
    | (Throw e, db', t) => (Throw e, db', t)
    end.

Notation "'let!' x ':=' m 'in' k" := (bind m (fun x => k))
  (at level 10, x name, m at level 100, k at level 200).

Definition exit {A} (r : Response) : M A := fun db => (Return r, db, []).

(** A call that may throw. *)
Definition call {A} (r : result A) : M A :=
  fun db =>
    match r with
    | OK a => (Next a, db, [])
    | Err e => (Throw e, db, [])
    end.

Definition emit (ev : Event) : M unit := fun db => (Next tt, db, [ev]).

Definition db_get (key : string) : M (option string) :=
  fun db => (Next (db_value <$> db !! key), db, []).

Definition db_delete (key : string) : M unit :=
  fun db => (Next tt, delete key db, [EvDbDelete key]).

Definition db_put (key value : string) (metadata : option Metadata)
  : M unit :=
  fun db =>
    let entry := {| db_value := value; db_metadata := metadata |} in
    (Next tt, <[key := entry]> db, [EvDbPut key entry]).

(** ** The stages of [onRequestPost] *)

Definition error_body (code message : string) : json :=
  JObj [("success", JBool false); ("code", JStr code);
        ("error", JStr message)].

(** [requestId ? `manage@hf_batch_request@${requestId}` : null] *)
Definition idempotencyKey_of (requestId : RequestId) : option string :=
  match requestId with
  | RidString s =>
      if Str.is_empty s then None
      else Some ("manage@hf_batch_request@" ++ s)
  | _ => None
  end.

(** Truthiness of a parsed value. *)
Definition truthy (v : json) : bool :=
  match v with
  | JNull => false
  | JBool b => b
  | JNum n => negb (n =? 0)
  | JStr s => negb (Str.is_empty s)
  | JArr _ | JObj _ => true
  end.

(** [typeof v === 'object'] *)
Definition typeof_object (v : json) : bool :=
  match v with
  | JNull | JArr _ | JObj _ => true
  | _ => false
  end.

(** Assignment to a field of an object: an existing field keeps its place,
    a new one goes last. *)
Fixpoint set_field (name : string) (v : json) (fields : list (string * json))
  : list (string * json) :=
  match fields with
  | [] => [(name, v)]
  | (k, w) :: rest =>
      if String.eqb k name then (k, v) :: rest
      else (k, w) :: set_field name v rest
  end.

(** [payload.idempotent = true], as the serialised response shows it: a
    property put on an array is not serialised. *)
Definition mark_idempotent (payload : json) : json :=
  match payload with
  | JObj fields => JObj (set_field "idempotent" (JBool true) fields)
  | other => other
  end.

(** The lookup in the ledger; it returns the stored response or goes on. *)
Definition ledger_lookup (env : Env) (idempotencyKey : option string)
  : M unit :=
  match idempotencyKey with
  | None => ret tt
  | Some key =>
      let! existing := db_get key in
      if truthy_str existing then
        let payload :=
          match JSON_parse env (default "" existing) with
          | Some v => v
          | None => JNull
          end in
        if negb (truthy payload) || negb (typeof_object payload)
        then db_delete key
        else exit (jsonResponse (mark_idempotent payload) 200)
      else ret tt
  end.

(** The configured channel, or the response that ends the request. *)
Definition resolve_channel (env : Env) (channelName : option string)
  : M Channel :=
  let! uploadConfig := call (fetchUploadConfig env) in
  match uploadConfig with
  | None =>
      exit (jsonResponse
              (error_body "CHANNEL_NOT_FOUND"
                          "No HuggingFace channel configured") 400)
  | Some hfSettings =>
      if (length (hf_channels hfSettings) =? 0)%nat then
        exit (jsonResponse
                (error_body "CHANNEL_NOT_FOUND"
                            "No HuggingFace channel configured") 400)
      else
        match selectHuggingFaceChannel hfSettings channelName
                                       (Math_random env) with
        | None =>
            exit (jsonResponse
                    (error_body "CHANNEL_NOT_FOUND"
                       (if truthy_str channelName
                        then "HuggingFace channel not found: "
                             ++ default "" channelName
                        else "No available HuggingFace channel")) 400)
        | Some hfChannel =>
            if negb (truthy_str (ch_token hfChannel))
               || negb (truthy_str (ch_repo hfChannel))
            then
              exit (jsonResponse
                      (error_body "CHANNEL_NOT_FOUND"
                         "HuggingFace channel not properly configured") 400)
            else ret hfChannel
        end
  end.

Definition commit_file (file : PreparedFile) : CommitFile :=
  {| cf_name := pf_name file;
     cf_file := pf_fileBlob file;
     cf_filePath := pf_filePath file;
     cf_precomputedSha256 := pf_precomputedSha256 file;
     cf_contentBase64 := pf_contentBase64 file |}.

Definition commitSummary_of (commitMessage : option string) (count : nat)
  : string :=
  match commitMessage with
  | Some m =>
      if Str.is_empty (Str.trim m)
      then "Batch upload " ++ show_nat count ++ " files"
      else Str.trim m
  | None => "Batch upload " ++ show_nat count ++ " files"
  end.

(** The one call of [uploadFilesInSingleCommit]. *)
Definition submit (env : Env) (hfChannel : Channel)
    (prepared : list PreparedFile) (commitSummary : string)
  : M UploadResult :=
  let! _ := emit (EvCommit hfChannel (map commit_file prepared)
                           commitSummary) in
  call (uploadFilesInSingleCommit env hfChannel (map commit_file prepared)
                                  commitSummary).

Definition committed_metadata (env : Env) (hfChannel : Channel)
    (file : PreparedFile) : Metadata :=
  let m := pf_metadata file in
  {| md_FileName := md_FileName m;
     md_FileType := md_FileType m;
     md_FileSize := md_FileSize m;
     md_FileSizeBytes := md_FileSizeBytes m;
     md_UploadIP := md_UploadIP m;
     md_UploadAddress := md_UploadAddress m;
     md_ListType := md_ListType m;
     md_TimeStamp := md_TimeStamp m;
     md_Label := md_Label m;
     md_Directory := md_Directory m;
     md_Tags := md_Tags m;
     md_Width := md_Width m;
     md_Height := md_Height m;
     md_Channel := Some "HuggingFace";
     md_ChannelName :=
       Some (if truthy_str (ch_name hfChannel)
             then default "" (ch_name hfChannel) else "HuggingFace_env");
     md_HfRepo := ch_repo hfChannel;
     md_HfFilePath := Some (pf_filePath file);
     md_HfToken := ch_token hfChannel;
     md_HfIsPrivate := Some (ch_isPrivate hfChannel);
     md_HfFileUrl := Some (getFileURL env hfChannel (pf_filePath file)) |}.

Definition with_label (m : Metadata) (label : string) : Metadata :=
  {| md_FileName := md_FileName m;
     md_FileType := md_FileType m;
     md_FileSize := md_FileSize m;
     md_FileSizeBytes := md_FileSizeBytes m;
     md_UploadIP := md_UploadIP m;
     md_UploadAddress := md_UploadAddress m;
     md_ListType := md_ListType m;
     md_TimeStamp := md_TimeStamp m;
     md_Label := label;
     md_Directory := md_Directory m;
     md_Tags := md_Tags m;
     md_Width := md_Width m;
     md_Height := md_Height m;
     md_Channel := md_Channel m;
     md_ChannelName := md_ChannelName m;
     md_HfRepo := md_HfRepo m;
     md_HfFilePath := md_HfFilePath m;
     md_HfToken := md_HfToken m;
     md_HfIsPrivate := md_HfIsPrivate m;
     md_HfFileUrl := md_HfFileUrl m |}.

Definition response_file (file : PreparedFile) : json :=
  JObj [("name", JStr (pf_name file));
        ("src", JStr ("/file/" ++ encodeFileIdForUrl (pf_fullId file)));
        ("fullId", JStr (pf_fullId file))].

(** The [try] block of the second loop: the classifier is asked about the
    file and, when it answers, the record is written again with the label.
    A classifier that throws leaves the record as it is. *)
Definition moderate_file (env : Env) (req : Request) (hfChannel : Channel)
    (file : PreparedFile) (metadata : Metadata) : M Metadata :=
  let moderateUrl :=
    if negb (ch_isPrivate hfChannel)
    then default "" (md_HfFileUrl metadata)
    else "https://" ++ req_hostname req ++ "/file/"
         ++ encodeFileIdForUrl (pf_fullId file) in
  let! _ := emit (EvModerate moderateUrl) in
  match moderateContent env moderateUrl with
  | Some label =>
      let! _ := db_put (pf_fullId file) ""
                       (Some (with_label metadata label)) in
      ret (with_label metadata label)
  | None => ret metadata
  end.

(** The body of the second loop for one file: the record is written, the
    label is refined when moderation is on, the deferred bookkeeping is
    scheduled; the value is the file's entry in the response. *)
Definition record_file (env : Env) (req : Request) (hfChannel : Channel)
    (moderateEnabled : bool) (file : PreparedFile) : M json :=
  let metadata := committed_metadata env hfChannel file in
  let! _ := db_put (pf_fullId file) "" (Some metadata) in
  let! labelled :=
    (if moderateEnabled
     then moderate_file env req hfChannel file metadata
     else ret metadata) in
  let! _ := emit (EvEndUpload (pf_fullId file) labelled) in
  ret (response_file file).

Fixpoint record_files (env : Env) (req : Request) (hfChannel : Channel)
    (moderateEnabled : bool) (files : list PreparedFile) : M (list json) :=
  match files with
  | [] => ret []
  | file :: rest =>
      let! entry := record_file env req hfChannel moderateEnabled file in
      let! entries := record_files env req hfChannel moderateEnabled rest in
      ret (entry :: entries)
  end.

Definition success_payload (requestId : RequestId) (hfChannel : Channel)
    (uploadResult : UploadResult) (responseFiles : list json) : json :=
  JObj [("success", JBool true);
        ("requestId",
         match requestId with
         | RidString s => str_or_null (Some s)
         | _ => JNull
         end);
        ("commitId", extractCommitId (ur_commitResult uploadResult));
        ("channelName", str_or_null (ch_name hfChannel));
        ("repo", JStr (default "" (ch_repo hfChannel)));
        ("files", JArr responseFiles)].

Definition requestId_ok (requestId : RequestId) : bool :=
  match requestId with
  | RidAbsent => true
  | RidString s =>
      negb (Str.is_empty (Str.trim s))
      && negb (128 <? Z.of_nat (String.length s))
  | RidOther => false
  end.

(** The walk as the handler sets it up. *)
Definition walk_ctx (env : Env) (normalizedFolder uploadAddress : string)
  : WalkCtx :=
  {| wc_limits := limits_of env;
     wc_normalizedFolder := normalizedFolder;
     wc_uploadIp := getUploadIp env;
     wc_uploadAddress := uploadAddress;
     wc_now := Date_now env;
     wc_getImageDimensions := getImageDimensions env |}.

(** The [try] block from the channel to the end of the walk: nothing is
    written and no transaction is submitted. *)
Definition prepare_batch (env : Env) (body : Body) (files : list FileInput)
    (normalizedFolder : string) : M (Channel * list PreparedFile) :=
  let! hfChannel := resolve_channel env (body_channelName body) in
  let! uploadAddress := call (getIPAddress env) in
  let! prepared :=
    call (prepareFiles (walk_ctx env normalizedFolder uploadAddress) files) in
  ret (hfChannel, prepared).

(** The [try] block from the submission of the transaction on. *)
Definition commit_batch (env : Env) (req : Request) (body : Body)
    (idempotencyKey : option string) (hfChannel : Channel)
    (prepared : list PreparedFile) : M Response :=
  let commitSummary :=
    commitSummary_of (body_commitMessage body) (length prepared) in
  let! uploadResult := submit env hfChannel prepared commitSummary in
  let! moderateEnabled := call (fetchSecurityConfig env) in
  let! responseFiles :=
    record_files env req hfChannel moderateEnabled prepared in
  let payload :=
    success_payload (body_requestId body) hfChannel uploadResult
                    responseFiles in
  let! _ := match idempotencyKey with
            | Some key => db_put key (JSON_stringify env payload) None
            | None => ret tt
            end in
  ret (jsonResponse payload 200).

(** The body of the [try] block. *)
Definition handle (env : Env) (req : Request) : M Response :=
  let limits := limits_of env in
  let! authorized := call (userAuthCheck env) in
  if negb authorized then
    exit (jsonResponse (error_body "AUTH_ERROR" "Unauthorized") 401)
  else
  match req_json req with
  | None =>
      exit (jsonResponse
              (error_body "INVALID_REQUEST" "Request body must be valid JSON")
              400)
  | Some body =>
  match body_files body with
  | None | Some [] =>
      exit (jsonResponse
              (error_body "INVALID_REQUEST" "files must be a non-empty array")
              400)
  | Some files =>
  if maxFiles limits <? Z.of_nat (length files) then
    exit (jsonResponse
            (error_body "INVALID_REQUEST"
               ("Too many files, max allowed: " ++ show_Z (maxFiles limits)))
            400)
  else if negb (requestId_ok (body_requestId body)) then
    exit (jsonResponse
            (error_body "INVALID_REQUEST"
               "requestId must be a non-empty string up to 128 chars")
            400)
  else
  let! normalizedFolder :=
    call (normalizeUploadFolder (body_uploadFolder body)) in
  let idempotencyKey := idempotencyKey_of (body_requestId body) in
  let! _ := ledger_lookup env idempotencyKey in
  let! batch := prepare_batch env body files normalizedFolder in
  commit_batch env req body idempotencyKey (fst batch) (snd batch)
  end
  end.

(** What a run of the handler leaves behind. *)
Record Outcome := mkOutcome {
  out_response : Response;
  out_db : gmap string DbEntry;
  out_trace : list Event
}.

(** [onRequestPost]: the [try] block, and the [catch] that turns a thrown
    value into a response. *)
Definition onRequestPost (env : Env) (req : Request)
    (db : gmap string DbEntry) : Outcome :=
  let '(step, db', trace) := handle env req db in
  {| out_response :=
       match step with
       | Next r | Return r => r
       | Throw e => toErrorResponse e "INTERNAL_ERROR"
       end;
     out_db := db';
     out_trace := trace |}.

(** The number of transactions submitted to the backend on a run. *)
Definition commits (trace : list Event) : nat :=
  length (List.filter (fun ev => match ev with
                                 | EvCommit _ _ _ => true
                                 | _ => false
                                 end) trace).

(** ** The mime type utilities *)

Module MimeType.

Definition EXTENSION_MIME_MAP : list (string * string) :=
  [("avif", "image/avif");
   ("bmp", "image/bmp");
   ("css", "text/css; charset=utf-8");
   ("csv", "text/csv; charset=utf-8");
   ("gif", "image/gif");
   ("heic", "image/heic");
   ("heif", "image/heif");
   ("htm", "text/html; charset=utf-8");
   ("html", "text/html; charset=utf-8");
   ("ico", "image/x-icon");
   ("jpeg", "image/jpeg");
   ("jpg", "image/jpeg");
   ("js", "application/javascript; charset=utf-8");
   ("json", "application/json; charset=utf-8");
   ("md", "text/markdown; charset=utf-8");
   ("mp3", "audio/mpeg");
   ("mp4", "video/mp4");
   ("mpeg", "video/mpeg");
   ("mpg", "video/mpeg");
   ("m4a", "audio/mp4");
   ("mov", "video/quicktime");
   ("pdf", "application/pdf");
   ("png", "image/png");
   ("svg", "image/svg+xml");
   ("tif", "image/tiff");
   ("tiff", "image/tiff");
   ("txt", "text/plain; charset=utf-8");
   ("wav", "audio/wav");
   ("webm", "video/webm");
   ("webp", "image/webp");
   ("xml", "application/xml; charset=utf-8");
   ("zip", "application/zip")].

(** The table is an object literal, so a lookup that finds no own
    property goes on to the properties of [Object.prototype]. *)
Definition OBJECT_PROTOTYPE_KEYS : list string :=
  ["constructor"; "__defineGetter__"; "__defineSetter__";
   "hasOwnProperty"; "__lookupGetter__"; "__lookupSetter__";
   "isPrototypeOf"; "propertyIsEnumerable"; "toString"; "valueOf";
   "__proto__"; "toLocaleString"].

(** What a lookup in the table, and so [resolveMimeType], can give: a
    string, or the function or object that [Object.prototype] holds under
    the name. *)
Inductive Value :=
| VStr (s : string)
| VInherited (property : string).

Fixpoint assoc (key : string) (table : list (string * string))
  : option string :=
  match table with
  | [] => None
  | (k, v) :: rest => if String.eqb k key then Some v else assoc key rest
  end.

(** [EXTENSION_MIME_MAP[extension] || null] *)
Definition lookup_extension (extension : string) : option Value :=
  match assoc extension EXTENSION_MIME_MAP with
  | Some v => if Str.is_empty v then None else Some (VStr v)
  | None =>
      if existsb (String.eqb extension) OBJECT_PROTOTYPE_KEYS
      then Some (VInherited extension)
      else None
  end.

(** [toLowerCase] on a code unit below 256. *)
Definition lower_char (c : ascii) : ascii :=
  let n := Str.code c in
  if ((65 <=? n) && (n <=? 90)
      || (192 <=? n) && (n <=? 222) && negb (n =? 215))%N
  then ascii_of_N (n + 32)
  else c.

Fixpoint toLowerCase (s : string) : string :=
  match s with
  | EmptyString => EmptyString
  | String c r => String (lower_char c) (toLowerCase r)
  end.

(** The class [[a-z0-9!#$&^_.+-]] under the flag [i]. *)
Definition is_mime_char (c : ascii) : bool :=
  is_alnum c || Str.includes "!#$&^_.+-" c.

(** [.] matches every character but a line terminator. *)
Definition is_line_terminator (c : ascii) : bool :=
  match Str.code c with
  | 10 | 13 => true
  | _ => false
  end%N.

Fixpoint no_line_terminator (s : string) : bool :=
  match s with
  | EmptyString => true
  | String c r => negb (is_line_terminator c) && no_line_terminator r
  end.

(** [\s*.+$]: the rest is matched by [.+], or one white space character
    is consumed by [\s*] and the match is tried again. *)
Fixpoint match_value (s : string) : bool :=
  (negb (Str.is_empty s) && no_line_terminator s)
  || match s with
     | String c r => Str.is_space c && match_value r
     | EmptyString => false
     end.

(** [(?:\s*;\s*.+)?$]: the characters of [\s*] must all be consumed
    before the [;], which is not white space. *)
Definition match_parameters (s : string) : bool :=
  Str.is_empty s
  || match Str.drop_leading Str.is_space s with
     | String ";" r => match_value r
     | _ => false
     end.

(** [[a-z0-9!#$&^_.+-]+]: the run is followed by a character outside
    the class, so it is the longest one. *)
Definition match_token (s : string) : option string :=
  if Str.head_is is_mime_char s
  then Some (Str.drop_leading is_mime_char s)
  else None.

(** [MIME_PATTERN.test(s)] *)
Definition MIME_PATTERN_test (s : string) : bool :=
  match match_token s with
  | Some (String "/" r) =>
      match match_token r with
      | Some rest => match_parameters rest
      | None => false
      end
  | _ => false
  end.

Definition OCTET_STREAM_PREFIX : string := "application/octet-stream".

Definition first_part (sep : ascii) (s : string) : string :=
  hd "" (Str.split sep s).

Definition toBaseMimeType (mimeType : option string) : option string :=
  match mimeType with
  | None => None
  | Some m =>
      let trimmed := Str.trim m in
      if Str.is_empty trimmed then None
      else
        let baseType := first_part ";" trimmed in
        let lowered := toLowerCase (Str.trim baseType) in
        if Str.is_empty lowered then None else Some lowered
  end.

Definition normalizeMimeType (mimeType : option string) : option string :=
  match mimeType with
  | None => None
  | Some m =>
      let trimmed := Str.trim m in
      if Str.is_empty trimmed || negb (MIME_PATTERN_test trimmed)
      then None
      else Some trimmed
  end.

Definition isOctetStreamMimeType (mimeType : option string) : bool :=
  bool_decide (toBaseMimeType mimeType = Some OCTET_STREAM_PREFIX).

(** [s.lastIndexOf(c)]; [None] is [-1]. *)
Fixpoint lastIndexOf (s : string) (c : ascii) : option nat :=
  match s with
  | EmptyString => None
  | String d r =>
      match lastIndexOf r c with
      | Some i => Some (S i)
      | None => if Ascii.eqb d c then Some O else None
      end
  end.

Definition inferMimeTypeFromFileName (fileName : option string)
  : option Value :=
  match fileName with
  | None => None
  | Some fileName =>
      if Str.is_empty (Str.trim fileName) then None
      else
        let normalizedFileName :=
          first_part "#" (first_part "?" fileName) in
        let baseName := List.last (Str.split "/" normalizedFileName) "" in
        if Str.is_empty baseName then None
        else
          match lastIndexOf baseName "." with
          | None | Some O => None
          | Some dotIndex =>
              if (S dotIndex =? String.length baseName)%nat then None
              else
                let extension :=
                  toLowerCase (Str.slice_from (S dotIndex) baseName) in
                lookup_extension extension
          end
  end.

Definition extractMimeTypeFromDataUrl (value : option string)
  : option string :=
  match value with
  | None => None
  | Some value =>
      let trimmed := Str.trim value in
      if negb (Str.startsWith trimmed "data:") then None
      else
        match Str.indexOf trimmed "," with
        | None => None
        | Some commaIndex =>
            if (commaIndex <=? 5)%nat then None
            else
              let mimePart :=
                Str.trim
                  (first_part ";"
                     (Str.slice_to (commaIndex - 5)
                                   (Str.slice_from 5 trimmed))) in
              normalizeMimeType (Some mimePart)
        end
  end.

(** The [options] argument; [opt_defaultMimeType] is [None] when the
    caller leaves the default to the function. *)
Record Options := mkOptions {
  opt_dataUrlValue : option string;
  opt_defaultMimeType : option string
}.

Definition defaultMimeType_of (options : Options) : string :=
  default "application/octet-stream" (opt_defaultMimeType options).

Definition resolveMimeType (mimeType fileName : option string)
    (options : Options) : Value :=
  let normalizedInput := normalizeMimeType mimeType in
  if truthy_str normalizedInput
     && negb (isOctetStreamMimeType normalizedInput)
  then VStr (default "" normalizedInput)
  else
    let dataUrlMimeType :=
      extractMimeTypeFromDataUrl (opt_dataUrlValue options) in
    if truthy_str dataUrlMimeType then VStr (default "" dataUrlMimeType)
    else
      match inferMimeTypeFromFileName fileName with
      | Some inferredMimeType => inferredMimeType
      | None =>
          if truthy_str normalizedInput
          then VStr (default "" normalizedInput)
          else VStr (defaultMimeType_of options)
      end.

(** A string that is not empty. *)
Definition non_empty_string (v : Value) : Prop :=
  exists s, v = VStr s /\ s <> "".

End MimeType.

(** ** Reading a response *)

Fixpoint json_assoc (name : string) (fields : list (string * json))
  : option json :=
  match fields with
  | [] => None
  | (k, v) :: rest => if String.eqb k name then Some v else json_assoc name rest
  end.

(** The field [name] of a response body. *)
Definition json_field (name : string) (body : json) : option json :=
  match body with
  | JObj fields => json_assoc name fields
  | _ => None
  end.

(** The response reports a failure under the code [code]. *)
Definition fails_with (code : string) (status : Z) (r : Response) : Prop :=
  json_field "success" (resp_body r) = Some (JBool false)
  /\ json_field "code" (resp_body r) = Some (JStr code)
  /\ resp_status r = status.

(** The response reports a failure. *)
Definition is_failure (r : Response) : Prop :=
  json_field "success" (resp_body r) = Some (JBool false).

(** A result that is an [INVALID_REQUEST] error with status 400. *)
Definition rejected {A} (r : result A) : Prop :=
  exists message, r = Err (invalid_request message).

(** ** What the walk sees of an entry *)

(** The estimated size of an entry whose content passes normalization. *)
Definition entry_size (fileInput : FileInput) : option Z :=
  match normalizeContentBase64 (fi_contentBase64 fileInput) with
  | OK base64Data => Some (estimateBase64Size base64Data)
  | Err _ => None
  end.

(** The target path of an entry whose name passes normalization. *)
Definition entry_path (normalizedFolder : string) (fileInput : FileInput)
  : option string :=
  match normalizeFileName (fi_name fileInput) with
  | OK fileName => Some (fullId_of normalizedFolder fileName)
  | Err _ => None
  end.

(** The sum of the estimated sizes of a batch. *)
Definition total_size (files : list FileInput) : Z :=
  foldr (fun fileInput sum => default 0 (entry_size fileInput) + sum) 0 files.

(** The entry passes the checks that concern it alone and do not depend
    on the folder: the name and the content pass normalization, the
    estimated size is positive and within the limit for one file, and the
    content decodes. *)
Definition entry_valid (limits : Limits) (fileInput : FileInput) : bool :=
  match normalizeFileName (fi_name fileInput),
        normalizeContentBase64 (fi_contentBase64 fileInput) with
  | OK fileName, OK base64Data =>
      (0 <? estimateBase64Size base64Data)
      && (estimateBase64Size base64Data <=? maxSingleFileSize limits)
      && is_ok (decodeBase64ToUint8Array base64Data)
  | _, _ => false
  end.

(** The target path of the entry begins with the reserved prefix. *)
Definition path_reserved (normalizedFolder : string) (fileInput : FileInput)
  : bool :=
  match entry_path normalizedFolder fileInput with
  | Some path => Str.startsWith path RESERVED_PREFIX
  | None => false
  end.

(** The entry passes every check of the walk that concerns it alone. *)
Definition entry_ok (ctx : WalkCtx) (fileInput : FileInput) : bool :=
  entry_valid (wc_limits ctx) fileInput
  && negb (path_reserved (wc_normalizedFolder ctx) fileInput).

(** The target paths of the entries whose names pass normalization. *)
Definition entry_paths (normalizedFolder : string) (files : list FileInput)
  : list string :=
  omap (entry_path normalizedFolder) files.

(** ** The stages a request goes through *)

(** The request passes the checks that precede the lookup in the ledger:
    the caller is authorised, the body is parsed, [files] is an array of 1
    to [maxFiles] entries, the request identifier, when there is one, is a
    string of the right form, and the folder passes normalization. *)
Record passes_checks (env : Env) (req : Request) (body : Body)
    (files : list FileInput) (normalizedFolder : string) : Prop :=
  mkPassesChecks {
    pc_authorized : userAuthCheck env = OK true;
    pc_body : req_json req = Some body;
    pc_files : body_files body = Some files;
    pc_non_empty : files <> [];
    pc_count : Z.of_nat (length files) <= maxFiles (limits_of env);
    pc_requestId : requestId_ok (body_requestId body) = true;
    pc_folder :
      normalizeUploadFolder (body_uploadFolder body) = OK normalizedFolder
  }.

(** What the lookup in the ledger finds. *)
Inductive Lookup :=
| Miss                       (* no key, no entry, or an empty value *)
| Corrupt (key : string)     (* a value that is not a stored response *)
| Hit (payload : json).      (* a stored response *)

Definition ledger_state (env : Env) (idempotencyKey : option string)
    (db : gmap string DbEntry) : Lookup :=
  match idempotencyKey with
  | None => Miss
  | Some key =>
      match db !! key with
      | None => Miss
      | Some entry =>
          if Str.is_empty (db_value entry) then Miss
          else
            match JSON_parse env (db_value entry) with
            | Some (JArr items) => Hit (JArr items)
            | Some (JObj fields) => Hit (JObj fields)
            | _ => Corrupt key
            end
      end
  end.

(** The request is not answered from the ledger. *)
Definition not_replayed (env : Env) (req : Request)
    (db : gmap string DbEntry) : Prop :=
  forall body payload,
    req_json req = Some body ->
    ledger_state env (idempotencyKey_of (body_requestId body)) db
    <> Hit payload.

(** The configuration gives a channel that can be used. *)
Definition channel_resolved (env : Env) (channelName : option string)
    (hfChannel : Channel) : Prop :=
  exists hfSettings,
    fetchUploadConfig env = OK (Some hfSettings)
    /\ selectHuggingFaceChannel hfSettings channelName (Math_random env)
       = Some hfChannel
    /\ truthy_str (ch_token hfChannel) = true
    /\ truthy_str (ch_repo hfChannel) = true.

(** The calls of [db.delete] on a key in a trace. *)
Definition deletes (key : string) (trace : list Event) : bool :=
  existsb (fun ev => match ev with
                     | EvDbDelete k => String.eqb k key
                     | _ => false
                     end) trace.

(** The entry of the response for a file of the given name in the given
    folder. *)
Definition listed_file (normalizedFolder fileName : string) : json :=
  JObj [("name", JStr fileName);
        ("src",
         JStr ("/file/"
               ++ encodeFileIdForUrl (fullId_of normalizedFolder fileName)));
        ("fullId", JStr (fullId_of normalizedFolder fileName))].

(** A step that ends the request before the ledger is consulted. *)
Definition ends_early (step : Step Response) : Prop :=
  match step with
  | Next _ => False
  | Return r => is_failure r
  | Throw _ => True
  end.

(** What [JSON.parse] gives is neither an object nor an array: the text
    does not parse, or it parses to [null], a boolean, a number or a
    string. *)
Definition not_a_response (parsed : option json) : bool :=
  match parsed with
  | None => true
  | Some (JNull | JBool _ | JNum _ | JStr _) => true
  | Some (JArr _ | JObj _) => false
  end.

(** ** Further notions

    Notions in which the properties beyond the claims are stated. *)

(** A path segment that is not empty, is neither [.] nor [..], and does
    not begin with the reserved prefix. *)
Definition safe_segment (segment : string) : bool :=
  negb (Str.is_empty segment || String.eqb segment "."
        || String.eqb segment "..")
  && negb (Str.startsWith segment RESERVED_PREFIX).

(** The number of bytes of a prepared file. *)
Definition decoded_size (file : PreparedFile) : Z :=
  Z.of_nat (length (blob_bytes (pf_fileBlob file))).

(** The sum of the sizes of the prepared files. *)
Definition decoded_total (prepared : list PreparedFile) : Z :=
  foldr (fun file sum => decoded_size file + sum) 0 prepared.

(** The prepared file that the walk makes of an entry: what was checked
    on the entry and what the fields of the file are. *)
Definition prepared_from (ctx : WalkCtx) (fileInput : FileInput)
    (file : PreparedFile) : Prop :=
  exists fileName base64Data bytes,
    normalizeFileName (fi_name fileInput) = OK fileName
    /\ normalizeContentBase64 (fi_contentBase64 fileInput) = OK base64Data
    /\ decodeBase64ToUint8Array base64Data = OK bytes
    /\ 0 < estimateBase64Size base64Data
    /\ estimateBase64Size base64Data <= maxSingleFileSize (wc_limits ctx)
    /\ pf_name file = fileName
    /\ pf_fullId file = fullId_of (wc_normalizedFolder ctx) fileName
    /\ pf_filePath file = fullId_of (wc_normalizedFolder ctx) fileName
    /\ pf_mimeType file = normalizeMimeType (fi_mimeType fileInput)
    /\ pf_fileBlob file
       = {| blob_bytes := bytes;
            blob_type := normalizeMimeType (fi_mimeType fileInput) |}
    /\ pf_contentBase64 file = base64Data
    /\ md_FileName (pf_metadata file) = fileName
    /\ md_FileType (pf_metadata file)
       = normalizeMimeType (fi_mimeType fileInput)
    /\ md_FileSizeBytes (pf_metadata file) = Z.of_nat (length bytes).

(** The operation of the commit that stands for an entry of the batch. *)
Definition operation_from (ctx : WalkCtx) (fileInput : FileInput)
    (operation : CommitFile) : Prop :=
  exists fileName base64Data bytes,
    normalizeFileName (fi_name fileInput) = OK fileName
    /\ normalizeContentBase64 (fi_contentBase64 fileInput) = OK base64Data
    /\ decodeBase64ToUint8Array base64Data = OK bytes
    /\ cf_name operation = fileName
    /\ cf_filePath operation = fullId_of (wc_normalizedFolder ctx) fileName
    /\ cf_contentBase64 operation = base64Data
    /\ cf_file operation
       = {| blob_bytes := bytes;
            blob_type := normalizeMimeType (fi_mimeType fileInput) |}.


(** The metadata [metadata] is what the second loop records for [file]:
    the metadata of the walk completed with the channel, as it is or with
    the label the classifier gave. *)
Definition recorded (env : Env) (hfChannel : Channel) (file : PreparedFile)
    (metadata : Metadata) : Prop :=
  metadata = committed_metadata env hfChannel file
  \/ exists label,
       metadata = with_label (committed_metadata env hfChannel file) label.

(** The environment with another security configuration and another
    classifier. *)
Definition with_moderation (env : Env) (securityConfig : result bool)
    (moderate : string -> option string) : Env :=
  {| env_HF_BATCH_MAX_FILES := env_HF_BATCH_MAX_FILES env;
     env_HF_BATCH_MAX_TOTAL_SIZE := env_HF_BATCH_MAX_TOTAL_SIZE env;
     env_HF_BATCH_MAX_SINGLE_FILE_SIZE :=
       env_HF_BATCH_MAX_SINGLE_FILE_SIZE env;
     userAuthCheck := userAuthCheck env;
     JSON_parse := JSON_parse env;
     JSON_stringify := JSON_stringify env;
     fetchUploadConfig := fetchUploadConfig env;
     Math_random := Math_random env;
     getUploadIp := getUploadIp env;
     getIPAddress := getIPAddress env;
     Date_now := Date_now env;
     getImageDimensions := getImageDimensions env;
     uploadFilesInSingleCommit := uploadFilesInSingleCommit env;
     getFileURL := getFileURL env;
     fetchSecurityConfig := securityConfig;
     moderateContent := moderate |}.

(** The characters of a component that [encodeURIComponent] made. *)
Definition is_encoded_char (c : ascii) : bool :=
  is_uri_unreserved c || Ascii.eqb c "%".

(** The call [ev] stays within the keys of a request: a record is put
    under one of the [paths], with the empty value and some metadata; the
    ledger is written and deleted under [ledgerKey] only, without metadata;
    the bookkeeping of an upload is scheduled for one of the [paths]. *)
Definition within_keys (paths : list string) (ledgerKey : option string)
    (ev : Event) : Prop :=
  match ev with
  | EvDbPut key entry =>
      (key ∈ paths /\ db_value entry = "" /\ db_metadata entry <> None)
      \/ (ledgerKey = Some key /\ db_metadata entry = None)
  | EvDbDelete key => ledgerKey = Some key
  | EvEndUpload fullId _ => fullId ∈ paths
  | EvCommit _ _ _ | EvModerate _ => True
  end.

(** The headers that [jsonResponse] gives to every response. *)
Definition json_headers : list (string * string) :=
  resp_headers (jsonResponse JNull 200).

(** A step that, when it returns a response, returns one with the headers
    of [jsonResponse], and, when it goes on, goes on with a value that
    satisfies [Q]. *)
Definition answers_json {A} (Q : A -> Prop) (step : Step A) : Prop :=
  match step with
  | Next a => Q a
  | Return r => resp_headers r = json_headers
  | Throw _ => True
  end.

(** Two metadata that differ in their label at most. *)
Definition same_but_label (m m' : Metadata) : Prop :=
  with_label m "" = with_label m' "".

(** Two stores that hold entries under the same keys, with the same values
    and with metadata that differ in their label at most. *)
Definition agree_but_labels (db db' : gmap string DbEntry) : Prop :=
  forall key,
    match db !! key, db' !! key with
    | None, None => True
    | Some entry, Some entry' =>
        db_value entry = db_value entry'
        /\ match db_metadata entry, db_metadata entry' with
           | None, None => True
           | Some m, Some m' => same_but_label m m'
           | _, _ => False
           end
    | _, _ => False
    end.

(** A failure that the handler answers on its own account: a body of
    [success], [code] and [error]. *)
Definition own_failure (r : Response) : Prop :=
  exists code message status,
    r = jsonResponse (error_body code message) status.

(** A step that, when it returns a response, returns one that satisfies
    [R]. *)
Definition returns_only {A} (R : Response -> Prop) (step : Step A) : Prop :=
  match step with
  | Return r => R r
  | _ => True
  end.

(** ** A sample run

    The batch of three files in the folder [demo], on one public channel. *)

Definition demo_channel : Channel :=
  {| ch_name := Some "HF_img"; ch_token := Some "hf_token";
     ch_repo := Some "owner/repo"; ch_isPrivate := false |}.

Definition demo_env : Env :=
  {| env_HF_BATCH_MAX_FILES := None;
     env_HF_BATCH_MAX_TOTAL_SIZE := None;
     env_HF_BATCH_MAX_SINGLE_FILE_SIZE := None;
     userAuthCheck := OK true;
     JSON_parse := fun _ => None;
     JSON_stringify := stringify;
     fetchUploadConfig :=
       OK (Some {| hf_channels := [demo_channel];
                   hf_loadBalance_enabled := false |});
     Math_random := (0, 1)%nat;
     getUploadIp := "203.0.113.7";
     getIPAddress := OK "Utopia";
     Date_now := 1770000000000;
     getImageDimensions := fun _ _ => None;
     uploadFilesInSingleCommit := fun _ _ _ =>
       OK {| ur_commitResult :=
               Some {| cr_commit_oid := Some "4f2a9c1";
                       cr_commit_id := None;
                       cr_commitOid := None;
                       cr_oid := None |} |};
     getFileURL := fun _ path =>
       "https://huggingface.co/datasets/owner/repo/resolve/main/" ++ path;
     fetchSecurityConfig := OK false;
     moderateContent := fun _ => None |}.

Definition demo_file (name mimeType contentBase64 : string) : FileInput :=
  {| fi_name := Some name; fi_mimeType := Some mimeType;
     fi_contentBase64 := Some contentBase64; fi_sha256 := None |}.

Definition demo_files : list FileInput :=
  [demo_file "a.jpg" "image/jpeg" "aGVsbG8=";
   demo_file "b.jpg" "image/jpeg" "d29ybGQ=";
   demo_file "info.txt" "text/plain" "aGk="].

Definition demo_body (files : list FileInput) (requestId : RequestId)
  : Body :=
  {| body_uploadFolder := Some "demo"; body_channelName := None;
     body_files := Some files; body_commitMessage := None;
     body_requestId := requestId |}.

Definition demo_request (files : list FileInput) (requestId : RequestId)
  : Request :=
  {| req_json := Some (demo_body files requestId);
     req_hostname := "img.example" |}.

(** The walk as the handler sets it up for the sample run. *)
Definition demo_ctx (env : Env) : WalkCtx := walk_ctx env "demo" "Utopia".

(** The environment with another parser. *)
Definition with_JSON_parse (env : Env) (parse : string -> option json)
  : Env :=
  {| env_HF_BATCH_MAX_FILES := env_HF_BATCH_MAX_FILES env;
     env_HF_BATCH_MAX_TOTAL_SIZE := env_HF_BATCH_MAX_TOTAL_SIZE env;
     env_HF_BATCH_MAX_SINGLE_FILE_SIZE :=
       env_HF_BATCH_MAX_SINGLE_FILE_SIZE env;
     userAuthCheck := userAuthCheck env;
     JSON_parse := parse;
     JSON_stringify := JSON_stringify env;
     fetchUploadConfig := fetchUploadConfig env;
     Math_random := Math_random env;
     getUploadIp := getUploadIp env;
     getIPAddress := getIPAddress env;
     Date_now := Date_now env;
     getImageDimensions := getImageDimensions env;
     uploadFilesInSingleCommit := uploadFilesInSingleCommit env;
     getFileURL := getFileURL env;
     fetchSecurityConfig := fetchSecurityConfig env;
     moderateContent := moderateContent env |}.

(** The first run: the sample batch under the request identifier
    [batch-001], on an empty store. *)
Definition first_run : Outcome :=
  onRequestPost demo_env (demo_request demo_files (RidString "batch-001")) ∅.

(** The response the first run stores in the ledger. *)
Definition stored_response : json := resp_body (out_response first_run).

(** The sample environment, with a parser that reads what the first run
    stored. *)
Definition replay_env : Env :=
  with_JSON_parse demo_env
    (fun text =>
       if String.eqb text (stringify stored_response)
       then Some stored_response else None).

(** Two entries with the same name. *)
Definition twin_files : list FileInput :=
  [demo_file "a.jpg" "image/jpeg" "aGVsbG8=";
   demo_file "a.jpg" "image/jpeg" "d29ybGQ="].

(** Two entries that the first run did not have. *)
Definition other_files : list FileInput :=
  [demo_file "c.png" "image/png" "aGVsbG8=";
   demo_file "d.png" "image/png" "d29ybGQ="].

(** A store in which the ledger holds an empty value for [batch-001]. *)
Definition stale_db : gmap string DbEntry :=
  {[ "manage@hf_batch_request@batch-001" :=
       {| db_value := ""; db_metadata := None |} ]}.

(** The sample environment with a budget of twelve bytes, the sum of the
    sizes of the sample files. *)
Definition tight_env : Env :=
  {| env_HF_BATCH_MAX_FILES := env_HF_BATCH_MAX_FILES demo_env;
     env_HF_BATCH_MAX_TOTAL_SIZE := Some 12;
     env_HF_BATCH_MAX_SINGLE_FILE_SIZE :=
       env_HF_BATCH_MAX_SINGLE_FILE_SIZE demo_env;
     userAuthCheck := userAuthCheck demo_env;
     JSON_parse := JSON_parse demo_env;
     JSON_stringify := JSON_stringify demo_env;
     fetchUploadConfig := fetchUploadConfig demo_env;
     Math_random := Math_random demo_env;
     getUploadIp := getUploadIp demo_env;
     getIPAddress := getIPAddress demo_env;
     Date_now := Date_now demo_env;
     getImageDimensions := getImageDimensions demo_env;
     uploadFilesInSingleCommit := uploadFilesInSingleCommit demo_env;
     getFileURL := getFileURL demo_env;
     fetchSecurityConfig := fetchSecurityConfig demo_env;
     moderateContent := moderateContent demo_env |}.

(** A store in which the ledger holds a text that does not parse for
    [batch-001]. *)
Definition corrupt_db : gmap string DbEntry :=
  {[ "manage@hf_batch_request@batch-001" :=
       {| db_value := "{"; db_metadata := None |} ]}.

(** The sample environment with a backend that refuses every
    transaction. *)
Definition failing_env : Env :=
  {| env_HF_BATCH_MAX_FILES := env_HF_BATCH_MAX_FILES demo_env;
     env_HF_BATCH_MAX_TOTAL_SIZE := env_HF_BATCH_MAX_TOTAL_SIZE demo_env;
     env_HF_BATCH_MAX_SINGLE_FILE_SIZE :=
       env_HF_BATCH_MAX_SINGLE_FILE_SIZE demo_env;
     userAuthCheck := userAuthCheck demo_env;
     JSON_parse := JSON_parse demo_env;
     JSON_stringify := JSON_stringify demo_env;
     fetchUploadConfig := fetchUploadConfig demo_env;
     Math_random := Math_random demo_env;
     getUploadIp := getUploadIp demo_env;
     getIPAddress := getIPAddress demo_env;
     Date_now := Date_now demo_env;
     getImageDimensions := getImageDimensions demo_env;
     uploadFilesInSingleCommit := fun _ _ _ =>
       Err {| err_message := Some "Commit failed";
              err_code := None;
              err_status := Some 503;
              err_stage := Some "commit";
              err_retryAfterSeconds := None;
              err_uploadedFiles := None |};
     getFileURL := getFileURL demo_env;
     fetchSecurityConfig := fetchSecurityConfig demo_env;
     moderateContent := moderateContent demo_env |}.

(** A call that writes a record or the ledger, or schedules the
    bookkeeping of an upload. *)
Definition is_write (ev : Event) : bool :=
  match ev with
  | EvDbPut _ _ | EvEndUpload _ _ => true
  | _ => false
  end.

(** The sample environment with a security configuration that cannot be
    read: the service that holds it answers 429. *)
Definition throttled_env : Env :=
  {| env_HF_BATCH_MAX_FILES := env_HF_BATCH_MAX_FILES demo_env;
     env_HF_BATCH_MAX_TOTAL_SIZE := env_HF_BATCH_MAX_TOTAL_SIZE demo_env;
     env_HF_BATCH_MAX_SINGLE_FILE_SIZE :=
       env_HF_BATCH_MAX_SINGLE_FILE_SIZE demo_env;
     userAuthCheck := userAuthCheck demo_env;
     JSON_parse := JSON_parse demo_env;
     JSON_stringify := JSON_stringify demo_env;
     fetchUploadConfig := fetchUploadConfig demo_env;
     Math_random := Math_random demo_env;
     getUploadIp := getUploadIp demo_env;
     getIPAddress := getIPAddress demo_env;
     Date_now := Date_now demo_env;
     getImageDimensions := getImageDimensions demo_env;
     uploadFilesInSingleCommit := uploadFilesInSingleCommit demo_env;
     getFileURL := getFileURL demo_env;
     fetchSecurityConfig :=
       Err {| err_message := Some "Too Many Requests";
              err_code := None;
              err_status := Some 429;
              err_stage := None;
              err_retryAfterSeconds := None;
              err_uploadedFiles := None |};
     moderateContent := moderateContent demo_env |}.

(** The padding that [estimateBase64Size] subtracts. *)
Definition base64_padding (base64Data : string) : Z :=
  if Str.endsWith base64Data "==" then 2
  else if Str.endsWith base64Data "=" then 1 else 0.

(** No character of [s] is matched by [\s]. *)
Definition whitespace_free (s : string) : bool :=
  forallb (fun c => negb (Str.is_space c)) (list_ascii_of_string s).

(* ================================================================== *)
(** * Properties *)

(** ** Folder normalization *)

Section DropLemmas.

Variable p : ascii -> bool.

Lemma drop_leading_head s : Str.head_is p (Str.drop_leading p s) = false.
Proof.
  induction s as [|c r IH]; simpl; [reflexivity|].
  destruct (p c) eqn:E; [exact IH | simpl; exact E].
Qed.

Lemma drop_leading_id s :
  Str.head_is p s = false -> Str.drop_leading p s = s.
Proof. destruct s as [|c r]; simpl; [reflexivity|]. now intros ->. Qed.

Lemma drop_trailing_last s :
  Str.last_is p (Str.drop_trailing p s) = false.
Proof.
  induction s as [|c r IH]; simpl; [reflexivity|].
  destruct (p c) eqn:E; simpl.
  - destruct (Str.drop_trailing p r) eqn:D; simpl; [reflexivity|].
    exact IH.
  - destruct (Str.drop_trailing p r) eqn:D; simpl; [exact E | exact IH].
Qed.

Lemma drop_trailing_id s :
  Str.last_is p s = false -> Str.drop_trailing p s = s.
Proof.
  induction s as [|c r IH]; simpl; [reflexivity|].
  destruct r as [|d r'].
  - intros ->. reflexivity.
  - intros H. rewrite (IH H). simpl. now rewrite andb_false_r.
Qed.

Lemma drop_trailing_head s :
  Str.head_is p s = false ->
  Str.head_is p (Str.drop_trailing p s) = false.
Proof.
  destruct s as [|c r]; simpl; [reflexivity|].
  intros H. rewrite H. simpl. exact H.
Qed.

End DropLemmas.

Lemma collapse_cons c d r :
  Str.collapse_slashes (String c (String d r))
  = if Str.is_slash c && Str.is_slash d
    then Str.collapse_slashes (String d r)
    else String c (Str.collapse_slashes (String d r)).
Proof. reflexivity. Qed.

Lemma collapse_head_eq s :
  Str.head_is Str.is_slash (Str.collapse_slashes s)
  = Str.head_is Str.is_slash s.
Proof.
  induction s as [|c r IH]; [reflexivity|].
  destruct r as [|d r']; [reflexivity|].
  rewrite collapse_cons.
  destruct (Str.is_slash c) eqn:Ec, (Str.is_slash d) eqn:Ed; cbn [andb].
  - rewrite IH. cbn [Str.head_is]. now rewrite Ec, Ed.
  - reflexivity.
  - reflexivity.
  - reflexivity.
Qed.

Lemma collapse_nonempty c r :
  Str.collapse_slashes (String c r) <> "".
Proof.
  revert c. induction r as [|d r IH]; intros c; [easy|].
  rewrite collapse_cons.
  destruct (Str.is_slash c && Str.is_slash d); [apply IH | easy].
Qed.

Lemma last_is_cons p c d r :
  Str.last_is p (String c (String d r)) = Str.last_is p (String d r).
Proof. reflexivity. Qed.

Lemma collapse_last s :
  Str.last_is Str.is_slash (Str.collapse_slashes s)
  = Str.last_is Str.is_slash s.
Proof.
  induction s as [|c r IH]; [reflexivity|].
  destruct r as [|d r']; [reflexivity|].
  rewrite collapse_cons.
  destruct (Str.is_slash c && Str.is_slash d).
  - rewrite IH. reflexivity.
  - rewrite (last_is_cons _ c d r'), <- IH.
    destruct (Str.collapse_slashes (String d r')) eqn:E.
    + now apply collapse_nonempty in E.
    + apply last_is_cons.
Qed.

Lemma collapse_no_double s :
  Str.has_double_slash (Str.collapse_slashes s) = false.
Proof.
  induction s as [|c r IH]; [reflexivity|].
  destruct r as [|d r']; [cbn; now rewrite andb_false_r|].
  rewrite collapse_cons.
  destruct (Str.is_slash c) eqn:Ec, (Str.is_slash d) eqn:Ed;
    cbn [andb]; try exact IH;
    cbn [Str.has_double_slash]; rewrite IH, Ec; cbn [andb orb];
    try reflexivity.
  rewrite collapse_head_eq. cbn. rewrite Ed. reflexivity.
Qed.

Lemma collapse_id s :
  Str.has_double_slash s = false -> Str.collapse_slashes s = s.
Proof.
  induction s as [|c r IH]; [reflexivity|].
  destruct r as [|d r']; [reflexivity|].
  cbn [Str.has_double_slash Str.head_is].
  intros H. apply orb_false_iff in H as [H1 H2].
  rewrite collapse_cons, H1.
  f_equal. apply IH. exact H2.
Qed.

Lemma strip_slashes_fixed s :
  Str.head_is Str.is_slash s = false ->
  Str.last_is Str.is_slash s = false ->
  Str.has_double_slash s = false ->
  strip_slashes s = s.
Proof.
  intros Hh Hl Hd. unfold strip_slashes.
  rewrite (drop_leading_id _ _ Hh), (drop_trailing_id _ _ Hl).
  now apply collapse_id.
Qed.

Lemma strip_slashes_idem s : strip_slashes (strip_slashes s) = strip_slashes s.
Proof.
  apply strip_slashes_fixed; unfold strip_slashes.
  - rewrite collapse_head_eq. apply drop_trailing_head, drop_leading_head.
  - rewrite collapse_last. apply drop_trailing_last.
  - apply collapse_no_double.
Qed.

Lemma trim_fixed t :
  Str.head_is Str.is_space t = false ->
  Str.last_is Str.is_space t = false ->
  Str.trim t = t.
Proof.
  intros Hh Hl. unfold Str.trim.
  rewrite (drop_leading_id _ _ Hh). now apply drop_trailing_id.
Qed.

(** C6 (as stated, refuted): normalizing the output of a successful folder
    normalization does not always give the same string back.  The input
    ["/ a"] normalizes to [" a"], because trimming comes before the slashes
    are stripped, and [" a"] normalizes to ["a"]. *)
Lemma normalizeUploadFolder_not_idempotent :
  ~ (forall s t : string,
       normalizeUploadFolder (Some s) = OK t ->
       normalizeUploadFolder (Some t) = OK t).
Proof.
  intros H. specialize (H "/ a" " a" eq_refl). discriminate H.
Qed.

(** C6 (amended): when folder normalization succeeds with an output that
    neither begins nor ends with a white space character, normalizing that
    output succeeds and yields the same string. *)
Theorem normalizeUploadFolder_idempotent (s t : string) :
  normalizeUploadFolder (Some s) = OK t ->
  Str.head_is Str.is_space t = false ->
  Str.last_is Str.is_space t = false ->
  normalizeUploadFolder (Some t) = OK t.
Proof.
  unfold normalizeUploadFolder.
  destruct (Str.is_empty (strip_slashes (Str.trim s))) eqn:Hempty.
  - intros [= <-] _ _. reflexivity.
  - destruct (check_segments (Str.split "/" (strip_slashes (Str.trim s))))
      eqn:Hseg; cbn [rbind]; [|discriminate].
    intros [= <-] Hh Hl.
    rewrite (trim_fixed _ Hh Hl), strip_slashes_idem, Hempty, Hseg.
    reflexivity.
Qed.

Lemma normalizeUploadFolder_idempotent_witness :
  normalizeUploadFolder (Some " //demo///2026/ ") = OK "demo/2026"
  /\ normalizeUploadFolder (Some "demo/2026") = OK "demo/2026".
Proof.
  split; [reflexivity|].
  apply (normalizeUploadFolder_idempotent " //demo///2026/ " "demo/2026");
    reflexivity.
Defined.

(** ** Base64: the size estimate against the decoder *)

Lemma ascii_whitespace_is_space c :
  Base64.is_ascii_whitespace c = true -> Str.is_space c = true.
Proof.
  destruct c as [[] [] [] [] [] [] [] []]; cbv; congruence.
Qed.

Lemma filter_whitespace_free s :
  whitespace_free s = true ->
  List.filter (fun c => negb (Base64.is_ascii_whitespace c))
              (list_ascii_of_string s)
  = list_ascii_of_string s.
Proof.
  unfold whitespace_free.
  induction (list_ascii_of_string s) as [|c l IH]; [reflexivity|].
  cbn [forallb List.filter]. intros H.
  apply andb_true_iff in H as [Hc Hl].
  destruct (Base64.is_ascii_whitespace c) eqn:E.
  - apply ascii_whitespace_is_space in E. rewrite E in Hc. discriminate.
  - cbn. f_equal. exact (IH Hl).
Qed.

Lemma length_list_ascii_of_string s :
  length (list_ascii_of_string s) = String.length s.
Proof. induction s; simpl; congruence. Qed.

Lemma length_string_of_list_ascii l :
  String.length (string_of_list_ascii l) = length l.
Proof. induction l; simpl; congruence. Qed.

Lemma string_of_list_ascii_app (l k : list ascii) :
  string_of_list_ascii (l ++ k)%list
  = (string_of_list_ascii l ++ string_of_list_ascii k)%string.
Proof. induction l as [|a l IH]; cbn; [reflexivity | now rewrite IH]. Qed.

(** Every group of four sextets gives three bytes; what is left gives one
    byte for two sextets and two bytes for three. *)
Lemma length_decode_sextets (l : list N) :
  Z.of_nat (length (Base64.decode_sextets l))
  = 3 * Z.of_nat (length l) / 4.
Proof.
  assert (H : forall n (k : list N), (length k <= n)%nat ->
            Z.of_nat (length (Base64.decode_sextets k))
            = 3 * Z.of_nat (length k) / 4).
  { induction n as [|n IH]; intros k Hk.
    - destruct k; [reflexivity | simpl in Hk; lia].
    - destruct k as [|a [|b [|c [|d r]]]]; try reflexivity.
      cbn [Base64.decode_sextets length].
      assert (Hr : (length r <= n)%nat) by (simpl in Hk; lia).
      specialize (IH r Hr). lia. }
  exact (H (length l) l (Nat.le_refl _)).
Qed.

Lemma append_nil_l (s : string) : ("" ++ s)%string = s.
Proof. reflexivity. Qed.

Lemma append_cons a (s t : string) :
  (String a s ++ t)%string = String a (s ++ t).
Proof. reflexivity. Qed.

Lemma string_eqb_cons a b x y :
  String.eqb (String a x) (String b y) = Ascii.eqb a b && String.eqb x y.
Proof. cbn. now destruct (Ascii.eqb a b). Qed.

Lemma string_eqb_snoc_nil x c :
  String.eqb (x ++ String c "") "" = false
  /\ String.eqb "" (x ++ String c "") = false.
Proof. destruct x; split; reflexivity. Qed.

Lemma string_eqb_snoc x y c d :
  String.eqb (x ++ String c "") (y ++ String d "")
  = Ascii.eqb c d && String.eqb x y.
Proof.
  revert y. induction x as [|a x IH]; intros [|b y];
    rewrite ?append_nil_l, ?append_cons, !string_eqb_cons.
  - reflexivity.
  - rewrite (proj2 (string_eqb_snoc_nil y d)). cbn.
    now rewrite !andb_false_r.
  - rewrite (proj1 (string_eqb_snoc_nil x c)). cbn.
    now rewrite !andb_false_r.
  - rewrite IH. 
    destruct (Ascii.eqb a b), (Ascii.eqb c d); reflexivity.
Qed.

Lemma endsWith_empty s : Str.endsWith s "" = true.
Proof.
  induction s as [|a s IH]; [reflexivity|].
  cbn [Str.endsWith]. rewrite IH. apply orb_true_r.
Qed.

Lemma endsWith_snoc s p c d :
  Str.endsWith (s ++ String c "") (p ++ String d "")
  = Ascii.eqb c d && Str.endsWith s p.
Proof.
  induction s as [|a s IH].
  - rewrite append_nil_l. cbn [Str.endsWith].
    change (String c "") with ("" ++ String c "")%string.
    rewrite string_eqb_snoc.
    rewrite (proj2 (string_eqb_snoc_nil p d)).
    now rewrite !orb_false_r.
  - rewrite append_cons. cbn [Str.endsWith]. rewrite IH.
    rewrite <- append_cons, string_eqb_snoc.
    destruct (Ascii.eqb c d); cbn; [reflexivity|].
    now rewrite ?andb_false_l.
Qed.

Lemma rev_cons_inv {A} (l : list A) p r : rev l = p :: r -> l = (rev r ++ [p])%list.
Proof. intros H. rewrite <- (rev_involutive l), H. reflexivity. Qed.

Lemma endsWith_pad1 (y : string) p :
  Str.endsWith (y ++ String p "") "=" = Ascii.eqb p "=".
Proof.
  change "=" with ("" ++ String "="%char "")%string.
  rewrite endsWith_snoc, endsWith_empty. apply andb_true_r.
Qed.

Lemma endsWith_pad2 (x : string) q p :
  Str.endsWith ((x ++ String q "") ++ String p "") "=="
  = Ascii.eqb p "=" && Ascii.eqb q "=".
Proof.
  change "==" with (("" ++ String "="%char "") ++ String "="%char "")%string.
  rewrite !endsWith_snoc, endsWith_empty. now rewrite andb_true_r.
Qed.

Lemma base64_padding_snoc2 (x : string) q p :
  base64_padding ((x ++ String q "") ++ String p "")
  = if Base64.is_pad p then (if Base64.is_pad q then 2 else 1) else 0.
Proof.
  unfold base64_padding, Base64.is_pad.
  rewrite endsWith_pad2, endsWith_pad1.
  destruct (Ascii.eqb p "="), (Ascii.eqb q "="); reflexivity.
Qed.

Lemma sextet_pad c : Base64.is_pad c = true -> Base64.sextet c = None.
Proof.
  unfold Base64.is_pad. intros H. apply Ascii.eqb_eq in H. now subst.
Qed.

Lemma decode_length (d : list ascii) binary :
  match mapM Base64.sextet d with
  | Some vs =>
      Some (string_of_list_ascii (map ascii_of_N (Base64.decode_sextets vs)))
  | None => None
  end = Some binary ->
  Z.of_nat (String.length binary) = 3 * Z.of_nat (length d) / 4
  /\ Forall (fun c => Base64.is_pad c = false) d.
Proof.
  destruct (mapM Base64.sextet d) as [vs|] eqn:E; [|discriminate].
  intros [= <-]. split.
  - rewrite length_string_of_list_ascii, length_map, length_decode_sextets.
    now rewrite (length_mapM _ _ _ E).
  - apply mapM_Some_1 in E.
    induction E as [|c v d' vs' Hc _ IH]; constructor; [|exact IH].
    destruct (Base64.is_pad c) eqn:P; [|reflexivity].
    rewrite (sextet_pad _ P) in Hc. discriminate.
Qed.

Lemma atob_length b binary :
  whitespace_free b = true ->
  Base64.atob b = Some binary ->
  Z.of_nat (String.length binary) = estimateBase64Size b.
Proof.
  intros Hws. unfold Base64.atob.
  rewrite (filter_whitespace_free _ Hws).
  assert (Hb : b = string_of_list_ascii (list_ascii_of_string b))
    by now rewrite string_of_list_ascii_of_string.
  assert (Hest : estimateBase64Size b
                 = if Z.of_nat (String.length b) =? 0 then 0
                   else Z.max 0 (Z.of_nat (String.length b) * 3 / 4
                                 - base64_padding b)) by reflexivity.
  rewrite Hest, <- (length_list_ascii_of_string b). clear Hest.
  revert Hb. generalize (list_ascii_of_string b) as l. intros l Hb.
  destruct (rev l) as [|p [|q r]] eqn:Hrev.
  - apply (f_equal (@rev ascii)) in Hrev. rewrite rev_involutive in Hrev.
    subst l. cbn. now intros [= <-].
  - apply rev_cons_inv in Hrev. subst l. cbn. discriminate.
  - unfold Base64.strip_padding. rewrite Hrev.
    apply rev_cons_inv in Hrev. cbn [rev] in Hrev.
    assert (Hlen : length l = S (S (length r))).
    { rewrite Hrev, !length_app, length_rev. cbn. lia. }
    assert (Hpad : base64_padding b
                   = if Base64.is_pad p
                     then (if Base64.is_pad q then 2 else 1) else 0).
    { rewrite Hb, Hrev, !string_of_list_ascii_app. cbn [string_of_list_ascii].
      apply base64_padding_snoc2. }
    rewrite Hpad.
    destruct (length l mod 4 =? 0)%nat eqn:Hmod.
    + apply Nat.eqb_eq in Hmod.
      apply Nat.Div0.mod_divides in Hmod as [k Hk].
      destruct (Base64.is_pad p) eqn:Pp; [destruct (Base64.is_pad q) eqn:Pq|].
      * destruct (length (rev r) mod 4 =? 1)%nat; [discriminate|].
        intros H. apply decode_length in H as [H _].
        rewrite H, length_rev. 
        destruct (Z.of_nat (length l) =? 0) eqn:Z0; lia.
      * destruct (length (rev (q :: r)) mod 4 =? 1)%nat; [discriminate|].
        intros H. apply decode_length in H as [H _].
        rewrite H, length_rev. cbn [length].
        destruct (Z.of_nat (length l) =? 0) eqn:Z0; lia.
      * destruct (length l mod 4 =? 1)%nat; [discriminate|].
        intros H. apply decode_length in H as [H _]. rewrite H.
        destruct (Z.of_nat (length l) =? 0) eqn:Z0; lia.
    + destruct (length l mod 4 =? 1)%nat; [discriminate|].
      intros H. apply decode_length in H as [H HF]. rewrite H.
      assert (Pp : Base64.is_pad p = false).
      { rewrite Forall_forall in HF. apply HF. rewrite Hrev.
        apply elem_of_app. right. apply list_elem_of_singleton.
        reflexivity. }
      rewrite Pp.
      destruct (Z.of_nat (length l) =? 0) eqn:Z0; lia.
Qed.

Lemma remove_spaces_whitespace_free s :
  whitespace_free (Str.remove_spaces s) = true.
Proof.
  unfold whitespace_free. induction s as [|c r IH]; [reflexivity|].
  cbn [Str.remove_spaces]. destruct (Str.is_space c) eqn:E; [exact IH|].
  cbn [list_ascii_of_string forallb]. now rewrite E, IH.
Qed.

(** Every payload that the handler measures and decodes is free of white
    space. *)
Lemma normalizeContentBase64_whitespace_free contentBase64 base64Data :
  normalizeContentBase64 contentBase64 = OK base64Data ->
  whitespace_free base64Data = true.
Proof.
  unfold normalizeContentBase64. destruct contentBase64 as [c|];
    [|discriminate].
  destruct (Str.is_empty (Str.trim c)); [discriminate|].
  intros [= <-]. apply remove_spaces_whitespace_free.
Qed.

(** C7: on a payload without white space that [atob] decodes, the size
    estimated from the encoded length and the padding is the exact number of
    decoded bytes; a payload that [atob] rejects raises [INVALID_REQUEST]
    with status 400 instead of giving bytes. *)
Theorem estimateBase64Size_exact (base64Data : string) :
  whitespace_free base64Data = true ->
  match Base64.atob base64Data with
  | Some binary =>
      exists bytes,
        decodeBase64ToUint8Array base64Data = OK bytes
        /\ bytes = map Str.code (list_ascii_of_string binary)
        /\ estimateBase64Size base64Data = Z.of_nat (length bytes)
  | None =>
      decodeBase64ToUint8Array base64Data
      = Err (createApiError "INVALID_REQUEST" "Invalid base64 content" 400)
  end.
Proof.
  intros Hws. unfold decodeBase64ToUint8Array.
  destruct (Base64.atob base64Data) as [binary|] eqn:E; [|reflexivity].
  eexists. split; [reflexivity|]. split; [reflexivity|].
  rewrite length_map, length_list_ascii_of_string.
  symmetry. now apply atob_length.
Qed.

Lemma estimateBase64Size_exact_witness :
  whitespace_free "aGVsbG8=" = true
  /\ exists bytes,
       decodeBase64ToUint8Array "aGVsbG8=" = OK bytes
       /\ bytes = [104; 101; 108; 108; 111]%N
       /\ estimateBase64Size "aGVsbG8=" = Z.of_nat (length bytes).
Proof.
  split; [reflexivity|].
  exact (estimateBase64Size_exact "aGVsbG8=" eq_refl).
Defined.

(** ** Classification of thrown values *)

Lemma json_assoc_app_r name fields rest :
  json_assoc name fields = None ->
  json_assoc name (fields ++ rest) = json_assoc name rest.
Proof.
  induction fields as [|[k w] fields IH]; cbn; [reflexivity|].
  destruct (String.eqb k name); [discriminate | exact IH].
Qed.

Lemma message_field_only_error error name :
  name <> "error" -> json_assoc name (message_field error) = None.
Proof.
  intros Hname. unfold message_field.
  destruct (err_message error); cbn [json_assoc]; [|reflexivity].
  destruct (String.eqb "error" name) eqn:E; [|reflexivity].
  apply String.eqb_eq in E. congruence.
Qed.

(** C3 (as stated, refuted): a thrown value with the commit-stage marker
    is not always answered with [PARTIAL_UPLOAD_NOT_COMMITTED] and 502.
    When it also carries the status 429 the answer is [RATE_LIMIT] with
    status 429, and the staged files are not listed. *)
Lemma toErrorResponse_commit_stage_rate_limited :
  let error :=
    {| err_code := None;
       err_message := Some "Too Many Requests";
       err_status := Some 429;
       err_stage := Some "commit";
       err_retryAfterSeconds := Some 3600;
       err_uploadedFiles :=
         Some [{| sf_name := "a.jpg"; sf_filePath := "demo/a.jpg";
                  sf_oid := "9f86d081884c7d65" |}] |} in
  err_stage error = Some "commit"
  /\ fails_with "RATE_LIMIT" 429 (toErrorResponse error "INTERNAL_ERROR")
  /\ json_field "uploadedFiles"
       (resp_body (toErrorResponse error "INTERNAL_ERROR")) = None
  /\ ~ fails_with "PARTIAL_UPLOAD_NOT_COMMITTED" 502
         (toErrorResponse error "INTERNAL_ERROR").
Proof.
  cbv zeta. repeat split; try reflexivity.
  intros (_ & _ & H). discriminate H.
Qed.

(** C3 (amended): a thrown value with the commit-stage marker whose code is
    not [INVALID_REQUEST] and whose status is none of 429, 401 and 403 is
    answered with the code [PARTIAL_UPLOAD_NOT_COMMITTED] and the status
    502, and the answer lists the staged files, each with its name and its
    target path. *)
Theorem toErrorResponse_partial_upload (error : JsError)
    (fallbackCode : string) :
  err_stage error = Some "commit" ->
  err_code error <> Some "INVALID_REQUEST" ->
  err_status error <> Some 429 ->
  err_status error <> Some 401 ->
  err_status error <> Some 403 ->
  fails_with "PARTIAL_UPLOAD_NOT_COMMITTED" 502
             (toErrorResponse error fallbackCode)
  /\ json_field "uploadedFiles"
       (resp_body (toErrorResponse error fallbackCode))
     = Some (JArr (map (fun item =>
                          JObj [("name", JStr (sf_name item));
                                ("filePath", JStr (sf_filePath item))])
                       (default [] (err_uploadedFiles error)))).
Proof.
  intros Hstage Hcode H429 H401 H403. unfold toErrorResponse.
  rewrite (bool_decide_eq_false_2 _ Hcode), (bool_decide_eq_false_2 _ H429),
    (bool_decide_eq_false_2 _ H401), (bool_decide_eq_false_2 _ H403),
    (bool_decide_eq_true_2 _ Hstage).
  cbn [orb]. unfold fails_with, json_field, jsonResponse, resp_body,
    resp_status.
  split; [repeat split; reflexivity|].
  change (json_assoc "uploadedFiles"
            (message_field error ++
             [("retryAfterSeconds",
               num_or_null (err_retryAfterSeconds error));
              ("uploadedFiles",
               JArr (map staged_file_json
                       (default [] (err_uploadedFiles error))))])
          = Some (JArr (map staged_file_json
                          (default [] (err_uploadedFiles error))))).
  rewrite json_assoc_app_r; [reflexivity|].
  now apply message_field_only_error.
Qed.

Lemma toErrorResponse_partial_upload_witness :
  let error :=
    {| err_code := None;
       err_message := Some "commit failed";
       err_status := Some 504;
       err_stage := Some "commit";
       err_retryAfterSeconds := None;
       err_uploadedFiles :=
         Some [{| sf_name := "a.jpg"; sf_filePath := "demo/a.jpg";
                  sf_oid := "9f86d081884c7d65" |}] |} in
  fails_with "PARTIAL_UPLOAD_NOT_COMMITTED" 502
             (toErrorResponse error "INTERNAL_ERROR")
  /\ json_field "uploadedFiles"
       (resp_body (toErrorResponse error "INTERNAL_ERROR"))
     = Some (JArr [JObj [("name", JStr "a.jpg");
                         ("filePath", JStr "demo/a.jpg")]]).
Proof.
  cbv zeta.
  apply (toErrorResponse_partial_upload
           {| err_code := None;
              err_message := Some "commit failed";
              err_status := Some 504;
              err_stage := Some "commit";
              err_retryAfterSeconds := None;
              err_uploadedFiles :=
                Some [{| sf_name := "a.jpg"; sf_filePath := "demo/a.jpg";
                         sf_oid := "9f86d081884c7d65" |}] |}
           "INTERNAL_ERROR"); [reflexivity | discriminate ..].
Defined.

(** ** Resolution of the mime type *)

Lemma normalizeMimeType_non_empty mimeType t :
  MimeType.normalizeMimeType mimeType = Some t -> Str.is_empty t = false.
Proof.
  unfold MimeType.normalizeMimeType. destruct mimeType as [m|]; [|discriminate].
  destruct (Str.is_empty (Str.trim m)) eqn:E; cbn [orb]; [discriminate|].
  destruct (MimeType.MIME_PATTERN_test (Str.trim m)); cbn [negb];
    [|discriminate].
  now intros [= <-].
Qed.

Lemma extractMimeTypeFromDataUrl_non_empty value t :
  MimeType.extractMimeTypeFromDataUrl value = Some t ->
  Str.is_empty t = false.
Proof.
  unfold MimeType.extractMimeTypeFromDataUrl.
  destruct value as [v|]; [|discriminate].
  destruct (negb (Str.startsWith (Str.trim v) "data:")); [discriminate|].
  destruct (Str.indexOf (Str.trim v) ",") as [i|]; [|discriminate].
  destruct (i <=? 5)%nat; [discriminate|].
  apply normalizeMimeType_non_empty.
Qed.

Lemma lookup_extension_non_empty extension s :
  MimeType.lookup_extension extension = Some (MimeType.VStr s) ->
  Str.is_empty s = false.
Proof.
  unfold MimeType.lookup_extension.
  destruct (MimeType.assoc extension MimeType.EXTENSION_MIME_MAP) as [v|].
  - destruct (Str.is_empty v) eqn:E; [discriminate|]. now intros [= <-].
  - destruct (existsb _ _); discriminate.
Qed.

Lemma inferMimeTypeFromFileName_non_empty fileName s :
  MimeType.inferMimeTypeFromFileName fileName = Some (MimeType.VStr s) ->
  Str.is_empty s = false.
Proof.
  unfold MimeType.inferMimeTypeFromFileName.
  destruct fileName as [f|]; [|discriminate].
  destruct (Str.is_empty (Str.trim f)); [discriminate|].
  destruct (Str.is_empty _); [discriminate|].
  destruct (MimeType.lastIndexOf _ _) as [[|i]|]; try discriminate.
  destruct (_ =? _)%nat; [discriminate|].
  apply lookup_extension_non_empty.
Qed.

Lemma is_empty_false s : Str.is_empty s = false -> s <> "".
Proof. now destruct s. Qed.

(** C10 (as stated, refuted): the result is not always a non-empty string.
    With no declared type, no data URL and no file name the result is the
    default the caller configured, and that may be the empty string. *)
Lemma resolveMimeType_empty_default :
  ~ (forall mimeType fileName options,
       MimeType.non_empty_string
         (MimeType.resolveMimeType mimeType fileName options)).
Proof.
  intros H.
  destruct (H None None
              {| MimeType.opt_dataUrlValue := None;
                 MimeType.opt_defaultMimeType := Some "" |})
    as (s & Hs & Hne).
  cbv in Hs. injection Hs as <-. now apply Hne.
Qed.

(** The lookup by extension reaches the properties the table inherits: for
    the file name [x.constructor] the result is not a string at all. *)
Example resolveMimeType_inherited_property :
  MimeType.resolveMimeType None (Some "x.constructor")
    {| MimeType.opt_dataUrlValue := None;
       MimeType.opt_defaultMimeType := None |}
  = MimeType.VInherited "constructor".
Proof. reflexivity. Qed.

(** C10 (amended): [resolveMimeType] returns, in this order of precedence,
    the declared mime type, trimmed, when it is syntactically valid and not
    [application/octet-stream]; otherwise the valid mime type of the data
    URL's header; otherwise the mime type of the file name's extension;
    otherwise the valid declared mime type (an octet stream); otherwise the
    configured default.  The result is a non-empty string when the
    configured default is not empty and the extension of the file name is
    not the name of a property that the table inherits. *)
Theorem resolveMimeType_precedence
    (mimeType fileName : option string) (options : MimeType.Options) :
  MimeType.defaultMimeType_of options <> "" ->
  (forall property,
     MimeType.inferMimeTypeFromFileName fileName
     <> Some (MimeType.VInherited property)) ->
  MimeType.non_empty_string
    (MimeType.resolveMimeType mimeType fileName options)
  /\ MimeType.resolveMimeType mimeType fileName options
     = let otherwise (last : string) :=
         match MimeType.extractMimeTypeFromDataUrl
                 (MimeType.opt_dataUrlValue options) with
         | Some fromDataUrl => MimeType.VStr fromDataUrl
         | None =>
             match MimeType.inferMimeTypeFromFileName fileName with
             | Some inferred => inferred
             | None => MimeType.VStr last
             end
         end in
       match MimeType.normalizeMimeType mimeType with
       | Some declared =>
           if MimeType.isOctetStreamMimeType (Some declared)
           then otherwise declared
           else MimeType.VStr declared
       | None => otherwise (MimeType.defaultMimeType_of options)
       end.
Proof.
  intros Hdefault Hown.
  assert (Heq : MimeType.resolveMimeType mimeType fileName options
     = let otherwise (last : string) :=
         match MimeType.extractMimeTypeFromDataUrl
                 (MimeType.opt_dataUrlValue options) with
         | Some fromDataUrl => MimeType.VStr fromDataUrl
         | None =>
             match MimeType.inferMimeTypeFromFileName fileName with
             | Some inferred => inferred
             | None => MimeType.VStr last
             end
         end in
       match MimeType.normalizeMimeType mimeType with
       | Some declared =>
           if MimeType.isOctetStreamMimeType (Some declared)
           then otherwise declared
           else MimeType.VStr declared
       | None => otherwise (MimeType.defaultMimeType_of options)
       end).
  { unfold MimeType.resolveMimeType. cbv zeta.
    destruct (MimeType.normalizeMimeType mimeType) as [declared|] eqn:En.
    - pose proof (normalizeMimeType_non_empty _ _ En) as Hd.
      cbn [truthy_str default]. rewrite Hd. cbn [negb andb].
      destruct (MimeType.isOctetStreamMimeType (Some declared));
        cbn [negb]; [|reflexivity].
      destruct (MimeType.extractMimeTypeFromDataUrl _) as [d|] eqn:Ed.
      + cbn [truthy_str default].
        now rewrite (extractMimeTypeFromDataUrl_non_empty _ _ Ed).
      + reflexivity.
    - cbn [truthy_str andb].
      destruct (MimeType.extractMimeTypeFromDataUrl _) as [d|] eqn:Ed.
      + cbn [truthy_str default].
        now rewrite (extractMimeTypeFromDataUrl_non_empty _ _ Ed).
      + reflexivity. }
  split; [|exact Heq].
  rewrite Heq. cbv zeta.
  assert (Hother : forall last, last <> "" ->
            MimeType.non_empty_string
              match MimeType.extractMimeTypeFromDataUrl
                      (MimeType.opt_dataUrlValue options) with
              | Some fromDataUrl => MimeType.VStr fromDataUrl
              | None =>
                  match MimeType.inferMimeTypeFromFileName fileName with
                  | Some inferred => inferred
                  | None => MimeType.VStr last
                  end
              end).
  { intros last Hlast.
    destruct (MimeType.extractMimeTypeFromDataUrl _) as [d|] eqn:Ed.
    - exists d. split; [reflexivity|].
      apply is_empty_false, (extractMimeTypeFromDataUrl_non_empty _ _ Ed).
    - destruct (MimeType.inferMimeTypeFromFileName fileName)
        as [[s|property]|] eqn:Ei.
      + exists s. split; [reflexivity|].
        apply is_empty_false, (inferMimeTypeFromFileName_non_empty _ _ Ei).
      + now destruct (Hown property).
      + now exists last. }
  destruct (MimeType.normalizeMimeType mimeType) as [declared|] eqn:En.
  - pose proof (is_empty_false _ (normalizeMimeType_non_empty _ _ En)) as Hd.
    destruct (MimeType.isOctetStreamMimeType (Some declared)).
    + now apply Hother.
    + now exists declared.
  - now apply Hother.
Qed.

Lemma resolveMimeType_precedence_witness :
  MimeType.non_empty_string
    (MimeType.resolveMimeType (Some "application/octet-stream")
       (Some "photos/cat.JPG")
       {| MimeType.opt_dataUrlValue := None;
          MimeType.opt_defaultMimeType := None |})
  /\ MimeType.resolveMimeType (Some "application/octet-stream")
       (Some "photos/cat.JPG")
       {| MimeType.opt_dataUrlValue := None;
          MimeType.opt_defaultMimeType := None |}
     = MimeType.VStr "image/jpeg".
Proof.
  apply (resolveMimeType_precedence (Some "application/octet-stream")
           (Some "photos/cat.JPG")
           {| MimeType.opt_dataUrlValue := None;
              MimeType.opt_defaultMimeType := None |});
    [discriminate | intros property; vm_compute; discriminate].
Defined.

(** ** The walk over the batch *)

Lemma normalizeFileName_rejects name e :
  normalizeFileName name = Err e -> exists message, e = invalid_request message.
Proof.
  unfold normalizeFileName. destruct name as [n|]; [|intros [= <-]; eauto].
  repeat match goal with
         | |- context [if ?b then _ else _] => destruct b
         end; intros [= <-]; eauto.
Qed.

Lemma normalizeContentBase64_rejects content e :
  normalizeContentBase64 content = Err e ->
  exists message, e = invalid_request message.
Proof.
  unfold normalizeContentBase64. destruct content as [c|];
    [|intros [= <-]; eauto].
  destruct (Str.is_empty (Str.trim c)); [intros [= <-]; eauto | discriminate].
Qed.

Lemma decodeBase64ToUint8Array_rejects base64Data e :
  decodeBase64ToUint8Array base64Data = Err e ->
  exists message, e = invalid_request message.
Proof.
  unfold decodeBase64ToUint8Array.
  destruct (Base64.atob base64Data); [discriminate | intros [= <-]; eauto].
Qed.

Lemma prepareFile_rejects ctx i st fileInput e :
  prepareFile ctx i st fileInput = Err e ->
  exists message, e = invalid_request message.
Proof.
  unfold prepareFile.
  destruct (normalizeFileName (fi_name fileInput)) as [fileName|e1] eqn:En;
    cbn [rbind]; [|intros [= <-]; eapply normalizeFileName_rejects, En].
  destruct (normalizeContentBase64 (fi_contentBase64 fileInput))
    as [base64Data|e2] eqn:Ec;
    cbn [rbind]; [|intros [= <-]; eapply normalizeContentBase64_rejects, Ec].
  repeat match goal with
         | |- context [if ?b then _ else _] =>
             destruct b; [intros [= <-]; eauto|]
         end.
  destruct (decodeBase64ToUint8Array base64Data) as [bytes|e3] eqn:Ed;
    cbn [rbind]; [discriminate|].
  intros [= <-]. eapply decodeBase64ToUint8Array_rejects, Ed.
Qed.

(** What a successful pass of the loop body has checked and done. *)
Lemma prepareFile_ok ctx i st fileInput st' :
  prepareFile ctx i st fileInput = OK st' ->
  exists fileName base64Data file,
    normalizeFileName (fi_name fileInput) = OK fileName
    /\ normalizeContentBase64 (fi_contentBase64 fileInput) = OK base64Data
    /\ 0 < estimateBase64Size base64Data
    /\ estimateBase64Size base64Data <= maxSingleFileSize (wc_limits ctx)
    /\ totalEstimatedBytes st + estimateBase64Size base64Data
       <= maxTotalSize (wc_limits ctx)
    /\ (fullId_of (wc_normalizedFolder ctx) fileName ∉ fullIdSet st)
    /\ totalEstimatedBytes st'
       = totalEstimatedBytes st + estimateBase64Size base64Data
    /\ fullIdSet st'
       = {[ fullId_of (wc_normalizedFolder ctx) fileName ]} ∪ fullIdSet st
    /\ preparedFiles st' = (preparedFiles st ++ [file])%list
    /\ pf_name file = fileName
    /\ pf_fullId file = fullId_of (wc_normalizedFolder ctx) fileName.
Proof.
  unfold prepareFile.
  destruct (normalizeFileName (fi_name fileInput)) as [fileName|] eqn:En;
    cbn [rbind]; [|discriminate].
  destruct (normalizeContentBase64 (fi_contentBase64 fileInput))
    as [base64Data|] eqn:Ec; cbn [rbind]; [|discriminate].
  destruct (estimateBase64Size base64Data <=? 0) eqn:E0; [discriminate|].
  destruct (maxSingleFileSize (wc_limits ctx) <? estimateBase64Size base64Data)
    eqn:E1; [discriminate|].
  destruct (maxTotalSize (wc_limits ctx)
            <? totalEstimatedBytes st + estimateBase64Size base64Data)
    eqn:E2; [discriminate|].
  destruct (Str.startsWith _ RESERVED_PREFIX) eqn:E3; [discriminate|].
  destruct (bool_decide _) eqn:E4; [discriminate|].
  destruct (decodeBase64ToUint8Array base64Data) as [bytes|] eqn:Ed;
    cbn [rbind]; [|discriminate].
  intros [= <-]. apply bool_decide_eq_false in E4.
  eexists fileName, base64Data, _.
  repeat split; try reflexivity; try lia; exact E4.
Qed.

(** A pass of the loop body on an entry that is in order, fits the budget
    and has a fresh target path. *)
Lemma prepareFile_accepts ctx i st fileInput size path :
  entry_ok ctx fileInput = true ->
  entry_size fileInput = Some size ->
  entry_path (wc_normalizedFolder ctx) fileInput = Some path ->
  totalEstimatedBytes st + size <= maxTotalSize (wc_limits ctx) ->
  path ∉ fullIdSet st ->
  exists st', prepareFile ctx i st fileInput = OK st'.
Proof.
  unfold entry_ok, entry_valid, path_reserved, entry_size, entry_path,
    prepareFile.
  destruct (normalizeFileName (fi_name fileInput)) as [fileName|];
    [|discriminate].
  destruct (normalizeContentBase64 (fi_contentBase64 fileInput))
    as [base64Data|]; [|discriminate].
  intros Hok [= <-] [= <-] Htotal Hfresh. cbn [rbind].
  apply andb_true_iff in Hok as [Hok Hres].
  apply andb_true_iff in Hok as [Hok Hdec].
  apply andb_true_iff in Hok as [Hpos Hmax].
  apply negb_true_iff in Hres.
  destruct (estimateBase64Size base64Data <=? 0) eqn:E0; [lia|].
  destruct (maxSingleFileSize (wc_limits ctx) <? estimateBase64Size base64Data)
    eqn:E1; [lia|].
  destruct (maxTotalSize (wc_limits ctx)
            <? totalEstimatedBytes st + estimateBase64Size base64Data)
    eqn:E2; [lia|].
  rewrite Hres, (bool_decide_eq_false_2 _ Hfresh).
  destruct (decodeBase64ToUint8Array base64Data); [|discriminate].
  cbn [rbind]. eauto.
Qed.

Lemma walk_rejects ctx files i st e :
  prepareFiles_from ctx i st files = Err e ->
  exists message, e = invalid_request message.
Proof.
  revert i st. induction files as [|f files IH]; intros i st; cbn;
    [discriminate|].
  destruct (prepareFile ctx i st f) as [st1|e1] eqn:E; cbn [rbind].
  - apply IH.
  - intros [= <-]. eapply prepareFile_rejects, E.
Qed.

Lemma walk_app ctx l1 l2 i st :
  prepareFiles_from ctx i st (l1 ++ l2)
  = let* st1 := prepareFiles_from ctx i st l1 in
    prepareFiles_from ctx (i + length l1) st1 l2.
Proof.
  revert i st. induction l1 as [|f l1 IH]; intros i st; cbn [app].
  - cbn. now rewrite Nat.add_0_r.
  - cbn [prepareFiles_from length].
    destruct (prepareFile ctx i st f) as [st1|]; cbn [rbind]; [|reflexivity].
    rewrite IH. now rewrite Nat.add_succ_r.
Qed.

Lemma prepareFile_entry ctx i st fileInput st' :
  prepareFile ctx i st fileInput = OK st' ->
  exists size path,
    entry_size fileInput = Some size
    /\ entry_path (wc_normalizedFolder ctx) fileInput = Some path
    /\ 0 < size /\ size <= maxSingleFileSize (wc_limits ctx)
    /\ totalEstimatedBytes st' = totalEstimatedBytes st + size
    /\ totalEstimatedBytes st' <= maxTotalSize (wc_limits ctx)
    /\ (path ∉ fullIdSet st)
    /\ fullIdSet st' = {[ path ]} ∪ fullIdSet st.
Proof.
  intros H. apply prepareFile_ok in H
    as (fileName & base64Data & file & Hn & Hc & H0 & H1 & H2 & H3 & H4 & H5
        & _).
  exists (estimateBase64Size base64Data),
         (fullId_of (wc_normalizedFolder ctx) fileName).
  unfold entry_size, entry_path. rewrite Hn, Hc.
  repeat split; try assumption; lia.
Qed.

Lemma total_size_cons f files :
  total_size (f :: files) = default 0 (entry_size f) + total_size files.
Proof. reflexivity. Qed.

(** The running total after a successful walk is the sum of the estimated
    sizes, every size is within the limit for one file, and the total is
    within the budget. *)
Lemma walk_sizes ctx files i st st' :
  prepareFiles_from ctx i st files = OK st' ->
  totalEstimatedBytes st' = totalEstimatedBytes st + total_size files
  /\ (files <> [] -> totalEstimatedBytes st' <= maxTotalSize (wc_limits ctx))
  /\ Forall (fun f => exists size,
               entry_size f = Some size
               /\ 0 < size /\ size <= maxSingleFileSize (wc_limits ctx))
            files.
Proof.
  revert i st. induction files as [|f files IH]; intros i st;
    cbn [prepareFiles_from].
  - intros [= <-]. repeat split; [cbn; lia | congruence | constructor].
  - destruct (prepareFile ctx i st f) as [st1|] eqn:E; cbn [rbind];
      [|discriminate].
    intros H. destruct (IH _ _ H) as (Ht & Hb & Hf).
    apply prepareFile_entry in E
      as (size & path & Hs & _ & H0 & H1 & H2 & H3 & _).
    rewrite total_size_cons, Hs. cbn [default from_option id]. repeat split.
    + lia.
    + intros _. destruct files as [|g files]; [|apply Hb; congruence].
      cbn in H. injection H as <-. exact H3.
    + constructor; [eauto | exact Hf].
Qed.

Lemma entry_paths_cons folder f files :
  entry_paths folder (f :: files)
  = match entry_path folder f with
    | Some path => path :: entry_paths folder files
    | None => entry_paths folder files
    end.
Proof. reflexivity. Qed.

(** The target paths met on a successful walk are pairwise distinct, and
    none was in the set the walk started from. *)
Lemma walk_paths ctx files i st st' :
  prepareFiles_from ctx i st files = OK st' ->
  NoDup (entry_paths (wc_normalizedFolder ctx) files)
  /\ (forall path, path ∈ entry_paths (wc_normalizedFolder ctx) files ->
                   path ∉ fullIdSet st)
  /\ (forall path, path ∈ fullIdSet st -> path ∈ fullIdSet st').
Proof.
  revert i st. induction files as [|f files IH]; intros i st;
    cbn [prepareFiles_from].
  - intros [= <-]. repeat split; [constructor | | trivial].
    intros path Hin. now apply elem_of_nil in Hin.
  - destruct (prepareFile ctx i st f) as [st1|] eqn:E; cbn [rbind];
      [|discriminate].
    intros H. destruct (IH _ _ H) as (Hnd & Hfresh & Hmono).
    apply prepareFile_entry in E
      as (size & path & _ & Hp & _ & _ & _ & _ & Hnew & Hset).
    rewrite entry_paths_cons, Hp.
    repeat split.
    + constructor; [|exact Hnd].
      intros Hin. apply (Hfresh _ Hin). rewrite Hset.
      apply elem_of_union. left. now apply elem_of_singleton.
    + intros q Hq. apply elem_of_cons in Hq as [->|Hq]; [exact Hnew|].
      intros Hin. apply (Hfresh _ Hq). rewrite Hset.
      apply elem_of_union. now right.
    + intros q Hq. apply Hmono. rewrite Hset.
      apply elem_of_union. now right.
Qed.

(** A walk over entries that are in order, with pairwise distinct fresh
    target paths and a sum within the budget, succeeds. *)
Lemma walk_accepts ctx files i st :
  forallb (entry_ok ctx) files = true ->
  NoDup (entry_paths (wc_normalizedFolder ctx) files) ->
  (forall path, path ∈ entry_paths (wc_normalizedFolder ctx) files ->
                path ∉ fullIdSet st) ->
  totalEstimatedBytes st + total_size files <= maxTotalSize (wc_limits ctx) ->
  exists st', prepareFiles_from ctx i st files = OK st'.
Proof.
  revert i st. induction files as [|f files IH]; intros i st;
    cbn [prepareFiles_from forallb].
  - eauto.
  - rewrite total_size_cons. intros Hok Hnd Hfresh Htotal.
    apply andb_true_iff in Hok as [Hf Hok].
    assert (Hf' := Hf). unfold entry_ok, entry_valid in Hf'.
    destruct (normalizeFileName (fi_name f)) as [fileName|] eqn:En;
      [|discriminate].
    destruct (normalizeContentBase64 (fi_contentBase64 f))
      as [base64Data|] eqn:Ec; [|discriminate].
    assert (Hs : entry_size f = Some (estimateBase64Size base64Data))
      by (unfold entry_size; now rewrite Ec).
    assert (Hp : entry_path (wc_normalizedFolder ctx) f
                 = Some (fullId_of (wc_normalizedFolder ctx) fileName))
      by (unfold entry_path; now rewrite En).
    rewrite entry_paths_cons, Hp in Hnd, Hfresh.
    apply NoDup_cons in Hnd as [Hnotin Hnd].
    rewrite Hs in Htotal. cbn [default from_option id] in Htotal.
    assert (Hrest : 0 <= total_size files).
    { clear - Hok. induction files as [|g files IH]; [cbn; lia|].
      rewrite total_size_cons.
      cbn in Hok. apply andb_true_iff in Hok as [Hg Hok].
      specialize (IH Hok). unfold entry_ok, entry_valid, entry_size in *.
      destruct (normalizeFileName (fi_name g)); [|discriminate].
      destruct (normalizeContentBase64 (fi_contentBase64 g));
        [|discriminate].
      cbn [default from_option id]. lia. }
    destruct (prepareFile_accepts ctx i st f _ _ Hf Hs Hp) as [st1 E].
    + lia.
    + apply Hfresh. left.
    + rewrite E. cbn [rbind].
      apply prepareFile_entry in E
        as (size & path & Hs' & Hp' & _ & _ & Ht & _ & _ & Hset).
      rewrite Hs in Hs'. injection Hs' as <-.
      rewrite Hp in Hp'. injection Hp' as <-.
      apply IH; [exact Hok | exact Hnd | | lia].
      intros q Hq. rewrite Hset. intros Hin.
      apply elem_of_union in Hin as [Hin|Hin].
      * apply elem_of_singleton in Hin. subst q. exact (Hnotin Hq).
      * apply (Hfresh q); [now right | exact Hin].
Qed.

(** The prepared files of a successful walk follow the entries, one for
    one and in order. *)
Lemma walk_prepared ctx files i st st' :
  prepareFiles_from ctx i st files = OK st' ->
  exists prepared,
    preparedFiles st' = (preparedFiles st ++ prepared)%list
    /\ Forall2 (fun f file =>
                  normalizeFileName (fi_name f) = OK (pf_name file)
                  /\ pf_fullId file
                     = fullId_of (wc_normalizedFolder ctx) (pf_name file))
               files prepared.
Proof.
  revert i st. induction files as [|f files IH]; intros i st; cbn.
  - intros [= <-]. exists []. split; [now rewrite app_nil_r | constructor].
  - destruct (prepareFile ctx i st f) as [st1|] eqn:E; cbn [rbind];
      [|discriminate].
    intros H. destruct (IH _ _ H) as (prepared & Hp & Hf).
    apply prepareFile_ok in E
      as (fileName & base64Data & file & Hn & _ & _ & _ & _ & _ & _ & _
          & Hfiles & Hname & Hid).
    exists (file :: prepared). split.
    + rewrite Hp, Hfiles, <- app_assoc. reflexivity.
    + constructor; [|exact Hf]. subst fileName. split; assumption.
Qed.

Lemma parseLimit_positive parsed fallback :
  0 < fallback -> 0 < parseLimit parsed fallback.
Proof.
  intros H. unfold parseLimit. destruct parsed as [n|]; [|exact H].
  destruct (0 <? n) eqn:E; [lia | exact H].
Qed.

Lemma limits_of_positive env :
  0 < maxFiles (limits_of env)
  /\ 0 < maxTotalSize (limits_of env)
  /\ 0 < maxSingleFileSize (limits_of env).
Proof. repeat split; now apply parseLimit_positive. Qed.

Lemma prepareFiles_cases ctx files :
  (exists st, prepareFiles_from ctx 0 walk_start files = OK st
              /\ prepareFiles ctx files = OK (preparedFiles st))
  \/ rejected (prepareFiles ctx files).
Proof.
  unfold prepareFiles, rejected.
  destruct (prepareFiles_from ctx 0 walk_start files) as [st|e] eqn:E;
    cbn [rbind]; [left; eauto|].
  right. destruct (walk_rejects _ _ _ _ _ E) as [message ->]. eauto.
Qed.

Lemma prepareFiles_ok_inv ctx files prepared :
  prepareFiles ctx files = OK prepared ->
  exists st, prepareFiles_from ctx 0 walk_start files = OK st
             /\ prepared = preparedFiles st.
Proof.
  unfold prepareFiles.
  destruct (prepareFiles_from ctx 0 walk_start files) as [st|e];
    cbn [rbind]; [|discriminate].
  intros [= <-]. eauto.
Qed.

Lemma rejected_not_ok {A} (r : result A) a : rejected r -> r <> OK a.
Proof. intros [message ->]. discriminate. Qed.

Lemma entry_size_nonneg f : 0 <= default 0 (entry_size f).
Proof.
  unfold entry_size, estimateBase64Size.
  destruct (normalizeContentBase64 (fi_contentBase64 f)) as [b|];
    cbn [default from_option id]; [|lia].
  destruct (Z.of_nat (String.length b) =? 0); lia.
Qed.

Lemma total_size_nonneg files : 0 <= total_size files.
Proof.
  induction files as [|f files IH]; [cbn; lia|].
  rewrite total_size_cons. pose proof (entry_size_nonneg f). lia.
Qed.

Lemma prepareFile_over_budget ctx i st f :
  prepareFile ctx i st f
  = Err (invalid_request
           ("Total files size exceeds limit ("
            ++ show_Z (maxTotalSize (wc_limits ctx)) ++ " bytes)")) ->
  exists size,
    entry_size f = Some size
    /\ maxTotalSize (wc_limits ctx) < totalEstimatedBytes st + size.
Proof.
  unfold prepareFile, entry_size.
  destruct (normalizeFileName (fi_name f)) as [fileName|e] eqn:Hname;
    cbn [rbind].
  2: { intros [= ->]. exfalso. revert Hname. unfold normalizeFileName.
       destruct (fi_name f) as [n|];
         repeat match goal with
                | |- context [if ?b then _ else _] => destruct b
                end; solve [intros [=]]. }
  destruct (normalizeContentBase64 (fi_contentBase64 f)) as [b|e] eqn:Hc;
    cbn [rbind].
  2: { intros [= ->]. exfalso. revert Hc. unfold normalizeContentBase64.
       destruct (fi_contentBase64 f) as [c|];
         repeat match goal with
                | |- context [if ?b then _ else _] => destruct b
                end; solve [intros [=]]. }
  destruct (estimateBase64Size b <=? 0); [solve [intros [=]]|].
  destruct (maxSingleFileSize (wc_limits ctx) <? estimateBase64Size b);
    [solve [intros [=]]|].
  destruct (maxTotalSize (wc_limits ctx)
            <? totalEstimatedBytes st + estimateBase64Size b) eqn:Hover.
  { intros _. exists (estimateBase64Size b). split; [reflexivity | lia]. }
  destruct (Str.startsWith _ RESERVED_PREFIX); [solve [intros [=]]|].
  destruct (bool_decide _); [solve [intros [=]]|].
  destruct (decodeBase64ToUint8Array b) as [bytes|e] eqn:Hd; cbn [rbind];
    [discriminate|].
  intros [= ->]. exfalso. revert Hd. unfold decodeBase64ToUint8Array.
  destruct (Base64.atob b); solve [intros [=]].
Qed.

(** A walk that ends with the message of the budget check has met a
    running sum over the budget. *)
Lemma walk_over_budget ctx files i st :
  prepareFiles_from ctx i st files
  = Err (invalid_request
           ("Total files size exceeds limit ("
            ++ show_Z (maxTotalSize (wc_limits ctx)) ++ " bytes)")) ->
  maxTotalSize (wc_limits ctx) < totalEstimatedBytes st + total_size files.
Proof.
  revert i st. induction files as [|f files IH]; intros i st;
    cbn [prepareFiles_from]; [discriminate|].
  rewrite total_size_cons.
  destruct (prepareFile ctx i st f) as [st1|e] eqn:E; cbn [rbind].
  - intros H. apply IH in H.
    apply prepareFile_entry in E as (size & path & Hs & _ & _ & _ & Ht & _).
    rewrite Hs. cbn [default from_option id]. lia.
  - intros [= ->]. apply prepareFile_over_budget in E as (size & Hs & Hover).
    rewrite Hs. cbn [default from_option id].
    pose proof (total_size_nonneg files). lia.
Qed.

(** C4: in the walk over the batch, for the limits read from the
    environment: an entry whose estimated size is 0 or above the limit for
    one file makes the walk end in [INVALID_REQUEST]; a batch in order
    whose sizes sum to at most the budget, and so one that sums to the
    budget exactly, is accepted, one that sums to more, and so to the
    budget plus one, ends in [INVALID_REQUEST]; the budget is checked
    entry by entry, so that the walk ends at the first entry that takes
    the running sum over the budget, whatever follows it; and no batch
    whose sizes sum to at most the budget is turned down by the budget
    check. *)
Theorem walk_budget (env : Env) (ctx : WalkCtx) :
  wc_limits ctx = limits_of env ->
  (forall files i fileInput size,
     files !! i = Some fileInput ->
     entry_size fileInput = Some size ->
     size = 0 \/ maxSingleFileSize (limits_of env) < size ->
     rejected (prepareFiles ctx files))
  /\ (forall files,
        forallb (entry_ok ctx) files = true ->
        NoDup (entry_paths (wc_normalizedFolder ctx) files) ->
        total_size files <= maxTotalSize (limits_of env) ->
        exists prepared,
          prepareFiles ctx files = OK prepared
          /\ length prepared = length files)
  /\ (forall files,
        maxTotalSize (limits_of env) < total_size files ->
        rejected (prepareFiles ctx files))
  /\ (forall before fileInput after prepared fileName size,
        prepareFiles ctx before = OK prepared ->
        normalizeFileName (fi_name fileInput) = OK fileName ->
        entry_size fileInput = Some size ->
        0 < size ->
        size <= maxSingleFileSize (limits_of env) ->
        maxTotalSize (limits_of env) < total_size before + size ->
        prepareFiles ctx (before ++ fileInput :: after)
        = Err (createApiError "INVALID_REQUEST"
                 ("Total files size exceeds limit ("
                  ++ show_Z (maxTotalSize (limits_of env)) ++ " bytes)")
                 400))
  /\ (forall files,
        total_size files <= maxTotalSize (limits_of env) ->
        prepareFiles ctx files
        <> Err (createApiError "INVALID_REQUEST"
                  ("Total files size exceeds limit ("
                   ++ show_Z (maxTotalSize (limits_of env)) ++ " bytes)")
                  400)).
Proof.
  intros Hlimits.
  destruct (limits_of_positive env) as (_ & Hpos & _).
  rewrite <- Hlimits in *.
  split; [|split; [|split; [|split]]].
  - intros files i f size Hi Hs Hbad.
    destruct (prepareFiles_cases ctx files) as [(st & Hwalk & _)|H];
      [|exact H].
    apply walk_sizes in Hwalk as (_ & _ & Hall).
    rewrite Forall_lookup in Hall.
    destruct (Hall i f Hi) as (size' & Hs' & H0 & H1).
    rewrite Hs in Hs'. injection Hs' as <-. lia.
  - intros files Hok Hnd Htotal.
    destruct (walk_accepts ctx files 0%nat walk_start Hok Hnd) as [st Hwalk].
    + intros path _. cbn. apply not_elem_of_empty.
    + cbn. lia.
    + exists (preparedFiles st). unfold prepareFiles. rewrite Hwalk.
      split; [reflexivity|].
      apply walk_prepared in Hwalk as (prepared & Hp & Hf).
      rewrite Hp. cbn. symmetry. exact (Forall2_length _ _ _ Hf).
  - intros files Htotal.
    destruct (prepareFiles_cases ctx files) as [(st & Hwalk & _)|H];
      [|exact H].
    apply walk_sizes in Hwalk as (Hsum & Hbound & _). cbn in Hsum.
    destruct files as [|f files]; [cbn in Htotal; lia|].
    specialize (Hbound ltac:(discriminate)). lia.
  - intros before f after prepared fileName size Hbefore Hname Hsize
      H0 H1 Hover.
    apply prepareFiles_ok_inv in Hbefore as (st & Hwalk & _).
    unfold prepareFiles. rewrite walk_app, Hwalk. cbn [rbind].
    cbn [prepareFiles_from].
    assert (Hst : totalEstimatedBytes st = total_size before).
    { apply walk_sizes in Hwalk as (Hsum & _). cbn in Hsum. lia. }
    unfold entry_size in Hsize.
    destruct (normalizeContentBase64 (fi_contentBase64 f))
      as [base64Data|] eqn:Ec; [|discriminate].
    injection Hsize as <-.
    unfold prepareFile. rewrite Hname, Ec. cbn [rbind].
    destruct (estimateBase64Size base64Data <=? 0) eqn:E0; [lia|].
    destruct (maxSingleFileSize (wc_limits ctx)
              <? estimateBase64Size base64Data) eqn:E1; [lia|].
    destruct (maxTotalSize (wc_limits ctx)
              <? totalEstimatedBytes st + estimateBase64Size base64Data)
      eqn:E2; [reflexivity | lia].
  - intros files Htotal Herr. unfold prepareFiles in Herr.
    destruct (prepareFiles_from ctx 0 walk_start files) as [st|e] eqn:Hwalk;
      cbn [rbind] in Herr; [discriminate|].
    injection Herr as ->. apply walk_over_budget in Hwalk.
    cbn in Hwalk. lia.
Qed.

Lemma walk_budget_witness :
  total_size demo_files = maxTotalSize (limits_of tight_env)
  /\ exists prepared,
       prepareFiles (demo_ctx tight_env) demo_files = OK prepared
       /\ length prepared = length demo_files.
Proof.
  split; [reflexivity|].
  apply (proj1 (proj2 (walk_budget tight_env (demo_ctx tight_env) eq_refl))).
  - reflexivity.
  - apply (bool_decide_unpack _). vm_compute. exact I.
  - vm_compute. discriminate.
Defined.

(** ** The steps of the handler *)

Lemma bind_next {A B} (m : M A) (k : A -> M B) db a db1 t1 :
  m db = (Next a, db1, t1) ->
  bind m k db
  = let '(step, db2, t2) := k a db1 in (step, db2, (t1 ++ t2)%list).
Proof. intros H. unfold bind. rewrite H. now destruct (k a db1) as [[? ?] ?]. Qed.

Lemma bind_return {A B} (m : M A) (k : A -> M B) db r db1 t1 :
  m db = (Return r, db1, t1) -> bind m k db = (Return r, db1, t1).
Proof. intros H. unfold bind. now rewrite H. Qed.

Lemma bind_throw {A B} (m : M A) (k : A -> M B) db e db1 t1 :
  m db = (Throw e, db1, t1) -> bind m k db = (Throw e, db1, t1).
Proof. intros H. unfold bind. now rewrite H. Qed.

Lemma bind_call_ok {A B} (a : A) (k : A -> M B) db :
  bind (call (OK a)) k db = k a db.
Proof. unfold bind, call. now destruct (k a db) as [[? ?] ?]. Qed.

Lemma bind_call_err {A B} e (k : A -> M B) db :
  bind (call (Err e)) k db = (Throw e, db, []).
Proof. reflexivity. Qed.

Lemma bind_quiet {A B} (m : M A) (k : A -> M B) db a :
  m db = (Next a, db, []) -> bind m k db = k a db.
Proof.
  intros H. rewrite (bind_next _ _ _ _ _ _ H).
  now destruct (k a db) as [[? ?] ?].
Qed.

Lemma commits_app t1 t2 : commits (t1 ++ t2) = (commits t1 + commits t2)%nat.
Proof. unfold commits. now rewrite List.filter_app, length_app. Qed.

Lemma toErrorResponse_is_failure e fallbackCode :
  is_failure (toErrorResponse e fallbackCode).
Proof.
  unfold toErrorResponse, is_failure.
  repeat match goal with
         | |- context [if ?b then _ else _] => destruct b
         end; reflexivity.
Qed.

(** The lookup in the ledger does what the state of the ledger says. *)
Lemma ledger_lookup_runs env idempotencyKey db :
  ledger_lookup env idempotencyKey db
  = match ledger_state env idempotencyKey db with
    | Miss => (Next tt, db, [])
    | Corrupt key => (Next tt, delete key db, [EvDbDelete key])
    | Hit payload =>
        (Return (jsonResponse (mark_idempotent payload) 200), db, [])
    end.
Proof.
  unfold ledger_lookup, ledger_state.
  destruct idempotencyKey as [key|]; [|reflexivity].
  unfold bind, db_get.
  destruct (db !! key) as [entry|]; cbn [fmap option_fmap option_map
    truthy_str]; [|reflexivity].
  destruct (Str.is_empty (db_value entry)) eqn:E; cbn [negb];
    [reflexivity|].
  cbn [default from_option id].
  destruct (JSON_parse env (db_value entry)) as [[| b | n | s | items | fields]|];
    cbn [truthy typeof_object negb orb]; try reflexivity.
  - destruct b; reflexivity.
  - destruct (negb (n =? 0)); reflexivity.
  - destruct (negb (Str.is_empty s)); reflexivity.
Qed.

Lemma resolve_channel_resolved env channelName hfChannel db :
  channel_resolved env channelName hfChannel ->
  resolve_channel env channelName db = (Next hfChannel, db, []).
Proof.
  intros (hfSettings & Hconfig & Hselect & Htoken & Hrepo).
  unfold resolve_channel. rewrite Hconfig, bind_call_ok, Hselect.
  destruct (hf_channels hfSettings) as [|first rest] eqn:Echannels.
  - unfold selectHuggingFaceChannel in Hselect. rewrite Echannels in Hselect.
    discriminate.
  - cbn [length Nat.eqb]. now rewrite Htoken, Hrepo.
Qed.

Lemma resolve_channel_runs env channelName db :
  exists step,
    resolve_channel env channelName db = (step, db, [])
    /\ match step with
       | Next hfChannel => channel_resolved env channelName hfChannel
       | Return r => fails_with "CHANNEL_NOT_FOUND" 400 r
       | Throw _ => True
       end.
Proof.
  unfold resolve_channel.
  destruct (fetchUploadConfig env) as [[hfSettings|]|e] eqn:Hconfig.
  - rewrite bind_call_ok.
    destruct (length (hf_channels hfSettings) =? 0)%nat eqn:Elen.
    + eexists. split; [reflexivity|]. repeat split.
    + destruct (selectHuggingFaceChannel hfSettings channelName
                  (Math_random env)) as [hfChannel|] eqn:Hselect.
      * destruct (truthy_str (ch_token hfChannel)) eqn:Htoken;
          [destruct (truthy_str (ch_repo hfChannel)) eqn:Hrepo|].
        -- eexists. split; [reflexivity|]. exists hfSettings. auto.
        -- eexists. split; [reflexivity|]. repeat split.
        -- eexists. split; [reflexivity|]. repeat split.
      * eexists. split; [reflexivity|]. repeat split.
  - rewrite bind_call_ok. eexists. split; [reflexivity|]. repeat split.
  - rewrite bind_call_err. eexists. split; [reflexivity|]. exact I.
Qed.

Lemma prepare_batch_reached env body files folder hfChannel uploadAddress db :
  channel_resolved env (body_channelName body) hfChannel ->
  getIPAddress env = OK uploadAddress ->
  prepare_batch env body files folder db
  = (match prepareFiles (walk_ctx env folder uploadAddress) files with
     | OK prepared => Next (hfChannel, prepared)
     | Err e => Throw e
     end, db, []).
Proof.
  intros Hch Hip. unfold prepare_batch.
  rewrite (bind_quiet _ _ _ _ (resolve_channel_resolved _ _ _ db Hch)).
  rewrite Hip, bind_call_ok.
  destruct (prepareFiles (walk_ctx env folder uploadAddress) files);
    [now rewrite bind_call_ok | now rewrite bind_call_err].
Qed.

Lemma prepare_batch_runs env body files folder db :
  exists step,
    prepare_batch env body files folder db = (step, db, [])
    /\ match step with
       | Next batch =>
           exists uploadAddress,
             channel_resolved env (body_channelName body) (fst batch)
             /\ getIPAddress env = OK uploadAddress
             /\ prepareFiles (walk_ctx env folder uploadAddress) files
                = OK (snd batch)
       | Return r => fails_with "CHANNEL_NOT_FOUND" 400 r
       | Throw e =>
           (exists hfChannel uploadAddress,
              channel_resolved env (body_channelName body) hfChannel
              /\ getIPAddress env = OK uploadAddress) ->
           exists message, e = invalid_request message
       end.
Proof.
  destruct (resolve_channel_runs env (body_channelName body) db)
    as (step & Hrun & Hstep).
  unfold prepare_batch. destruct step as [hfChannel|r|e].
  - rewrite (bind_quiet _ _ _ _ Hrun).
    destruct (getIPAddress env) as [uploadAddress|e] eqn:Hip.
    + rewrite bind_call_ok.
      destruct (prepareFiles (walk_ctx env folder uploadAddress) files)
        as [prepared|e] eqn:Hwalk.
      * rewrite bind_call_ok. eexists. split; [reflexivity|].
        exists uploadAddress. auto.
      * rewrite bind_call_err. eexists. split; [reflexivity|].
        intros _. destruct (prepareFiles_cases
          (walk_ctx env folder uploadAddress) files)
          as [(st & _ & Hok)|[message Hrej]]; [congruence|].
        exists message. congruence.
    + rewrite bind_call_err. eexists. split; [reflexivity|].
      intros (ch & addr & _ & Hip'). congruence.
  - rewrite (bind_return _ _ _ _ _ _ Hrun). eauto.
  - rewrite (bind_throw _ _ _ _ _ _ Hrun). eexists. split; [reflexivity|].
    intros (ch & addr & Hch & _).
    rewrite (resolve_channel_resolved _ _ _ db Hch) in Hrun. discriminate.
Qed.

Lemma moderate_file_runs env req hfChannel file metadata db :
  exists labelled db' t,
    moderate_file env req hfChannel file metadata db
    = (Next labelled, db', t)
    /\ commits t = 0%nat.
Proof.
  unfold moderate_file, bind, emit.
  destruct (moderateContent env _) as [label|];
    cbn; do 3 eexists; split; reflexivity.
Qed.

Lemma record_file_runs env req hfChannel moderateEnabled file db :
  exists db' t,
    record_file env req hfChannel moderateEnabled file db
    = (Next (response_file file), db', t)
    /\ commits t = 0%nat.
Proof.
  unfold record_file.
  rewrite (bind_next _ _ db tt _ _ eq_refl).
  destruct moderateEnabled.
  - destruct (moderate_file_runs env req hfChannel file
                (committed_metadata env hfChannel file)
                (<[pf_fullId file :=
                     {| db_value := "";
                        db_metadata :=
                          Some (committed_metadata env hfChannel file) |}]>
                   db))
      as (labelled & db' & t & Hrun & Ht).
    rewrite (bind_next _ _ _ _ _ _ Hrun).
    unfold bind, emit, ret.
    do 2 eexists. split; [reflexivity|].
    rewrite !commits_app, Ht. reflexivity.
  - unfold bind, emit, ret. do 2 eexists. split; reflexivity.
Qed.

Lemma record_files_runs env req hfChannel moderateEnabled prepared db :
  exists db' t,
    record_files env req hfChannel moderateEnabled prepared db
    = (Next (map response_file prepared), db', t)
    /\ commits t = 0%nat.
Proof.
  revert db. induction prepared as [|file prepared IH]; intros db.
  - do 2 eexists. split; reflexivity.
  - cbn [record_files map].
    destruct (record_file_runs env req hfChannel moderateEnabled file db)
      as (db1 & t1 & Hrun1 & Ht1).
    destruct (IH db1) as (db2 & t2 & Hrun2 & Ht2).
    rewrite (bind_next _ _ _ _ _ _ Hrun1).
    rewrite (bind_next _ _ _ _ _ _ Hrun2).
    unfold ret. do 2 eexists. split; [reflexivity|].
    rewrite !commits_app, Ht1, Ht2. reflexivity.
Qed.

(** From the submission on: the transaction is submitted exactly once, and
    a run that comes to its end answers with the list of all the prepared
    files. *)
Lemma commit_batch_runs env req body idempotencyKey hfChannel prepared db :
  exists step db' t,
    commit_batch env req body idempotencyKey hfChannel prepared db
    = (step, db',
       EvCommit hfChannel (map commit_file prepared)
                (commitSummary_of (body_commitMessage body) (length prepared))
       :: t)
    /\ commits t = 0%nat
    /\ match step with
       | Next r =>
           exists uploadResult,
             r = jsonResponse
                   (success_payload (body_requestId body) hfChannel
                      uploadResult (map response_file prepared))
                   200
       | Return _ => False
       | Throw _ => True
       end.
Proof.
  unfold commit_batch, submit.
  set (summary := commitSummary_of (body_commitMessage body)
                                   (length prepared)).
  set (ev := EvCommit hfChannel (map commit_file prepared) summary).
  destruct (uploadFilesInSingleCommit env hfChannel
              (map commit_file prepared) summary) as [uploadResult|e] eqn:Hup.
  - rewrite (bind_next _ _ db uploadResult db [ev]); [|reflexivity].
    destruct (fetchSecurityConfig env) as [moderateEnabled|e] eqn:Hsec.
    + rewrite bind_call_ok.
      destruct (record_files_runs env req hfChannel moderateEnabled
                  prepared db) as (db1 & t1 & Hrun & Ht1).
      rewrite (bind_next _ _ _ _ _ _ Hrun).
      destruct idempotencyKey as [key|].
      * unfold bind, db_put, ret.
        do 3 eexists. split; [reflexivity|]. split; [|eauto].
        rewrite !commits_app, Ht1. reflexivity.
      * unfold bind, ret.
        do 3 eexists. split; [reflexivity|]. split; [|eauto].
        rewrite !commits_app, Ht1. reflexivity.
    + rewrite bind_call_err.
      do 3 eexists. split; [reflexivity|]. split; [reflexivity | exact I].
  - rewrite (bind_throw _ _ db e db [ev]); [|reflexivity].
    do 3 eexists. split; [reflexivity|]. split; [reflexivity | exact I].
Qed.

(** The checks that precede the lookup: either they pass, and the handler
    goes on with the lookup, the preparation and the commit, or the request
    ends with a failure, nothing written and nothing submitted. *)
Lemma handle_front env req db :
  (exists body files folder,
     passes_checks env req body files folder
     /\ handle env req db
        = bind (ledger_lookup env (idempotencyKey_of (body_requestId body)))
               (fun _ =>
                  bind (prepare_batch env body files folder)
                       (fun batch =>
                          commit_batch env req body
                            (idempotencyKey_of (body_requestId body))
                            (fst batch) (snd batch))) db)
  \/ (exists step, handle env req db = (step, db, []) /\ ends_early step).
Proof.
  unfold handle.
  destruct (userAuthCheck env) as [[|]|e] eqn:Hauth.
  2: { right. rewrite bind_call_ok. eexists. split; reflexivity. }
  2: { right. rewrite bind_call_err. eexists. split; [reflexivity | exact I]. }
  rewrite bind_call_ok. cbn [negb].
  destruct (req_json req) as [body|] eqn:Hbody;
    [|right; eexists; split; reflexivity].
  destruct (body_files body) as [[|f files]|] eqn:Hfiles;
    [right; eexists; split; reflexivity | |
     right; eexists; split; reflexivity].
  destruct (maxFiles (limits_of env) <? Z.of_nat (length (f :: files)))
    eqn:Hcount; [right; eexists; split; reflexivity|].
  destruct (requestId_ok (body_requestId body)) eqn:Hrid; cbn [negb];
    [|right; eexists; split; reflexivity].
  destruct (normalizeUploadFolder (body_uploadFolder body))
    as [folder|e] eqn:Hfolder.
  - left. exists body, (f :: files), folder. split.
    + constructor; try assumption; [discriminate | lia].
    + now rewrite bind_call_ok.
  - right. rewrite bind_call_err. eexists. split; [reflexivity | exact I].
Qed.

Lemma handle_passes env req body files folder db :
  passes_checks env req body files folder ->
  handle env req db
  = bind (ledger_lookup env (idempotencyKey_of (body_requestId body)))
         (fun _ =>
            bind (prepare_batch env body files folder)
                 (fun batch =>
                    commit_batch env req body
                      (idempotencyKey_of (body_requestId body))
                      (fst batch) (snd batch))) db.
Proof.
  intros [Hauth Hbody Hfiles Hne Hcount Hrid Hfolder].
  unfold handle. rewrite Hauth, bind_call_ok. cbn [negb].
  rewrite Hbody, Hfiles. destruct files as [|f files]; [congruence|].
  destruct (maxFiles (limits_of env) <? Z.of_nat (length (f :: files)))
    eqn:E; [lia|].
  rewrite Hrid. cbn [negb]. now rewrite Hfolder, bind_call_ok.
Qed.

(** ** Reserved paths *)

Lemma prefix_slash_free p seg rest :
  Str.includes p "/" = false ->
  String.prefix p (seg ++ String "/" rest) = true ->
  String.prefix p seg = true.
Proof.
  revert seg. induction p as [|a p IH]; intros seg Hfree.
  - intros _. now destruct seg.
  - cbn [Str.includes] in Hfree. apply orb_false_iff in Hfree as [Ha Hp].
    destruct seg as [|b seg].
    + rewrite append_nil_l. cbn [String.prefix].
      destruct (ascii_dec a "/") as [->|]; [discriminate | discriminate].
    + rewrite append_cons. cbn [String.prefix].
      destruct (ascii_dec a b); [now apply IH | discriminate].
Qed.

Lemma split_first s :
  exists seg rest,
    Str.split "/" s = seg :: rest
    /\ (s = seg \/ exists t, s = (seg ++ String "/" t)%string).
Proof.
  induction s as [|c r (seg & rest & Hsplit & Hs)].
  - exists "", []. split; [reflexivity | now left].
  - cbn [Str.split]. destruct (Ascii.eqb c "/") eqn:E.
    + apply Ascii.eqb_eq in E. subst c.
      exists "", (Str.split "/" r). split; [reflexivity|].
      right. now exists r.
    + rewrite Hsplit. exists (String c seg), rest. split; [reflexivity|].
      destruct Hs as [->|(t & ->)]; [now left|].
      right. now exists t.
Qed.

Lemma append_assoc_string (a b c : string) :
  ((a ++ b) ++ c = a ++ (b ++ c))%string.
Proof.
  induction a as [|x a IH]; [reflexivity|].
  now rewrite !append_cons, IH.
Qed.

Lemma folder_not_reserved uploadFolder folder rest :
  normalizeUploadFolder uploadFolder = OK folder ->
  Str.is_empty folder = false ->
  Str.startsWith (folder ++ "/" ++ rest) RESERVED_PREFIX = false.
Proof.
  unfold normalizeUploadFolder. destruct uploadFolder as [s|];
    [|intros [= <-]; discriminate].
  destruct (Str.is_empty (strip_slashes (Str.trim s)));
    [intros [= <-]; discriminate|].
  destruct (check_segments (Str.split "/" (strip_slashes (Str.trim s))))
    eqn:Hsegments; cbn [rbind]; [|discriminate].
  intros [= <-] _. revert Hsegments.
  generalize (strip_slashes (Str.trim s)) as normalized. intros normalized.
  destruct (split_first normalized) as (seg & others & -> & Hform).
  cbn [check_segments].
  destruct (Str.is_empty seg || String.eqb seg "." || String.eqb seg "..");
    [discriminate|].
  destruct (Str.startsWith seg RESERVED_PREFIX) eqn:Hseg; [discriminate|].
  intros _.
  destruct (Str.startsWith (normalized ++ "/" ++ rest) RESERVED_PREFIX)
    eqn:Hfull; [|reflexivity].
  unfold Str.startsWith in *. rewrite <- Hseg.
  destruct Hform as [->|(t & ->)].
  - symmetry. eapply prefix_slash_free; [reflexivity | exact Hfull].
  - rewrite append_assoc_string in Hfull.
    symmetry. eapply prefix_slash_free; [reflexivity | exact Hfull].
Qed.

Lemma fileName_not_reserved name fileName :
  normalizeFileName name = OK fileName ->
  Str.startsWith fileName RESERVED_PREFIX = false.
Proof.
  unfold normalizeFileName. destruct name as [n|]; [|discriminate].
  repeat match goal with
         | |- context [if ?b then _ else _] =>
             destruct b eqn:?; [discriminate|]
         end.
  now intros [= <-].
Qed.

(** A target path built from a normalized folder and a normalized name is
    never reserved. *)
Lemma path_not_reserved uploadFolder folder fileInput :
  normalizeUploadFolder uploadFolder = OK folder ->
  path_reserved folder fileInput = false.
Proof.
  intros Hfolder. unfold path_reserved, entry_path.
  destruct (normalizeFileName (fi_name fileInput)) as [fileName|] eqn:Hname;
    [|reflexivity].
  unfold fullId_of. destruct (Str.is_empty folder) eqn:Hempty.
  - exact (fileName_not_reserved _ _ Hname).
  - exact (folder_not_reserved _ _ _ Hfolder Hempty).
Qed.

(** ** Replay from the ledger *)

Lemma json_assoc_set_field_eq name v fields :
  json_assoc name (set_field name v fields) = Some v.
Proof.
  induction fields as [|[k w] fields IH]; cbn [set_field json_assoc].
  - now rewrite String.eqb_refl.
  - destruct (String.eqb k name) eqn:E; cbn [json_assoc]; now rewrite E.
Qed.

Lemma json_assoc_set_field_ne name other v fields :
  other <> name ->
  json_assoc other (set_field name v fields) = json_assoc other fields.
Proof.
  intros Hne. induction fields as [|[k w] fields IH];
    cbn [set_field json_assoc].
  - destruct (String.eqb name other) eqn:E; [|reflexivity].
    apply String.eqb_eq in E. congruence.
  - destruct (String.eqb k name) eqn:E; cbn [json_assoc].
    + apply String.eqb_eq in E. subst k.
      destruct (String.eqb name other) eqn:E'; [|reflexivity].
      apply String.eqb_eq in E'. congruence.
    + now rewrite IH.
Qed.

Lemma requestId_ok_non_empty rid :
  requestId_ok (RidString rid) = true -> Str.is_empty rid = false.
Proof. destruct rid; [discriminate | reflexivity]. Qed.

Lemma is_empty_false_iff s : Str.is_empty s = false <-> s <> "".
Proof. destruct s; cbn; split; intros H; congruence. Qed.

(** C2 (as stated, refuted): a request that carries a request identifier
    whose ledger entry exists and parses as a JSON object is not always
    answered with the stored object.  The ledger is consulted after the
    checks at the front of the handler: the identifier of the first run,
    sent again with an empty list of files, is answered 400
    [INVALID_REQUEST], and the stored response is not returned. *)
Lemma replay_stopped_at_front :
  let req := demo_request [] (RidString "batch-001") in
  let out := onRequestPost replay_env req (out_db first_run) in
  (exists entry fields,
     out_db first_run !! "manage@hf_batch_request@batch-001" = Some entry
     /\ JSON_parse replay_env (db_value entry) = Some (JObj fields))
  /\ fails_with "INVALID_REQUEST" 400 (out_response out)
  /\ json_field "idempotent" (resp_body (out_response out)) = None
  /\ json_field "files" (resp_body (out_response out)) = None
  /\ commits (out_trace out) = 0%nat.
Proof.
  split.
  - do 2 eexists. split; vm_compute; reflexivity.
  - vm_compute. repeat split.
Qed.

(** C2 (amended): a request that passes the checks preceding the lookup
    (the caller is authorised, the body is JSON, [files] is an array of 1
    to [maxFiles] entries, the request identifier is well formed, the
    folder passes normalization) and carries a request identifier whose
    ledger entry exists and parses as a JSON object is answered with the
    stored object, in which the field [idempotent] is set to [true] and
    every other field is as stored, with status 200; the transaction is
    not submitted, nothing is written.  (A value that parses is not the
    empty text.) *)
Theorem replay_returns_stored_response
    (env : Env) (req : Request) (db : gmap string DbEntry)
    (body : Body) (files : list FileInput) (folder rid : string)
    (entry : DbEntry) (fields : list (string * json)) :
  passes_checks env req body files folder ->
  body_requestId body = RidString rid ->
  db !! ("manage@hf_batch_request@" ++ rid) = Some entry ->
  JSON_parse env (db_value entry) = Some (JObj fields) ->
  db_value entry <> "" ->
  let out := onRequestPost env req db in
  out_response out
  = jsonResponse (JObj (set_field "idempotent" (JBool true) fields)) 200
  /\ json_field "idempotent" (resp_body (out_response out))
     = Some (JBool true)
  /\ (forall name, name <> "idempotent" ->
        json_field name (resp_body (out_response out))
        = json_assoc name fields)
  /\ resp_status (out_response out) = 200
  /\ commits (out_trace out) = 0%nat
  /\ out_trace out = []
  /\ out_db out = db.
Proof.
  intros Hchecks Hrid Hentry Hparse Hvalue.
  assert (Hhandle : handle env req db
            = (Return (jsonResponse
                         (JObj (set_field "idempotent" (JBool true) fields))
                         200), db, [])).
  { rewrite (handle_passes _ _ _ _ _ _ Hchecks).
    apply bind_return. rewrite ledger_lookup_runs.
    unfold ledger_state, idempotencyKey_of. rewrite Hrid.
    pose proof (pc_requestId _ _ _ _ _ Hchecks) as Hok. rewrite Hrid in Hok.
    rewrite (requestId_ok_non_empty _ Hok), Hentry.
    apply is_empty_false_iff in Hvalue. rewrite Hvalue, Hparse.
    reflexivity. }
  unfold onRequestPost. rewrite Hhandle. cbn [out_response out_trace out_db].
  repeat split.
  - apply json_assoc_set_field_eq.
  - intros name Hname. now apply json_assoc_set_field_ne.
Qed.

Lemma replay_returns_stored_response_witness :
  let out :=
    onRequestPost replay_env (demo_request demo_files (RidString "batch-001"))
                  (out_db first_run) in
  json_field "idempotent" (resp_body (out_response out)) = Some (JBool true)
  /\ json_field "commitId" (resp_body (out_response out))
     = json_field "commitId" stored_response
  /\ json_field "files" (resp_body (out_response out))
     = json_field "files" stored_response
  /\ resp_status (out_response out) = 200
  /\ commits (out_trace out) = 0%nat.
Proof.
  assert (Hfields : exists fields, stored_response = JObj fields)
    by (eexists; vm_compute; reflexivity).
  destruct Hfields as [fields Hfields].
  destruct (replay_returns_stored_response replay_env
              (demo_request demo_files (RidString "batch-001"))
              (out_db first_run)
              (demo_body demo_files (RidString "batch-001"))
              demo_files "demo" "batch-001"
              {| db_value := stringify stored_response;
                 db_metadata := None |}
              fields)
    as (_ & Hflag & Hothers & Hstatus & Hcommits & _).
  - constructor; try reflexivity; [discriminate | vm_compute; discriminate].
  - reflexivity.
  - vm_compute. reflexivity.
  - cbn [db_value JSON_parse replay_env with_JSON_parse].
    rewrite String.eqb_refl. exact (f_equal Some Hfields).
  - vm_compute. discriminate.
  - cbv zeta. rewrite Hfields. cbn [json_field].
    repeat split; try assumption; apply Hothers; discriminate.
Defined.

(** ** Corrupt entries of the ledger *)

(** C8 (as stated, refuted): a stored value that fails to parse is not
    always deleted.  The empty text does not parse, and the handler treats
    it as a miss without deleting the entry: on the sample run over
    [stale_db] no [db.delete] is made. *)
Lemma empty_ledger_value_not_deleted :
  let key := "manage@hf_batch_request@batch-001" in
  let out :=
    onRequestPost demo_env (demo_request demo_files (RidString "batch-001"))
                  stale_db in
  db_value <$> stale_db !! key = Some ""
  /\ JSON_parse demo_env "" = None
  /\ deletes key (out_trace out) = false.
Proof. vm_compute. repeat split. Qed.

Lemma ledger_state_corrupt env rid db entry :
  Str.is_empty rid = false ->
  db !! ("manage@hf_batch_request@" ++ rid) = Some entry ->
  db_value entry <> "" ->
  not_a_response (JSON_parse env (db_value entry)) = true ->
  ledger_state env (idempotencyKey_of (RidString rid)) db
  = Corrupt ("manage@hf_batch_request@" ++ rid).
Proof.
  intros Hrid Hentry Hvalue Hparse.
  unfold ledger_state, idempotencyKey_of. rewrite Hrid, Hentry.
  apply is_empty_false_iff in Hvalue. rewrite Hvalue.
  destruct (JSON_parse env (db_value entry)) as [[| | | | |]|];
    try reflexivity; discriminate.
Qed.

Lemma ledger_state_deleted env rid db :
  Str.is_empty rid = false ->
  ledger_state env (idempotencyKey_of (RidString rid))
               (delete ("manage@hf_batch_request@" ++ rid) db)
  = Miss.
Proof.
  intros Hrid. unfold ledger_state, idempotencyKey_of.
  now rewrite Hrid, lookup_delete_eq.
Qed.

(** C8 (amended): when the stored value is not empty and either fails to
    parse or parses to [null], a boolean, a number or a string, the entry
    is deleted from the store and the request goes on exactly as if the
    lookup had missed: the response and the final store are those of the
    run on the store without the entry, and the calls made are the deletion
    followed by the calls of that run. *)
Theorem corrupt_entry_deleted
    (env : Env) (req : Request) (db : gmap string DbEntry)
    (body : Body) (files : list FileInput) (folder rid : string)
    (entry : DbEntry) :
  passes_checks env req body files folder ->
  body_requestId body = RidString rid ->
  db !! ("manage@hf_batch_request@" ++ rid) = Some entry ->
  db_value entry <> "" ->
  not_a_response (JSON_parse env (db_value entry)) = true ->
  let key := "manage@hf_batch_request@" ++ rid in
  let out := onRequestPost env req db in
  let missed := onRequestPost env req (delete key db) in
  out_response out = out_response missed
  /\ out_db out = out_db missed
  /\ out_trace out = EvDbDelete key :: out_trace missed.
Proof.
  intros Hchecks Hrid Hentry Hvalue Hparse. cbv zeta.
  pose proof (pc_requestId _ _ _ _ _ Hchecks) as Hok. rewrite Hrid in Hok.
  apply requestId_ok_non_empty in Hok.
  unfold onRequestPost.
  rewrite !(handle_passes _ _ _ _ _ _ Hchecks), Hrid.
  rewrite (bind_next _ _ db tt
             (delete ("manage@hf_batch_request@" ++ rid) db)
             [EvDbDelete ("manage@hf_batch_request@" ++ rid)]).
  2: { rewrite ledger_lookup_runs.
       now rewrite (ledger_state_corrupt _ _ _ _ Hok Hentry Hvalue Hparse). }
  rewrite (bind_quiet _ _ (delete ("manage@hf_batch_request@" ++ rid) db) tt).
  2: { rewrite ledger_lookup_runs. now rewrite ledger_state_deleted. }
  destruct (bind (prepare_batch env body files folder) _ _)
    as [[step db'] trace].
  repeat split.
Qed.

Lemma corrupt_entry_deleted_witness :
  let key := "manage@hf_batch_request@batch-001" in
  let db : gmap string DbEntry :=
    {[ key := {| db_value := "{"; db_metadata := None |} ]} in
  let req := demo_request demo_files (RidString "batch-001") in
  out_response (onRequestPost demo_env req db)
  = out_response (onRequestPost demo_env req (delete key db))
  /\ out_db (onRequestPost demo_env req db)
     = out_db (onRequestPost demo_env req (delete key db))
  /\ out_trace (onRequestPost demo_env req db)
     = EvDbDelete key :: out_trace (onRequestPost demo_env req (delete key db)).
Proof.
  cbv zeta.
  apply (corrupt_entry_deleted demo_env
           (demo_request demo_files (RidString "batch-001"))
           {[ "manage@hf_batch_request@batch-001"
              := {| db_value := "{"; db_metadata := None |} ]}
           (demo_body demo_files (RidString "batch-001"))
           demo_files "demo" "batch-001"
           {| db_value := "{"; db_metadata := None |}).
  - constructor; try reflexivity; [discriminate | vm_compute; discriminate].
  - reflexivity.
  - vm_compute. reflexivity.
  - discriminate.
  - reflexivity.
Defined.

(** ** The run of a request that is not answered from the ledger *)

(** From the channel on, a run either ends before the transaction, with
    nothing written and nothing submitted, or submits the transaction once
    for all the prepared files. *)
Lemma batch_runs env req body files folder idempotencyKey db :
  exists step db' t,
    bind (prepare_batch env body files folder)
         (fun batch =>
            commit_batch env req body idempotencyKey (fst batch) (snd batch))
         db
    = (step, db', t)
    /\ ((t = [] /\ db' = db
         /\ match step with
            | Next _ => False
            | Return r => fails_with "CHANNEL_NOT_FOUND" 400 r
            | Throw e =>
                (exists hfChannel uploadAddress,
                   channel_resolved env (body_channelName body) hfChannel
                   /\ getIPAddress env = OK uploadAddress) ->
                exists message, e = invalid_request message
            end)
        \/ (exists hfChannel uploadAddress prepared t',
              channel_resolved env (body_channelName body) hfChannel
              /\ getIPAddress env = OK uploadAddress
              /\ prepareFiles (walk_ctx env folder uploadAddress) files
                 = OK prepared
              /\ t = EvCommit hfChannel (map commit_file prepared)
                       (commitSummary_of (body_commitMessage body)
                                         (length prepared))
                     :: t'
              /\ commits t' = 0%nat
              /\ match step with
                 | Next r =>
                     exists uploadResult,
                       r = jsonResponse
                             (success_payload (body_requestId body) hfChannel
                                uploadResult (map response_file prepared))
                             200
                 | Return _ => False
                 | Throw _ => True
                 end)).
Proof.
  destruct (prepare_batch_runs env body files folder db)
    as (step & Hrun & Hstep).
  destruct step as [[hfChannel prepared]|r|e].
  - destruct Hstep as (uploadAddress & Hch & Hip & Hwalk).
    cbn [fst snd] in Hch, Hwalk.
    rewrite (bind_quiet _ _ _ _ Hrun). cbn [fst snd].
    destruct (commit_batch_runs env req body idempotencyKey hfChannel
                prepared db) as (step & db' & t & Hcommit & Ht & Hend).
    do 3 eexists. split; [exact Hcommit|].
    right. exists hfChannel, uploadAddress, prepared, t. auto 10.
  - rewrite (bind_return _ _ _ _ _ _ Hrun).
    do 3 eexists. split; [reflexivity|]. left. auto.
  - rewrite (bind_throw _ _ _ _ _ _ Hrun).
    do 3 eexists. split; [reflexivity|]. left. auto.
Qed.

(** After the checks, a request that the ledger does not answer goes on
    from the channel, on the store the lookup leaves. *)
Lemma handle_not_replayed env req db body files folder :
  passes_checks env req body files folder ->
  (forall payload,
     ledger_state env (idempotencyKey_of (body_requestId body)) db
     <> Hit payload) ->
  exists db0 t0,
    commits t0 = 0%nat
    /\ forall step db' t,
         bind (prepare_batch env body files folder)
              (fun batch =>
                 commit_batch env req body
                   (idempotencyKey_of (body_requestId body))
                   (fst batch) (snd batch)) db0
         = (step, db', t) ->
         handle env req db = (step, db', (t0 ++ t)%list).
Proof.
  intros Hchecks Hmiss. rewrite (handle_passes _ _ _ _ _ _ Hchecks).
  pose proof (ledger_lookup_runs env
                (idempotencyKey_of (body_requestId body)) db) as Hlookup.
  destruct (ledger_state env (idempotencyKey_of (body_requestId body)) db)
    as [|key|payload].
  - exists db, []. split; [reflexivity|]. intros step db' t Hrest.
    now rewrite (bind_next _ _ _ _ _ _ Hlookup), Hrest.
  - exists (delete key db), [EvDbDelete key]. split; [reflexivity|].
    intros step db' t Hrest.
    now rewrite (bind_next _ _ _ _ _ _ Hlookup), Hrest.
  - now destruct (Hmiss payload).
Qed.

Lemma toErrorResponse_rejected message fallbackCode :
  fails_with "INVALID_REQUEST" 400
             (toErrorResponse (invalid_request message) fallbackCode).
Proof. repeat split. Qed.

(** ** Duplicate target paths *)

Lemma elem_of_entry_paths folder files i f path :
  files !! i = Some f ->
  entry_path folder f = Some path ->
  path ∈ entry_paths folder files.
Proof.
  intros Hi Hp. unfold entry_paths. apply list_elem_of_omap.
  exists f. split; [|exact Hp]. eapply list_elem_of_lookup_2, Hi.
Qed.

Lemma walk_distinct ctx files k st st' i j fi fj path :
  prepareFiles_from ctx k st files = OK st' ->
  files !! i = Some fi ->
  files !! j = Some fj ->
  entry_path (wc_normalizedFolder ctx) fi = Some path ->
  entry_path (wc_normalizedFolder ctx) fj = Some path ->
  i = j.
Proof.
  revert k st i j. induction files as [|f files IH]; intros k st i j;
    cbn [prepareFiles_from]; [intros _ Hi; discriminate Hi|].
  destruct (prepareFile ctx k st f) as [st1|] eqn:E; cbn [rbind];
    [|discriminate].
  intros Hwalk Hi Hj Hpi Hpj.
  apply prepareFile_entry in E
    as (size & path0 & _ & Hp0 & _ & _ & _ & _ & _ & Hset).
  destruct (walk_paths _ _ _ _ _ Hwalk) as (_ & Hfresh & _).
  assert (Hclash : forall n g, files !! n = Some g ->
            entry_path (wc_normalizedFolder ctx) g = Some path0 -> False).
  { intros n g Hn Hg.
    apply (Hfresh path0 (elem_of_entry_paths _ _ _ _ _ Hn Hg)).
    rewrite Hset. apply elem_of_union. left. now apply elem_of_singleton. }
  destruct i as [|i], j as [|j]; cbn in Hi, Hj.
  - reflexivity.
  - injection Hi as <-. rewrite Hp0 in Hpi. injection Hpi as <-.
    destruct (Hclash _ _ Hj Hpj).
  - injection Hj as <-. rewrite Hp0 in Hpj. injection Hpj as <-.
    destruct (Hclash _ _ Hi Hpi).
  - f_equal. exact (IH _ _ _ _ Hwalk Hi Hj Hpi Hpj).
Qed.

(** Two entries with the same target path end the walk in
    [INVALID_REQUEST]. *)
Lemma duplicates_rejected ctx files i j fi fj path :
  i <> j ->
  files !! i = Some fi ->
  files !! j = Some fj ->
  entry_path (wc_normalizedFolder ctx) fi = Some path ->
  entry_path (wc_normalizedFolder ctx) fj = Some path ->
  rejected (prepareFiles ctx files).
Proof.
  intros Hne Hi Hj Hpi Hpj.
  destruct (prepareFiles_cases ctx files) as [(st & Hwalk & _)|H];
    [|exact H].
  destruct (Hne (walk_distinct _ _ _ _ _ _ _ _ _ _ Hwalk Hi Hj Hpi Hpj)).
Qed.

Lemma passes_checks_unique env req body files folder body' files' folder' :
  passes_checks env req body' files' folder' ->
  req_json req = Some body ->
  body_files body = Some files ->
  normalizeUploadFolder (body_uploadFolder body) = OK folder ->
  body' = body /\ files' = files /\ folder' = folder.
Proof.
  intros [_ Hbody Hfiles _ _ _ Hfolder] Hb Hf Hn.
  assert (body' = body) by congruence. subst body'.
  repeat split; congruence.
Qed.

(** C5 (as stated, refuted): a batch with two entries for the same target
    path does not always fail with [INVALID_REQUEST].  When the request
    carries the identifier of a batch that was completed before, the
    ledger is consulted before the entries are looked at, and the stored
    response is returned with status 200. *)
Lemma duplicates_replayed :
  let req := demo_request twin_files (RidString "batch-001") in
  let out := onRequestPost replay_env req (out_db first_run) in
  entry_path "demo" <$> twin_files !! 0%nat = Some (Some "demo/a.jpg")
  /\ entry_path "demo" <$> twin_files !! 1%nat = Some (Some "demo/a.jpg")
  /\ json_field "success" (resp_body (out_response out)) = Some (JBool true)
  /\ resp_status (out_response out) = 200
  /\ ~ fails_with "INVALID_REQUEST" 400 (out_response out).
Proof.
  vm_compute. repeat split. intros (H & _). discriminate H.
Qed.

(** C5 (amended): when two entries of the batch resolve to the same full
    target path, no transaction is submitted and no record is written on
    that run, whatever becomes of the request; and when the request reaches
    the walk over the batch, that is, it passes the checks that precede the
    lookup, is not answered from the ledger, gets a usable channel and the
    address of the caller, it fails with [INVALID_REQUEST] and status
    400. *)
Theorem duplicate_paths_rejected
    (env : Env) (req : Request) (db : gmap string DbEntry)
    (body : Body) (files : list FileInput) (folder : string)
    (i j : nat) (fi fj : FileInput) (path : string) :
  req_json req = Some body ->
  body_files body = Some files ->
  normalizeUploadFolder (body_uploadFolder body) = OK folder ->
  i <> j ->
  files !! i = Some fi ->
  files !! j = Some fj ->
  entry_path folder fi = Some path ->
  entry_path folder fj = Some path ->
  let out := onRequestPost env req db in
  commits (out_trace out) = 0%nat
  /\ (out_trace out = [] \/ exists key, out_trace out = [EvDbDelete key])
  /\ (forall hfChannel uploadAddress,
        passes_checks env req body files folder ->
        not_replayed env req db ->
        channel_resolved env (body_channelName body) hfChannel ->
        getIPAddress env = OK uploadAddress ->
        fails_with "INVALID_REQUEST" 400 (out_response out)).
Proof.
  intros Hbody Hfiles Hfolder Hne Hi Hj Hpi Hpj. cbv zeta.
  assert (Hrej : forall uploadAddress,
            rejected (prepareFiles (walk_ctx env folder uploadAddress) files))
    by (intros; eapply duplicates_rejected; eassumption).
  assert (Htrace : out_trace (onRequestPost env req db) = []
                   \/ exists key,
                        out_trace (onRequestPost env req db)
                        = [EvDbDelete key]).
  { unfold onRequestPost.
    destruct (handle_front env req db)
      as [(body' & files' & folder' & Hchecks & Hrun)
         |(step & Hrun & _)]; [|rewrite Hrun; now left].
    destruct (passes_checks_unique _ _ _ _ _ _ _ _ Hchecks Hbody Hfiles
                Hfolder) as (-> & -> & ->).
    rewrite Hrun.
    pose proof (ledger_lookup_runs env
                  (idempotencyKey_of (body_requestId body)) db) as Hlookup.
    destruct (batch_runs env req body files folder
                (idempotencyKey_of (body_requestId body)) db)
      as (s1 & d1 & t1 & Hb1 & Hcase1).
    destruct (ledger_state env (idempotencyKey_of (body_requestId body)) db)
      as [|key|payload].
    - rewrite (bind_next _ _ _ _ _ _ Hlookup), Hb1.
      destruct Hcase1 as [(-> & _)|(ch & addr & prepared & t' & _ & _ & Hok
                                    & _)]; [now left|].
      destruct (rejected_not_ok _ _ (Hrej addr) Hok).
    - destruct (batch_runs env req body files folder
                  (idempotencyKey_of (body_requestId body)) (delete key db))
        as (s2 & d2 & t2 & Hb2 & Hcase2).
      rewrite (bind_next _ _ _ _ _ _ Hlookup), Hb2.
      destruct Hcase2 as [(-> & _)|(ch & addr & prepared & t' & _ & _ & Hok
                                    & _)]; [right; now exists key|].
      destruct (rejected_not_ok _ _ (Hrej addr) Hok).
    - rewrite (bind_return _ _ _ _ _ _ Hlookup). now left. }
  split; [|split; [exact Htrace|]].
  - destruct Htrace as [->|(key & ->)]; reflexivity.
  - intros hfChannel uploadAddress Hchecks Hmiss Hch Hip.
    destruct (handle_not_replayed env req db body files folder Hchecks)
      as (db0 & t0 & _ & Hrun); [intros payload; now apply Hmiss|].
    destruct (Hrej uploadAddress) as [message Hmessage].
    unfold onRequestPost.
    rewrite (Hrun (Throw (invalid_request message)) db0 []).
    + apply toErrorResponse_rejected.
    + apply bind_throw.
      rewrite (prepare_batch_reached _ _ _ _ _ _ _ Hch Hip).
      now rewrite Hmessage.
Qed.

Lemma duplicate_paths_rejected_witness :
  let out := onRequestPost demo_env (demo_request twin_files RidAbsent) ∅ in
  commits (out_trace out) = 0%nat
  /\ fails_with "INVALID_REQUEST" 400 (out_response out).
Proof.
  cbv zeta.
  destruct (duplicate_paths_rejected demo_env
              (demo_request twin_files RidAbsent) ∅
              (demo_body twin_files RidAbsent) twin_files "demo"
              0%nat 1%nat
              (demo_file "a.jpg" "image/jpeg" "aGVsbG8=")
              (demo_file "a.jpg" "image/jpeg" "d29ybGQ=")
              "demo/a.jpg")
    as (Hcommits & _ & Hfails);
    try reflexivity; [discriminate|].
  split; [exact Hcommits|].
  apply (Hfails demo_channel "Utopia").
  - constructor; try reflexivity; [discriminate | vm_compute; discriminate].
  - intros body payload [= <-]. discriminate.
  - eexists. repeat split; reflexivity.
  - reflexivity.
Defined.

(** ** All the files or none *)

Lemma response_files_listed ctx files prepared :
  prepareFiles ctx files = OK prepared ->
  Forall2 (fun f name => normalizeFileName (fi_name f) = OK name)
          files (map pf_name prepared)
  /\ map response_file prepared
     = map (listed_file (wc_normalizedFolder ctx)) (map pf_name prepared)
  /\ length prepared = length files.
Proof.
  intros Hok. apply prepareFiles_ok_inv in Hok as (st & Hwalk & ->).
  apply walk_prepared in Hwalk as (prepared & -> & Hall).
  cbn [walk_start preparedFiles app].
  split; [|split].
  - apply Forall2_fmap_r. eapply Forall2_impl; [exact Hall|].
    now intros f file [Hname _].
  - rewrite map_map. clear -Hall.
    induction Hall as [|f file files prepared [_ Hid] _ IH];
      [reflexivity|].
    cbn [map]. rewrite IH. f_equal.
    unfold response_file, listed_file. now rewrite Hid.
  - symmetry. exact (Forall2_length _ _ _ Hall).
Qed.

(** ** One transaction for a batch *)

(** C1 (as stated, refuted): a batch that is valid in the sense of the
    claim is not always submitted.  Two entries with the same name are
    each in order and within every limit, and the handler ends the request
    without a call of [uploadFilesInSingleCommit]. *)
Lemma twin_batch_not_submitted :
  let out := onRequestPost demo_env (demo_request twin_files RidAbsent) ∅ in
  Z.of_nat (length twin_files) <= maxFiles (limits_of demo_env)
  /\ forallb (entry_valid (limits_of demo_env)) twin_files = true
  /\ total_size twin_files <= maxTotalSize (limits_of demo_env)
  /\ commits (out_trace out) = 0%nat.
Proof. vm_compute. repeat split; discriminate. Qed.

Lemma commits_le_one env req db :
  (commits (out_trace (onRequestPost env req db)) <= 1)%nat.
Proof.
  unfold onRequestPost.
  destruct (handle_front env req db)
    as [(body & files & folder & Hchecks & Hrun)|(step & Hrun & _)];
    [|rewrite Hrun; cbn; lia].
  rewrite Hrun.
  pose proof (ledger_lookup_runs env
                (idempotencyKey_of (body_requestId body)) db) as Hlookup.
  assert (Hbatch : forall db0,
            exists step db' t,
              bind (prepare_batch env body files folder)
                   (fun batch =>
                      commit_batch env req body
                        (idempotencyKey_of (body_requestId body))
                        (fst batch) (snd batch)) db0
              = (step, db', t)
              /\ (commits t <= 1)%nat).
  { intros db0.
    destruct (batch_runs env req body files folder
                (idempotencyKey_of (body_requestId body)) db0)
      as (step & db' & t & Hb & Hcase).
    exists step, db', t. split; [exact Hb|].
    destruct Hcase as [(-> & _)|(ch & addr & prepared & t' & _ & _ & _ & ->
                                 & Ht' & _)]; [cbn; lia|].
    change (EvCommit ch (map commit_file prepared)
              (commitSummary_of (body_commitMessage body) (length prepared))
            :: t')
      with ([EvCommit ch (map commit_file prepared)
               (commitSummary_of (body_commitMessage body)
                                 (length prepared))] ++ t')%list.
    rewrite commits_app, Ht'. cbn. lia. }
  destruct (ledger_state env (idempotencyKey_of (body_requestId body)) db)
    as [|key|payload].
  - destruct (Hbatch db) as (step & db' & t & Hb & Ht).
    rewrite (bind_next _ _ _ _ _ _ Hlookup), Hb. exact Ht.
  - destruct (Hbatch (delete key db)) as (step & db' & t & Hb & Ht).
    rewrite (bind_next _ _ _ _ _ _ Hlookup), Hb. cbn [out_trace].
    rewrite commits_app. cbn. exact Ht.
  - rewrite (bind_return _ _ _ _ _ _ Hlookup). cbn. lia.
Qed.

Lemma prepareFiles_accepts ctx files :
  forallb (entry_ok ctx) files = true ->
  NoDup (entry_paths (wc_normalizedFolder ctx) files) ->
  total_size files <= maxTotalSize (wc_limits ctx) ->
  exists prepared,
    prepareFiles ctx files = OK prepared
    /\ length prepared = length files.
Proof.
  intros Hok Hnd Htotal.
  destruct (walk_accepts ctx files 0%nat walk_start Hok Hnd) as [st Hwalk].
  - intros path _. cbn. apply not_elem_of_empty.
  - cbn. lia.
  - assert (Hprepared : prepareFiles ctx files = OK (preparedFiles st))
      by (unfold prepareFiles; now rewrite Hwalk).
    exists (preparedFiles st). split; [exact Hprepared|].
    exact (proj2 (proj2 (response_files_listed _ _ _ Hprepared))).
Qed.

(* ================================================================== *)
(** * Further properties *)

(** ** Names and target paths *)

Lemma trim_idem s : Str.trim (Str.trim s) = Str.trim s.
Proof.
  apply trim_fixed; unfold Str.trim.
  - apply drop_trailing_head, drop_leading_head.
  - apply drop_trailing_last.
Qed.

Lemma check_segments_safe segments :
  check_segments segments = OK tt <-> forallb safe_segment segments = true.
Proof.
  induction segments as [|segment rest IH]; [now split|].
  cbn [check_segments forallb]. unfold safe_segment at 1.
  destruct (Str.is_empty segment || String.eqb segment "."
            || String.eqb segment ".."); cbn [negb andb];
    [split; discriminate|].
  destruct (Str.startsWith segment RESERVED_PREFIX); cbn [negb];
    [split; discriminate | exact IH].
Qed.

Lemma split_non_empty sep s : Str.split sep s <> [].
Proof.
  destruct s as [|c r]; cbn [Str.split]; [discriminate|].
  destruct (Ascii.eqb c sep); [discriminate|].
  destruct (Str.split sep r); discriminate.
Qed.

Lemma split_app sep (a b : string) :
  Str.split sep (a ++ String sep b)
  = (Str.split sep a ++ Str.split sep b)%list.
Proof.
  induction a as [|c r IH].
  - rewrite append_nil_l. cbn [Str.split]. now rewrite Ascii.eqb_refl.
  - rewrite append_cons. cbn [Str.split].
    destruct (Ascii.eqb c sep); [now rewrite IH|].
    rewrite IH. destruct (Str.split sep r) as [|h t] eqn:E;
      [now apply split_non_empty in E | reflexivity].
Qed.

Lemma split_no_separator sep s :
  Str.includes s sep = false -> Str.split sep s = [s].
Proof.
  induction s as [|c r IH]; [reflexivity|].
  cbn [Str.includes Str.split]. intros H.
  apply orb_false_iff in H as [Hc Hr].
  now rewrite Hc, (IH Hr).
Qed.

(** What a name that passes normalization is like. *)
Lemma normalizeFileName_shape name fileName :
  normalizeFileName name = OK fileName ->
  exists raw,
    name = Some raw /\ fileName = Str.trim raw
    /\ Str.is_empty fileName = false
    /\ (255 <? Z.of_nat (String.length fileName)) = false
    /\ (String.eqb fileName "." || String.eqb fileName "..") = false
    /\ (Str.includes fileName "/" || Str.includes fileName "\") = false
    /\ Str.startsWith fileName RESERVED_PREFIX = false.
Proof.
  unfold normalizeFileName. destruct name as [raw|]; [|discriminate].
  destruct (Str.is_empty (Str.trim raw)) eqn:H1; [discriminate|].
  destruct (255 <? Z.of_nat (String.length (Str.trim raw))) eqn:H2;
    [discriminate|].
  destruct (String.eqb (Str.trim raw) "." || String.eqb (Str.trim raw) "..")
    eqn:H3; [discriminate|].
  destruct (Str.includes (Str.trim raw) "/"
            || Str.includes (Str.trim raw) "\") eqn:H4; [discriminate|].
  destruct (Str.startsWith (Str.trim raw) RESERVED_PREFIX) eqn:H5;
    [discriminate|].
  intros [= <-]. exists raw. auto 10.
Qed.

(** X1: the target path built from a folder and a name that pass
    normalization has only safe segments: none is empty, [.] or [..], and
    none begins with the reserved prefix.  The segments are those of the
    folder followed by the name, which holds no separator. *)
Theorem target_path_segments_safe
    (uploadFolder name : option string) (folder fileName : string) :
  normalizeUploadFolder uploadFolder = OK folder ->
  normalizeFileName name = OK fileName ->
  forallb safe_segment (Str.split "/" (fullId_of folder fileName)) = true
  /\ Str.split "/" (fullId_of folder fileName)
     = (if Str.is_empty folder then [fileName]
        else Str.split "/" folder ++ [fileName])%list.
Proof.
  intros Hfolder Hname.
  apply normalizeFileName_shape in Hname
    as (raw & _ & _ & H1 & _ & H3 & H4 & H5).
  apply orb_false_iff in H4 as [Hslash _].
  apply orb_false_iff in H3 as [Hdot Hdots].
  assert (Hsafe : safe_segment fileName = true)
    by (unfold safe_segment; now rewrite H1, Hdot, Hdots, H5).
  assert (Hsplit : Str.split "/" (fullId_of folder fileName)
                   = (if Str.is_empty folder then [fileName]
                      else Str.split "/" folder ++ [fileName])%list).
  { unfold fullId_of. destruct (Str.is_empty folder).
    - now apply split_no_separator.
    - change (folder ++ "/" ++ fileName)%string
        with (folder ++ String "/" fileName)%string.
      now rewrite split_app, (split_no_separator _ _ Hslash). }
  split; [|exact Hsplit]. rewrite Hsplit.
  destruct (Str.is_empty folder) eqn:Hempty.
  - cbn. now rewrite Hsafe.
  - rewrite forallb_app. cbn [forallb]. rewrite Hsafe, andb_true_r.
    apply check_segments_safe.
    revert Hfolder Hempty. unfold normalizeUploadFolder.
    destruct uploadFolder as [s|]; [|intros [= <-]; discriminate].
    destruct (Str.is_empty (strip_slashes (Str.trim s)));
      [intros [= <-]; discriminate|].
    destruct (check_segments (Str.split "/" (strip_slashes (Str.trim s))))
      as [[]|] eqn:Hsegments; cbn [rbind]; [|discriminate].
    now intros [= <-] _.
Qed.

Lemma target_path_segments_safe_witness :
  forallb safe_segment (Str.split "/" (fullId_of "demo/2026" "a.jpg")) = true
  /\ Str.split "/" (fullId_of "demo/2026" "a.jpg") = ["demo"; "2026"; "a.jpg"].
Proof.
  apply (target_path_segments_safe (Some "/demo//2026/") (Some " a.jpg ")
           "demo/2026" "a.jpg"); reflexivity.
Defined.

(** X2: normalization of a file name is idempotent: a name that comes out
    of [normalizeFileName] passes it again unchanged.  Such a name is not
    empty, has at most 255 characters and no white space at either end. *)
Theorem normalizeFileName_idempotent (name : option string)
    (fileName : string) :
  normalizeFileName name = OK fileName ->
  normalizeFileName (Some fileName) = OK fileName
  /\ fileName <> ""
  /\ Z.of_nat (String.length fileName) <= 255
  /\ Str.head_is Str.is_space fileName = false
  /\ Str.last_is Str.is_space fileName = false.
Proof.
  intros Hname.
  apply normalizeFileName_shape in Hname
    as (raw & _ & -> & H1 & H2 & H3 & H4 & H5).
  split; [|split; [|split; [|split]]].
  - unfold normalizeFileName. now rewrite trim_idem, H1, H2, H3, H4, H5.
  - now apply is_empty_false.
  - lia.
  - apply drop_trailing_head, drop_leading_head.
  - apply drop_trailing_last.
Qed.

Lemma normalizeFileName_idempotent_witness :
  normalizeFileName (Some "info.txt") = OK "info.txt"
  /\ "info.txt" <> ""
  /\ Z.of_nat (String.length "info.txt") <= 255
  /\ Str.head_is Str.is_space "info.txt" = false
  /\ Str.last_is Str.is_space "info.txt" = false.
Proof.
  apply (normalizeFileName_idempotent (Some "  info.txt ") "info.txt").
  reflexivity.
Defined.

(** ** The prepared files *)

Lemma prepareFile_prepared ctx i st fileInput st' :
  prepareFile ctx i st fileInput = OK st' ->
  exists file,
    preparedFiles st' = (preparedFiles st ++ [file])%list
    /\ prepared_from ctx fileInput file.
Proof.
  unfold prepareFile, prepared_from.
  destruct (normalizeFileName (fi_name fileInput)) as [fileName|] eqn:En;
    cbn [rbind]; [|discriminate].
  destruct (normalizeContentBase64 (fi_contentBase64 fileInput))
    as [base64Data|] eqn:Ec; cbn [rbind]; [|discriminate].
  destruct (estimateBase64Size base64Data <=? 0) eqn:E0; [discriminate|].
  destruct (maxSingleFileSize (wc_limits ctx) <? estimateBase64Size base64Data)
    eqn:E1; [discriminate|].
  destruct (maxTotalSize (wc_limits ctx)
            <? totalEstimatedBytes st + estimateBase64Size base64Data);
    [discriminate|].
  destruct (Str.startsWith _ RESERVED_PREFIX); [discriminate|].
  destruct (bool_decide _); [discriminate|].
  destruct (decodeBase64ToUint8Array base64Data) as [bytes|] eqn:Ed;
    cbn [rbind]; [|discriminate].
  intros [= <-]. eexists. split; [reflexivity|].
  exists fileName, base64Data, bytes.
  apply Z.leb_gt in E0. apply Z.ltb_ge in E1.
  repeat (split; [first [reflexivity | assumption]|]). reflexivity.
Qed.

(** The prepared files of a successful walk are made of the entries, one
    for one and in order. *)
Lemma walk_prepared_from ctx files i st st' :
  prepareFiles_from ctx i st files = OK st' ->
  exists prepared,
    preparedFiles st' = (preparedFiles st ++ prepared)%list
    /\ Forall2 (prepared_from ctx) files prepared.
Proof.
  revert i st. induction files as [|f files IH]; intros i st;
    cbn [prepareFiles_from].
  - intros [= <-]. exists []. split; [now rewrite app_nil_r | constructor].
  - destruct (prepareFile ctx i st f) as [st1|] eqn:E; cbn [rbind];
      [|discriminate].
    intros H. destruct (IH _ _ H) as (prepared & Hp & Hall).
    apply prepareFile_prepared in E as (file & Hfile & Hfrom).
    exists (file :: prepared). split.
    + rewrite Hp, Hfile, <- app_assoc. reflexivity.
    + now constructor.
Qed.

Lemma prepareFiles_prepared_from ctx files prepared :
  prepareFiles ctx files = OK prepared ->
  Forall2 (prepared_from ctx) files prepared.
Proof.
  intros H. apply prepareFiles_ok_inv in H as (st & Hwalk & ->).
  apply walk_prepared_from in Hwalk as (prepared & -> & Hall).
  exact Hall.
Qed.

(** The estimate of a payload that the handler decodes is the number of
    its bytes. *)
Lemma decoded_length_estimate contentBase64 base64Data bytes :
  normalizeContentBase64 contentBase64 = OK base64Data ->
  decodeBase64ToUint8Array base64Data = OK bytes ->
  Z.of_nat (length bytes) = estimateBase64Size base64Data.
Proof.
  intros Hc. unfold decodeBase64ToUint8Array.
  destruct (Base64.atob base64Data) as [binary|] eqn:E; [|discriminate].
  intros [= <-]. rewrite length_map, length_list_ascii_of_string.
  apply atob_length; [|exact E].
  exact (normalizeContentBase64_whitespace_free _ _ Hc).
Qed.

Lemma prepared_from_size ctx f file :
  prepared_from ctx f file ->
  entry_size f = Some (decoded_size file)
  /\ 0 < decoded_size file
  /\ decoded_size file <= maxSingleFileSize (wc_limits ctx)
  /\ md_FileSizeBytes (pf_metadata file) = decoded_size file.
Proof.
  intros (fileName & b & bytes & _ & Hc & Hd & H0 & H1 & _ & _ & _ & _
          & Hblob & _ & _ & _ & Hsize).
  unfold decoded_size, entry_size. rewrite Hblob, Hc. cbn [blob_bytes].
  rewrite Hsize, (decoded_length_estimate _ _ _ Hc Hd).
  repeat split; first [reflexivity | assumption].
Qed.

(** X3: the files of a batch that the walk accepts are, once decoded,
    within the limits that were checked on the estimates: every file has
    more than 0 and at most [maxSingleFileSize] bytes, the size recorded in
    its metadata is its number of bytes, the sizes sum to the sum of the
    estimates, and for a batch that is not empty that sum is at most
    [maxTotalSize]. *)
Theorem prepared_sizes_within_limits
    (ctx : WalkCtx) (files : list FileInput) (prepared : list PreparedFile) :
  prepareFiles ctx files = OK prepared ->
  Forall (fun file =>
            0 < decoded_size file
            /\ decoded_size file <= maxSingleFileSize (wc_limits ctx)
            /\ md_FileSizeBytes (pf_metadata file) = decoded_size file)
         prepared
  /\ decoded_total prepared = total_size files
  /\ (files <> [] -> decoded_total prepared <= maxTotalSize (wc_limits ctx)).
Proof.
  intros Hok.
  pose proof (prepareFiles_prepared_from _ _ _ Hok) as Hall.
  assert (Htotal : decoded_total prepared = total_size files).
  { clear Hok. induction Hall as [|f file files prepared Hfrom _ IH];
      [reflexivity|].
    rewrite total_size_cons. apply prepared_from_size in Hfrom as (Hs & _).
    rewrite Hs. cbn [default from_option id decoded_total foldr].
    fold (decoded_total prepared). now rewrite IH. }
  split; [|split; [exact Htotal|]].
  - clear Hok Htotal. induction Hall as [|f file files prepared Hfrom _ IH];
      constructor; [|exact IH].
    apply prepared_from_size in Hfrom as (_ & H0 & H1 & H2). auto.
  - intros Hne. rewrite Htotal.
    apply prepareFiles_ok_inv in Hok as (st & Hwalk & _).
    apply walk_sizes in Hwalk as (Hsum & Hbound & _).
    cbn in Hsum. specialize (Hbound Hne). lia.
Qed.

Lemma prepared_sizes_within_limits_witness :
  exists prepared,
    prepareFiles (demo_ctx demo_env) demo_files = OK prepared
    /\ map decoded_size prepared = [5; 5; 2]
    /\ decoded_total prepared = total_size demo_files
    /\ decoded_total prepared
       <= maxTotalSize (wc_limits (demo_ctx demo_env)).
Proof.
  destruct (prepareFiles (demo_ctx demo_env) demo_files) as [prepared|]
    eqn:Hok; [|vm_compute in Hok; discriminate].
  exists prepared.
  destruct (prepared_sizes_within_limits _ _ _ Hok) as (_ & Htotal & Hbound).
  split; [reflexivity|]. split; [|split; [exact Htotal|]].
  - vm_compute in Hok. injection Hok as <-. reflexivity.
  - apply Hbound. discriminate.
Defined.

(** X4: the operations handed to [uploadFilesInSingleCommit] follow the
    entries of the batch one for one and in order: each carries the
    normalized name, the target path [folder/name], the normalized base64
    text, the bytes that text decodes to under the normalized mime type,
    and the trimmed hash when one was given. *)
Theorem commit_files_follow_entries
    (ctx : WalkCtx) (files : list FileInput) (prepared : list PreparedFile) :
  prepareFiles ctx files = OK prepared ->
  Forall2 (operation_from ctx) files (map commit_file prepared).
Proof.
  intros Hok. apply prepareFiles_prepared_from in Hok.
  apply Forall2_fmap_r. eapply Forall2_impl; [exact Hok|].
  intros f file (fileName & b & bytes & Hn & Hc & Hd & _ & _ & Hname & _
                 & Hpath & _ & Hblob & Hcontent & _).
  exists fileName, b, bytes. unfold commit_file. cbn.
  auto 10.
Qed.

Lemma commit_files_follow_entries_witness :
  exists prepared,
    prepareFiles (demo_ctx demo_env) demo_files = OK prepared
    /\ Forall2 (operation_from (demo_ctx demo_env)) demo_files
         (map commit_file prepared).
Proof.
  destruct (prepareFiles (demo_ctx demo_env) demo_files) as [prepared|]
    eqn:Hok; [|vm_compute in Hok; discriminate].
  exists prepared. split; [reflexivity|].
  exact (commit_files_follow_entries _ _ _ Hok).
Defined.

(** ** The responses of the handler *)

Lemma check_segments_rejects segments e :
  check_segments segments = Err e -> exists message, e = invalid_request message.
Proof.
  induction segments as [|segment rest IH]; cbn [check_segments];
    [discriminate|].
  destruct (_ || _); [intros [= <-]; eauto|].
  destruct (Str.startsWith _ _); [intros [= <-]; eauto | exact IH].
Qed.

Lemma normalizeUploadFolder_rejects uploadFolder e :
  normalizeUploadFolder uploadFolder = Err e ->
  exists message, e = invalid_request message.
Proof.
  unfold normalizeUploadFolder. destruct uploadFolder as [s|]; [|discriminate].
  destruct (Str.is_empty _); [discriminate|].
  destruct (check_segments _) as [[]|e'] eqn:E; cbn [rbind]; [discriminate|].
  intros [= <-]. exact (check_segments_rejects _ _ E).
Qed.

Lemma error_body_fails code message status :
  fails_with code status (jsonResponse (error_body code message) status).
Proof. repeat split. Qed.

(** The checks at the front of the handler: the request passes them all, or
    the handler ends there, having touched nothing. *)
Lemma handle_front_cases env req db :
  (exists body files folder,
     passes_checks env req body files folder
     /\ handle env req db
        = bind (ledger_lookup env (idempotencyKey_of (body_requestId body)))
               (fun _ =>
                  bind (prepare_batch env body files folder)
                       (fun batch =>
                          commit_batch env req body
                            (idempotencyKey_of (body_requestId body))
                            (fst batch) (snd batch))) db)
  \/ (exists step,
        handle env req db = (step, db, [])
        /\ (forall body files folder,
              ~ passes_checks env req body files folder)
        /\ match step with
           | Next _ => False
           | Return r =>
               (userAuthCheck env = OK false /\ fails_with "AUTH_ERROR" 401 r)
               \/ (userAuthCheck env = OK true
                   /\ fails_with "INVALID_REQUEST" 400 r)
           | Throw e =>
               userAuthCheck env = Err e
               \/ (userAuthCheck env = OK true
                   /\ exists message, e = invalid_request message)
           end).
Proof.
  unfold handle.
  destruct (userAuthCheck env) as [[|]|e] eqn:Hauth.
  2: { right. rewrite bind_call_ok. eexists. split; [reflexivity|]. split.
       - intros body files folder [H]. congruence.
       - left. split; [reflexivity | apply error_body_fails]. }
  2: { right. rewrite bind_call_err. eexists. split; [reflexivity|]. split.
       - intros body files folder [H]. congruence.
       - now left. }
  rewrite bind_call_ok. cbn [negb].
  destruct (req_json req) as [body|] eqn:Hbody.
  2: { right. eexists. split; [reflexivity|]. split.
       - intros body files folder [_ H]. congruence.
       - right. split; [reflexivity | apply error_body_fails]. }
  destruct (body_files body) as [[|f files]|] eqn:Hfiles.
  1: { right. eexists. split; [reflexivity|]. split.
       - intros body' files' folder' [_ H1 H2 H3]. congruence.
       - right. split; [reflexivity | apply error_body_fails]. }
  2: { right. eexists. split; [reflexivity|]. split.
       - intros body' files' folder' [_ H1 H2 H3]. congruence.
       - right. split; [reflexivity | apply error_body_fails]. }
  destruct (maxFiles (limits_of env) <? Z.of_nat (length (f :: files)))
    eqn:Hcount.
  1: { right. eexists. split; [reflexivity|]. split.
       - intros body' files' folder' [_ H1 H2 H3 H4].
         assert (body' = body) as -> by congruence.
         assert (files' = f :: files) as -> by congruence. lia.
       - right. split; [reflexivity | apply error_body_fails]. }
  destruct (requestId_ok (body_requestId body)) eqn:Hrid; cbn [negb].
  2: { right. eexists. split; [reflexivity|]. split.
       - intros body' files' folder' [_ H1 H2 H3 H4 H5].
         assert (body' = body) as -> by congruence. congruence.
       - right. split; [reflexivity | apply error_body_fails]. }
  destruct (normalizeUploadFolder (body_uploadFolder body))
    as [folder|e] eqn:Hfolder.
  - left. exists body, (f :: files), folder. split.
    + constructor; try assumption; [discriminate | lia].
    + now rewrite bind_call_ok.
  - right. rewrite bind_call_err. eexists. split; [reflexivity|]. split.
    + intros body' files' folder' [_ H1 H2 H3 H4 H5 H6].
      assert (body' = body) as -> by congruence. congruence.
    + right. split; [reflexivity|].
      exact (normalizeUploadFolder_rejects _ _ Hfolder).
Qed.

(** X5: a request that an authorised caller sends and that fails a check at
    the front of the handler (the body, the list of files, their number,
    the request identifier, the folder) is answered 400 [INVALID_REQUEST];
    the store is left as it was and nothing is called: the ledger is not
    consulted, so not even a corrupt entry of the ledger is deleted. *)
Theorem front_checks_touch_nothing
    (env : Env) (req : Request) (db : gmap string DbEntry) :
  userAuthCheck env = OK true ->
  (forall body files folder, ~ passes_checks env req body files folder) ->
  fails_with "INVALID_REQUEST" 400 (out_response (onRequestPost env req db))
  /\ out_db (onRequestPost env req db) = db
  /\ out_trace (onRequestPost env req db) = [].
Proof.
  intros Hauth Hfail. unfold onRequestPost.
  destruct (handle_front_cases env req db)
    as [(body & files & folder & Hpass & _) | (step & -> & _ & Hstep)].
  { now destruct (Hfail body files folder). }
  destruct step as [r|r|e]; [contradiction | |]; cbn.
  - destruct Hstep as [[H _]|[_ H]]; [congruence | auto].
  - destruct Hstep as [H|[_ [message ->]]]; [congruence|].
    split; [apply toErrorResponse_rejected | auto].
Qed.

Lemma front_checks_touch_nothing_witness :
  let out := onRequestPost demo_env (demo_request [] (RidString "batch-001"))
                           stale_db in
  fails_with "INVALID_REQUEST" 400 (out_response out)
  /\ out_db out = stale_db
  /\ out_trace out = [].
Proof.
  apply (front_checks_touch_nothing demo_env
           (demo_request [] (RidString "batch-001")) stale_db).
  - reflexivity.
  - intros body files folder [_ Hbody Hfiles Hne].
    injection Hbody as <-. injection Hfiles as <-. now apply Hne.
Defined.

(** The lookup in the ledger, for a request that passes the checks. *)
Lemma handle_lookup env req db body files folder :
  passes_checks env req body files folder ->
  match ledger_state env (idempotencyKey_of (body_requestId body)) db with
  | Hit payload =>
      handle env req db
      = (Return (jsonResponse (mark_idempotent payload) 200), db, [])
  | Miss =>
      handle env req db
      = bind (prepare_batch env body files folder)
             (fun batch =>
                commit_batch env req body
                  (idempotencyKey_of (body_requestId body))
                  (fst batch) (snd batch)) db
  | Corrupt key =>
      handle env req db
      = let '(step, db', t) :=
          bind (prepare_batch env body files folder)
               (fun batch =>
                  commit_batch env req body
                    (idempotencyKey_of (body_requestId body))
                    (fst batch) (snd batch)) (delete key db) in
        (step, db', EvDbDelete key :: t)
  end.
Proof.
  intros Hpass. rewrite (handle_passes _ _ _ _ _ _ Hpass).
  pose proof (ledger_lookup_runs env
                (idempotencyKey_of (body_requestId body)) db) as Hlookup.
  destruct (ledger_state env (idempotencyKey_of (body_requestId body)) db)
    as [|key|payload].
  - rewrite (bind_next _ _ _ _ _ _ Hlookup).
    now destruct (bind _ _ db) as [[step db'] t].
  - rewrite (bind_next _ _ _ _ _ _ Hlookup). reflexivity.
  - now rewrite (bind_return _ _ _ _ _ _ Hlookup).
Qed.

Lemma resolve_channel_throws env channelName db e db' t :
  resolve_channel env channelName db = (Throw e, db', t) ->
  fetchUploadConfig env = Err e.
Proof.
  unfold resolve_channel.
  destruct (fetchUploadConfig env) as [[hfSettings|]|e'] eqn:Hconfig.
  - rewrite bind_call_ok.
    destruct (length (hf_channels hfSettings) =? 0)%nat; [discriminate|].
    destruct (selectHuggingFaceChannel _ _ _) as [hfChannel|];
      [|discriminate].
    destruct (_ || _); discriminate.
  - rewrite bind_call_ok. discriminate.
  - rewrite bind_call_err. now intros [= <- _ _].
Qed.

Lemma prepare_batch_cases env body files folder db :
  exists step,
    prepare_batch env body files folder db = (step, db, [])
    /\ match step with
       | Next batch =>
           exists uploadAddress,
             channel_resolved env (body_channelName body) (fst batch)
             /\ getIPAddress env = OK uploadAddress
             /\ prepareFiles (walk_ctx env folder uploadAddress) files
                = OK (snd batch)
       | Return r => fails_with "CHANNEL_NOT_FOUND" 400 r
       | Throw e =>
           fetchUploadConfig env = Err e
           \/ getIPAddress env = Err e
           \/ exists message, e = invalid_request message
       end.
Proof.
  destruct (resolve_channel_runs env (body_channelName body) db)
    as (step & Hrun & Hstep).
  unfold prepare_batch. destruct step as [hfChannel|r|e].
  - rewrite (bind_quiet _ _ _ _ Hrun).
    destruct (getIPAddress env) as [uploadAddress|e] eqn:Hip.
    + rewrite bind_call_ok.
      destruct (prepareFiles (walk_ctx env folder uploadAddress) files)
        as [prepared|e] eqn:Hwalk.
      * rewrite bind_call_ok. eexists. split; [reflexivity|].
        exists uploadAddress. auto.
      * rewrite bind_call_err. eexists. split; [reflexivity|].
        right. right.
        destruct (prepareFiles_cases
                    (walk_ctx env folder uploadAddress) files)
          as [(st & _ & Hok)|[message Hrej]]; [congruence|].
        exists message. congruence.
    + rewrite bind_call_err. eexists. split; [reflexivity|]. right. now left.
  - rewrite (bind_return _ _ _ _ _ _ Hrun). eauto.
  - rewrite (bind_throw _ _ _ _ _ _ Hrun). eexists. split; [reflexivity|].
    left. exact (resolve_channel_throws _ _ _ _ _ _ Hrun).
Qed.

(** From the channel to the submission: the request ends before anything
    is written or submitted, or the batch is prepared and handed to the
    commit. *)
Lemma batch_cases env req body files folder idempotencyKey db :
  (exists step,
     bind (prepare_batch env body files folder)
          (fun batch =>
             commit_batch env req body idempotencyKey (fst batch) (snd batch))
          db
     = (step, db, [])
     /\ match step with
        | Next _ => False
        | Return r => fails_with "CHANNEL_NOT_FOUND" 400 r
        | Throw e =>
            fetchUploadConfig env = Err e
            \/ getIPAddress env = Err e
            \/ exists message, e = invalid_request message
        end)
  \/ (exists hfChannel uploadAddress prepared,
        channel_resolved env (body_channelName body) hfChannel
        /\ getIPAddress env = OK uploadAddress
        /\ prepareFiles (walk_ctx env folder uploadAddress) files
           = OK prepared
        /\ bind (prepare_batch env body files folder)
                (fun batch =>
                   commit_batch env req body idempotencyKey
                                (fst batch) (snd batch)) db
           = commit_batch env req body idempotencyKey hfChannel prepared db).
Proof.
  destruct (prepare_batch_cases env body files folder db)
    as (step & Hrun & Hstep).
  destruct step as [[hfChannel prepared]|r|e].
  - right. destruct Hstep as (uploadAddress & Hch & Hip & Hwalk).
    exists hfChannel, uploadAddress, prepared.
    do 3 (split; [assumption|]).
    now rewrite (bind_quiet _ _ _ _ Hrun).
  - left. rewrite (bind_return _ _ _ _ _ _ Hrun). eauto.
  - left. rewrite (bind_throw _ _ _ _ _ _ Hrun). eauto.
Qed.

(** What the commit and the bookkeeping after it do. *)
Lemma commit_batch_cases env req body idempotencyKey hfChannel prepared db :
  let commitSummary :=
    commitSummary_of (body_commitMessage body) (length prepared) in
  let submitted :=
    EvCommit hfChannel (map commit_file prepared) commitSummary in
  match uploadFilesInSingleCommit env hfChannel (map commit_file prepared)
                                  commitSummary with
  | Err e =>
      commit_batch env req body idempotencyKey hfChannel prepared db
      = (Throw e, db, [submitted])
  | OK uploadResult =>
      match fetchSecurityConfig env with
      | Err e =>
          commit_batch env req body idempotencyKey hfChannel prepared db
          = (Throw e, db, [submitted])
      | OK moderateEnabled =>
          exists db1 t1,
            record_files env req hfChannel moderateEnabled prepared db
            = (Next (map response_file prepared), db1, t1)
            /\ commits t1 = 0%nat
            /\ let payload :=
                 success_payload (body_requestId body) hfChannel
                   uploadResult (map response_file prepared) in
               commit_batch env req body idempotencyKey hfChannel prepared db
               = (Next (jsonResponse payload 200),
                  match idempotencyKey with
                  | Some key =>
                      <[key := {| db_value := JSON_stringify env payload;
                                  db_metadata := None |}]> db1
                  | None => db1
                  end,
                  submitted
                  :: (t1 ++ match idempotencyKey with
                            | Some key =>
                                [EvDbPut key
                                   {| db_value := JSON_stringify env payload;
                                      db_metadata := None |}]
                            | None => []
                            end)%list)
      end
  end.
Proof.
  intros commitSummary submitted. unfold commit_batch, submit.
  fold commitSummary. fold submitted.
  destruct (uploadFilesInSingleCommit env hfChannel
              (map commit_file prepared) commitSummary)
    as [uploadResult|e] eqn:Hup.
  - rewrite (bind_next _ _ db uploadResult db [submitted]); [|reflexivity].
    destruct (fetchSecurityConfig env) as [moderateEnabled|e] eqn:Hsec.
    + rewrite bind_call_ok.
      destruct (record_files_runs env req hfChannel moderateEnabled
                  prepared db) as (db1 & t1 & Hrun & Ht1).
      exists db1, t1. split; [exact Hrun|]. split; [exact Ht1|].
      rewrite (bind_next _ _ _ _ _ _ Hrun).
      destruct idempotencyKey as [key|].
      * unfold bind, db_put, ret. cbn. reflexivity.
      * unfold bind, ret. cbn. reflexivity.
    + rewrite bind_call_err. reflexivity.
  - rewrite (bind_throw _ _ db e db [submitted]); reflexivity.
Qed.

(** A request that passes the checks: it is answered from the ledger, or,
    the ledger left as it was or rid of a corrupt entry, it ends before the
    commit or goes on with it. *)
Lemma handle_runs env req db body files folder :
  passes_checks env req body files folder ->
  (exists payload,
     ledger_state env (idempotencyKey_of (body_requestId body)) db
     = Hit payload
     /\ handle env req db
        = (Return (jsonResponse (mark_idempotent payload) 200), db, []))
  \/ exists db0 t0,
       (forall payload,
          ledger_state env (idempotencyKey_of (body_requestId body)) db
          <> Hit payload)
       /\ ((db0 = db /\ t0 = [])
           \/ (exists key,
                 ledger_state env (idempotencyKey_of (body_requestId body)) db
                 = Corrupt key
                 /\ db0 = delete key db /\ t0 = [EvDbDelete key]))
       /\ ((exists step,
              handle env req db = (step, db0, t0)
              /\ match step with
                 | Next _ => False
                 | Return r => fails_with "CHANNEL_NOT_FOUND" 400 r
                 | Throw e =>
                     fetchUploadConfig env = Err e
                     \/ getIPAddress env = Err e
                     \/ exists message, e = invalid_request message
                 end)
           \/ (exists hfChannel uploadAddress prepared,
                 channel_resolved env (body_channelName body) hfChannel
                 /\ getIPAddress env = OK uploadAddress
                 /\ prepareFiles (walk_ctx env folder uploadAddress) files
                    = OK prepared
                 /\ handle env req db
                    = let '(step, db', t) :=
                        commit_batch env req body
                          (idempotencyKey_of (body_requestId body))
                          hfChannel prepared db0 in
                      (step, db', (t0 ++ t)%list))).
Proof.
  intros Hpass. pose proof (handle_lookup _ _ db _ _ _ Hpass) as Hlookup.
  destruct (ledger_state env (idempotencyKey_of (body_requestId body)) db)
    as [|key|payload] eqn:Hstate.
  - right. exists db, []. split; [discriminate|]. split; [now left|].
    rewrite Hlookup.
    destruct (batch_cases env req body files folder
                (idempotencyKey_of (body_requestId body)) db)
      as [(step & -> & Hstep)
         |(hfChannel & uploadAddress & prepared & Hch & Hip & Hwalk & ->)].
    + left. eauto.
    + right. exists hfChannel, uploadAddress, prepared.
      do 3 (split; [assumption|]).
      now destruct (commit_batch _ _ _ _ _ _ db) as [[step db'] t].
  - right. exists (delete key db), [EvDbDelete key].
    split; [discriminate|]. split; [right; eauto|].
    rewrite Hlookup.
    destruct (batch_cases env req body files folder
                (idempotencyKey_of (body_requestId body)) (delete key db))
      as [(step & -> & Hstep)
         |(hfChannel & uploadAddress & prepared & Hch & Hip & Hwalk & ->)].
    + left. eauto.
    + right. exists hfChannel, uploadAddress, prepared.
      do 3 (split; [assumption|]). reflexivity.
  - left. eauto.
Qed.


(** X7: a run that submits no transaction writes nothing: it leaves the
    store as it found it and calls nothing, or all it did was to delete
    the corrupt entry that the ledger held for the request. *)
Theorem no_commit_no_write
    (env : Env) (req : Request) (db : gmap string DbEntry) :
  commits (out_trace (onRequestPost env req db)) = 0%nat ->
  (out_trace (onRequestPost env req db) = []
   /\ out_db (onRequestPost env req db) = db)
  \/ exists body key,
       req_json req = Some body
       /\ ledger_state env (idempotencyKey_of (body_requestId body)) db
          = Corrupt key
       /\ out_trace (onRequestPost env req db) = [EvDbDelete key]
       /\ out_db (onRequestPost env req db) = delete key db.
Proof.
  unfold onRequestPost.
  destruct (handle_front_cases env req db)
    as [(body & files & folder & Hpass & _) | (step & -> & _ & _)];
    [|now left].
  destruct (handle_runs _ _ db _ _ _ Hpass)
    as [(payload & _ & ->)
       |(db0 & t0 & _ & Hlookup &
         [(step & -> & _)
         |(hfChannel & uploadAddress & prepared & _ & _ & _ & ->)])].
  - now left.
  - intros _. cbn.
    destruct Hlookup as [[-> ->]|(key & Hstate & -> & ->)]; [now left|].
    right. exists body, key. split; [apply Hpass | auto].
  - destruct (commit_batch_runs env req body
                (idempotencyKey_of (body_requestId body))
                hfChannel prepared db0) as (step & db' & t & -> & _).
    cbn [out_trace]. rewrite commits_app. cbn. lia.
Qed.

Lemma no_commit_no_write_witness :
  let out := onRequestPost demo_env
               (demo_request twin_files (RidString "batch-001")) corrupt_db in
  (out_trace out = [] /\ out_db out = corrupt_db)
  \/ exists body key,
       req_json (demo_request twin_files (RidString "batch-001")) = Some body
       /\ ledger_state demo_env (idempotencyKey_of (body_requestId body))
                       corrupt_db
          = Corrupt key
       /\ out_trace out = [EvDbDelete key]
       /\ out_db out = delete key corrupt_db.
Proof.
  apply (no_commit_no_write demo_env
           (demo_request twin_files (RidString "batch-001")) corrupt_db).
  vm_compute. reflexivity.
Defined.

(** ** The ledger *)

Lemma set_field_idem name v fields :
  set_field name v (set_field name v fields) = set_field name v fields.
Proof.
  induction fields as [|[k w] fields IH]; cbn [set_field].
  - now rewrite String.eqb_refl.
  - destruct (String.eqb k name) eqn:E; cbn [set_field]; rewrite E;
      [reflexivity | now rewrite IH].
Qed.

Lemma mark_idempotent_idem payload :
  mark_idempotent (mark_idempotent payload) = mark_idempotent payload.
Proof.
  destruct payload; cbn [mark_idempotent]; try reflexivity.
  now rewrite set_field_idem.
Qed.

Lemma fails_with_not_success code status r :
  fails_with code status r ->
  json_field "success" (resp_body r) <> Some (JBool true).
Proof. intros [H _]. rewrite H. discriminate. Qed.

Lemma toErrorResponse_not_success e fallbackCode :
  json_field "success" (resp_body (toErrorResponse e fallbackCode))
  <> Some (JBool true).
Proof.
  pose proof (toErrorResponse_is_failure e fallbackCode) as H.
  unfold is_failure in H. rewrite H. discriminate.
Qed.

(** X8: a success is replayed.  When a request that carries a request
    identifier is answered with a success, the same request sent again to
    the store that the run left is answered from the ledger: the response
    is the one of the first run with [idempotent] set, its status is 200,
    nothing is submitted and nothing is written.  The serializer and the
    parser are those of the environment; what is asked of them is that the
    text of the response is not empty and parses back to the response. *)
Theorem success_is_replayed
    (env : Env) (req : Request) (db : gmap string DbEntry)
    (body : Body) (rid : string) :
  req_json req = Some body ->
  body_requestId body = RidString rid ->
  json_field "success" (resp_body (out_response (onRequestPost env req db)))
  = Some (JBool true) ->
  JSON_stringify env (resp_body (out_response (onRequestPost env req db)))
  <> "" ->
  JSON_parse env
    (JSON_stringify env (resp_body (out_response (onRequestPost env req db))))
  = Some (resp_body (out_response (onRequestPost env req db))) ->
  onRequestPost env req (out_db (onRequestPost env req db))
  = {| out_response :=
         jsonResponse
           (mark_idempotent
              (resp_body (out_response (onRequestPost env req db)))) 200;
       out_db := out_db (onRequestPost env req db);
       out_trace := [] |}.
Proof.
  intros Hbody Hrid. unfold onRequestPost.
  destruct (handle_front_cases env req db)
    as [(body' & files & folder & Hpass & _) | (step & -> & _ & Hstep)].
  2: { destruct step as [r|r|e]; [contradiction | |]; cbn; intros Hsuccess.
       - destruct Hstep as [[_ H]|[_ H]];
           now destruct (fails_with_not_success _ _ _ H).
       - now destruct (toErrorResponse_not_success _ _ Hsuccess). }
  assert (body' = body) as ->.
  { destruct Hpass as [_ H]. congruence. }
  pose proof (requestId_ok_non_empty rid) as Hne.
  rewrite <- Hrid in Hne at 1. specialize (Hne (pc_requestId _ _ _ _ _ Hpass)).
  destruct (handle_runs _ _ db _ _ _ Hpass)
    as [(payload & Hstate & Hrun)
       |(db0 & t0 & _ & _ &
         [(step & -> & Hstep)
         |(hfChannel & uploadAddress & prepared & _ & _ & _ & Hrun)])].
  - rewrite Hrun. cbn [out_response out_db resp_body jsonResponse].
    intros _ _ _. unfold onRequestPost. rewrite Hrun.
    now rewrite mark_idempotent_idem.
  - destruct step as [r|r|e]; [contradiction | |]; cbn; intros Hsuccess.
    + now destruct (fails_with_not_success _ _ _ Hstep).
    + now destruct (toErrorResponse_not_success _ _ Hsuccess).
  - rewrite Hrun. clear Hrun.
    pose proof (commit_batch_cases env req body
                  (idempotencyKey_of (body_requestId body))
                  hfChannel prepared db0) as Hcommit.
    cbv zeta in Hcommit.
    destruct (uploadFilesInSingleCommit env hfChannel
                (map commit_file prepared) _) as [uploadResult|e].
    2: { rewrite Hcommit. cbn. intros Hsuccess.
         now destruct (toErrorResponse_not_success _ _ Hsuccess). }
    destruct (fetchSecurityConfig env) as [moderateEnabled|e].
    2: { rewrite Hcommit. cbn. intros Hsuccess.
         now destruct (toErrorResponse_not_success _ _ Hsuccess). }
    destruct Hcommit as (db1 & t1 & _ & _ & ->).
    cbn [out_response out_db resp_body jsonResponse].
    intros _ Htext Hparse.
    unfold onRequestPost.
    pose proof (handle_lookup env req
                  match idempotencyKey_of (body_requestId body) with
                  | Some key =>
                      <[key:={| db_value :=
                                  JSON_stringify env
                                    (success_payload (body_requestId body)
                                       hfChannel uploadResult
                                       (map response_file prepared));
                                db_metadata := None |}]> db1
                  | None => db1
                  end _ _ _ Hpass) as Hlookup.
    rewrite Hrid in Hlookup, Htext, Hparse |- *.
    cbn [idempotencyKey_of] in Hlookup |- *.
    rewrite Hne in Hlookup |- *.
    cbn [ledger_state] in Hlookup. rewrite lookup_insert_eq in Hlookup.
    cbn [db_value] in Hlookup.
    apply is_empty_false_iff in Htext. rewrite Htext, Hparse in Hlookup.
    cbn [success_payload] in Hlookup. rewrite Hlookup. reflexivity.
Qed.

Lemma success_is_replayed_witness :
  let req := demo_request demo_files (RidString "batch-001") in
  onRequestPost replay_env req (out_db (onRequestPost replay_env req ∅))
  = {| out_response :=
         jsonResponse
           (mark_idempotent
              (resp_body (out_response (onRequestPost replay_env req ∅))))
           200;
       out_db := out_db (onRequestPost replay_env req ∅);
       out_trace := [] |}.
Proof.
  apply (success_is_replayed replay_env
           (demo_request demo_files (RidString "batch-001")) ∅
           (demo_body demo_files (RidString "batch-001")) "batch-001").
  - reflexivity.
  - reflexivity.
  - vm_compute. reflexivity.
  - vm_compute. discriminate.
  - vm_compute. reflexivity.
Defined.

(** ** The records of the files *)

Lemma prepared_paths ctx files prepared :
  Forall2 (prepared_from ctx) files prepared ->
  map pf_fullId prepared = entry_paths (wc_normalizedFolder ctx) files.
Proof.
  induction 1 as [|f file files prepared Hfrom _ IH]; [reflexivity|].
  destruct Hfrom as (fileName & b & bytes & Hn & _ & _ & _ & _ & _ & Hid & _).
  rewrite entry_paths_cons. unfold entry_path. rewrite Hn.
  cbn [map]. now rewrite Hid, IH.
Qed.

Lemma record_file_db env req hfChannel moderateEnabled file db :
  exists db' t metadata,
    record_file env req hfChannel moderateEnabled file db
    = (Next (response_file file), db', t)
    /\ db' !! pf_fullId file
       = Some {| db_value := ""; db_metadata := Some metadata |}
    /\ recorded env hfChannel file metadata
    /\ forall key, key <> pf_fullId file -> db' !! key = db !! key.
Proof.
  unfold record_file, recorded.
  destruct moderateEnabled.
  - unfold moderate_file.
    destruct (moderateContent env _) as [label|];
      unfold bind, db_put, emit, ret; cbn.
    + do 3 eexists. split; [reflexivity|]. split; [apply lookup_insert_eq|].
      split; [right; eauto|].
      intros key Hne. now rewrite !lookup_insert_ne by congruence.
    + do 3 eexists. split; [reflexivity|]. split; [apply lookup_insert_eq|].
      split; [now left|].
      intros key Hne. now rewrite lookup_insert_ne by congruence.
  - unfold bind, db_put, emit, ret; cbn.
    do 3 eexists. split; [reflexivity|]. split; [apply lookup_insert_eq|].
    split; [now left|].
    intros key Hne. now rewrite lookup_insert_ne by congruence.
Qed.

(** The second loop leaves a record under the target path of every file,
    and no other key is touched. *)
Lemma record_files_db env req hfChannel moderateEnabled prepared db :
  NoDup (map pf_fullId prepared) ->
  exists db' t,
    record_files env req hfChannel moderateEnabled prepared db
    = (Next (map response_file prepared), db', t)
    /\ (forall file,
          file ∈ prepared ->
          exists metadata,
            db' !! pf_fullId file
            = Some {| db_value := ""; db_metadata := Some metadata |}
            /\ recorded env hfChannel file metadata)
    /\ (forall key, key ∉ map pf_fullId prepared -> db' !! key = db !! key).
Proof.
  revert db. induction prepared as [|file rest IH]; intros db Hnd.
  - exists db, []. split; [reflexivity|]. split; [|reflexivity].
    intros file Hin. now apply elem_of_nil in Hin.
  - cbn [map] in Hnd. apply NoDup_cons in Hnd as [Hfresh Hnd].
    destruct (record_file_db env req hfChannel moderateEnabled file db)
      as (db1 & t1 & metadata & Hrun & Hat & Hrec & Hother).
    destruct (IH db1 Hnd) as (db2 & t2 & Hrest & Hfiles & Hkeys).
    cbn [record_files]. rewrite (bind_next _ _ _ _ _ _ Hrun).
    rewrite (bind_next _ _ _ _ _ _ Hrest). unfold ret.
    do 2 eexists. split; [reflexivity|]. split.
    + intros f Hin. apply elem_of_cons in Hin as [->|Hin].
      * exists metadata. split; [|exact Hrec].
        now rewrite (Hkeys _ Hfresh).
      * exact (Hfiles _ Hin).
    + intros key Hkey. cbn [map] in Hkey.
      apply not_elem_of_cons in Hkey as [Hne Hkey].
      now rewrite (Hkeys _ Hkey), (Hother _ Hne).
Qed.

Lemma idempotencyKey_reserved requestId key :
  idempotencyKey_of requestId = Some key ->
  Str.startsWith key RESERVED_PREFIX = true.
Proof.
  destruct requestId as [|rid|]; cbn [idempotencyKey_of]; try discriminate.
  destruct (Str.is_empty rid); [discriminate|]. now intros [= <-].
Qed.

Lemma recorded_fields env hfChannel file metadata :
  recorded env hfChannel file metadata ->
  md_FileName metadata = md_FileName (pf_metadata file)
  /\ md_FileType metadata = md_FileType (pf_metadata file)
  /\ md_FileSizeBytes metadata = md_FileSizeBytes (pf_metadata file)
  /\ md_Channel metadata = Some "HuggingFace"
  /\ md_HfRepo metadata = ch_repo hfChannel
  /\ md_HfFilePath metadata = Some (pf_filePath file).
Proof. intros [->|[label ->]]; repeat split. Qed.

(** X9: after a success that is not a replay, every file of the batch has
    its record in the store: under its target path [folder/name] there is
    an entry with the empty value whose metadata carries the normalized
    name, the estimated size in bytes, the channel [HuggingFace] and the
    target path as the path in the repository.  The entry of the ledger,
    written last, does not overwrite a record. *)
Theorem listed_files_recorded
    (env : Env) (req : Request) (db : gmap string DbEntry)
    (body : Body) (files : list FileInput) (folder : string) :
  passes_checks env req body files folder ->
  (forall payload,
     ledger_state env (idempotencyKey_of (body_requestId body)) db
     <> Hit payload) ->
  json_field "success" (resp_body (out_response (onRequestPost env req db)))
  = Some (JBool true) ->
  Forall (fun fileInput =>
            exists fileName metadata,
              normalizeFileName (fi_name fileInput) = OK fileName
              /\ out_db (onRequestPost env req db)
                 !! fullId_of folder fileName
                 = Some {| db_value := ""; db_metadata := Some metadata |}
              /\ md_FileName metadata = fileName
              /\ Some (md_FileSizeBytes metadata) = entry_size fileInput
              /\ md_Channel metadata = Some "HuggingFace"
              /\ md_HfFilePath metadata = Some (fullId_of folder fileName))
         files.
Proof.
  intros Hpass Hmiss. unfold onRequestPost.
  destruct (handle_runs _ _ db _ _ _ Hpass)
    as [(payload & Hstate & _)
       |(db0 & t0 & _ & _ &
         [(step & -> & Hstep)
         |(hfChannel & uploadAddress & prepared & _ & _ & Hwalk & ->)])].
  - now destruct (Hmiss payload).
  - destruct step as [r|r|e]; [contradiction | |]; cbn; intros Hsuccess.
    + now destruct (fails_with_not_success _ _ _ Hstep).
    + now destruct (toErrorResponse_not_success _ _ Hsuccess).
  - pose proof (commit_batch_cases env req body
                  (idempotencyKey_of (body_requestId body))
                  hfChannel prepared db0) as Hcommit.
    cbv zeta in Hcommit.
    destruct (uploadFilesInSingleCommit env hfChannel
                (map commit_file prepared) _) as [uploadResult|e].
    2: { rewrite Hcommit. cbn. intros Hsuccess.
         now destruct (toErrorResponse_not_success _ _ Hsuccess). }
    destruct (fetchSecurityConfig env) as [moderateEnabled|e].
    2: { rewrite Hcommit. cbn. intros Hsuccess.
         now destruct (toErrorResponse_not_success _ _ Hsuccess). }
    destruct Hcommit as (db1 & t1 & Hrecord & _ & ->).
    cbn [out_db]. intros _.
    pose proof (prepareFiles_prepared_from _ _ _ Hwalk) as Hfrom.
    pose proof (prepared_paths _ _ _ Hfrom) as Hpaths.
    cbn [walk_ctx wc_normalizedFolder] in Hpaths.
    assert (Hnd : NoDup (map pf_fullId prepared)).
    { rewrite Hpaths.
      apply prepareFiles_ok_inv in Hwalk as (st & Hwalk & _).
      now apply walk_paths in Hwalk as (Hnd & _). }
    destruct (record_files_db env req hfChannel moderateEnabled prepared db0
                Hnd) as (db1' & t1' & Hrecord' & Hfiles & _).
    rewrite Hrecord in Hrecord'. injection Hrecord' as <- <-.
    assert (Hall : Forall (fun file =>
                     exists metadata,
                       db1 !! pf_fullId file
                       = Some {| db_value := ""; db_metadata := Some metadata |}
                       /\ recorded env hfChannel file metadata) prepared).
    { apply Forall_forall. exact Hfiles. }
    pose proof (pc_folder _ _ _ _ _ Hpass) as Hfolder.
    clear Hfiles Hrecord Hpaths Hnd Hpass Hwalk.
    match goal with
    | |- context [match idempotencyKey_of ?r with
                  | Some key => <[key:=?entry]> db1
                  | None => db1
                  end] =>
        set (db2 := match idempotencyKey_of r with
                    | Some key => <[key:=entry]> db1
                    | None => db1
                    end)
    end.
    assert (Hdb2 : forall key,
               Str.startsWith key RESERVED_PREFIX = false ->
               db2 !! key = db1 !! key).
    { intros key Hkey. subst db2.
      destruct (idempotencyKey_of (body_requestId body)) as [ledgerKey|]
        eqn:Hledger; [|reflexivity].
      apply lookup_insert_ne. intros ->.
      apply idempotencyKey_reserved in Hledger. congruence. }
    clearbody db2.
    induction Hfrom as [|f file files' prepared' Hf _ IH]; [constructor|].
    apply Forall_cons in Hall as [(metadata & Hat & Hrec) Hall].
    constructor; [|exact (IH Hall)].
    pose proof (prepared_from_size _ _ _ Hf) as (Hsize & _ & _ & Hbytes).
    destruct Hf as (fileName & b & bytes & Hn & _ & _ & _ & _ & _ & Hid
                    & Hpath & _ & _ & _ & Hname & _).
    cbn [walk_ctx wc_normalizedFolder] in Hid, Hpath.
    apply recorded_fields in Hrec as (HN & _ & HS & HC & _ & HP).
    exists fileName, metadata. split; [exact Hn|]. split.
    + rewrite <- Hid, Hdb2; [exact Hat|].
      pose proof (path_not_reserved _ _ f Hfolder) as Hres.
      unfold path_reserved, entry_path in Hres. now rewrite Hn, <- Hid in Hres.
    + rewrite HN, HS, HC, HP, Hname, Hpath, Hbytes, Hsize. auto.
Qed.

Lemma listed_files_recorded_witness :
  let req := demo_request demo_files (RidString "batch-001") in
  Forall (fun fileInput =>
            exists fileName metadata,
              normalizeFileName (fi_name fileInput) = OK fileName
              /\ out_db (onRequestPost demo_env req ∅)
                 !! fullId_of "demo" fileName
                 = Some {| db_value := ""; db_metadata := Some metadata |}
              /\ md_FileName metadata = fileName
              /\ Some (md_FileSizeBytes metadata) = entry_size fileInput
              /\ md_Channel metadata = Some "HuggingFace"
              /\ md_HfFilePath metadata = Some (fullId_of "demo" fileName))
         demo_files.
Proof.
  apply (listed_files_recorded demo_env
           (demo_request demo_files (RidString "batch-001")) ∅
           (demo_body demo_files (RidString "batch-001")) demo_files "demo").
  - constructor; try reflexivity; [discriminate | vm_compute; discriminate].
  - intros payload. vm_compute. discriminate.
  - vm_compute. reflexivity.
Defined.

(** ** Moderation *)

Lemma agree_but_labels_refl db : agree_but_labels db db.
Proof.
  intros key. destruct (db !! key) as [entry|]; [|exact I].
  split; [reflexivity|]. now destruct (db_metadata entry).
Qed.

(** Two runs that part after a common beginning agree on the step they end
    with, and the stores they leave differ in labels at most. *)
Lemma bind_agree {A B} (m : M A) (k k' : A -> M B) db :
  (forall a db1,
     (k a db1).1.1 = (k' a db1).1.1
     /\ agree_but_labels (k a db1).1.2 (k' a db1).1.2) ->
  (bind m k db).1.1 = (bind m k' db).1.1
  /\ agree_but_labels (bind m k db).1.2 (bind m k' db).1.2.
Proof.
  intros Hk. unfold bind. destruct (m db) as [[[a|r|e] db1] t];
    [|split; [reflexivity | apply agree_but_labels_refl]..].
  specialize (Hk a db1).
  destruct (k a db1) as [[step db2] t2], (k' a db1) as [[step' db2'] t2'].
  exact Hk.
Qed.

Lemma recorded_same_but_label env hfChannel file moderateEnabled moderate
    moderateEnabled' moderate' metadata metadata' :
  recorded (with_moderation env moderateEnabled moderate) hfChannel file
           metadata ->
  recorded (with_moderation env moderateEnabled' moderate') hfChannel file
           metadata' ->
  same_but_label metadata metadata'.
Proof.
  unfold same_but_label.
  intros [->|[label ->]] [->|[label' ->]]; reflexivity.
Qed.

(** The second loop under two classifiers: the records are put under the
    same keys, with the same values, and with metadata that differ in
    their label at most. *)
Lemma record_files_moderation env req hfChannel prepared
    moderateEnabled moderate moderateEnabled' moderate' enabled enabled'
    db db' :
  agree_but_labels db db' ->
  exists d t d' t',
    record_files (with_moderation env moderateEnabled moderate) req hfChannel
                 enabled prepared db
    = (Next (map response_file prepared), d, t)
    /\ record_files (with_moderation env moderateEnabled' moderate') req
                    hfChannel enabled' prepared db'
       = (Next (map response_file prepared), d', t')
    /\ agree_but_labels d d'.
Proof.
  revert db db'. induction prepared as [|file rest IH]; intros db db' Hdb.
  - exists db, [], db', []. auto.
  - destruct (record_file_db (with_moderation env moderateEnabled moderate)
                req hfChannel enabled file db)
      as (db1 & t1 & metadata & Hrun & Hat & Hrec & Hother).
    destruct (record_file_db (with_moderation env moderateEnabled' moderate')
                req hfChannel enabled' file db')
      as (db1' & t1' & metadata' & Hrun' & Hat' & Hrec' & Hother').
    assert (Hdb1 : agree_but_labels db1 db1').
    { intros key. destruct (decide (key = pf_fullId file)) as [->|Hne].
      - rewrite Hat, Hat'. split; [reflexivity|]. cbn [db_metadata].
        exact (recorded_same_but_label _ _ _ _ _ _ _ _ _ Hrec Hrec').
      - rewrite (Hother _ Hne), (Hother' _ Hne). apply Hdb. }
    destruct (IH _ _ Hdb1) as (d & t & d' & t' & Hrest & Hrest' & Hd).
    cbn [record_files].
    rewrite (bind_next _ _ _ _ _ _ Hrun), (bind_next _ _ _ _ _ _ Hrest).
    rewrite (bind_next _ _ _ _ _ _ Hrun'), (bind_next _ _ _ _ _ _ Hrest').
    unfold ret. do 4 eexists. split; [reflexivity|].
    split; [reflexivity | exact Hd].
Qed.

Lemma commit_batch_moderation env req body idempotencyKey hfChannel prepared
    db moderateEnabled moderate moderateEnabled' moderate' :
  (commit_batch (with_moderation env (OK moderateEnabled) moderate)
                req body idempotencyKey hfChannel prepared db).1.1
  = (commit_batch (with_moderation env (OK moderateEnabled') moderate')
                  req body idempotencyKey hfChannel prepared db).1.1
  /\ agree_but_labels
       (commit_batch (with_moderation env (OK moderateEnabled) moderate)
                     req body idempotencyKey hfChannel prepared db).1.2
       (commit_batch (with_moderation env (OK moderateEnabled') moderate')
                     req body idempotencyKey hfChannel prepared db).1.2.
Proof.
  pose proof (commit_batch_cases
                (with_moderation env (OK moderateEnabled) moderate)
                req body idempotencyKey hfChannel prepared db) as H.
  pose proof (commit_batch_cases
                (with_moderation env (OK moderateEnabled') moderate')
                req body idempotencyKey hfChannel prepared db) as H'.
  cbv zeta in H, H'.
  cbn [with_moderation uploadFilesInSingleCommit fetchSecurityConfig
       JSON_stringify] in H, H'.
  destruct (uploadFilesInSingleCommit env hfChannel
              (map commit_file prepared) _) as [uploadResult|e].
  2: { rewrite H, H'. split; [reflexivity | apply agree_but_labels_refl]. }
  destruct H as (db1 & t1 & Hrun & _ & ->).
  destruct H' as (db1' & t1' & Hrun' & _ & ->).
  split; [reflexivity|]. cbn [fst snd].
  destruct (record_files_moderation env req hfChannel prepared
              (OK moderateEnabled) moderate (OK moderateEnabled') moderate'
              moderateEnabled moderateEnabled' db db
              (agree_but_labels_refl db))
    as (d & t & d' & t' & Hd & Hd' & Hagree).
  rewrite Hrun in Hd. injection Hd as <- <-.
  rewrite Hrun' in Hd'. injection Hd' as <- <-.
  destruct idempotencyKey as [ledgerKey|]; [|exact Hagree].
  intros key. destruct (decide (key = ledgerKey)) as [->|Hne].
  - rewrite !lookup_insert_eq. now split.
  - rewrite !lookup_insert_ne by congruence. apply Hagree.
Qed.

Lemma handle_moderation env req db moderateEnabled moderate
    moderateEnabled' moderate' :
  (handle (with_moderation env (OK moderateEnabled) moderate) req db).1.1
  = (handle (with_moderation env (OK moderateEnabled') moderate') req db).1.1
  /\ agree_but_labels
       (handle (with_moderation env (OK moderateEnabled) moderate)
               req db).1.2
       (handle (with_moderation env (OK moderateEnabled') moderate')
               req db).1.2.
Proof.
  pose proof (agree_but_labels_refl db) as Hdb.
  unfold handle.
  change (userAuthCheck (with_moderation env _ _)) with (userAuthCheck env).
  change (limits_of (with_moderation env (OK moderateEnabled) moderate))
    with (limits_of env).
  change (limits_of (with_moderation env (OK moderateEnabled') moderate'))
    with (limits_of env).
  destruct (userAuthCheck env) as [[|]|e]; [|split; [reflexivity | exact Hdb]..].
  rewrite !bind_call_ok. cbn [negb].
  destruct (req_json req) as [body|]; [|split; [reflexivity | exact Hdb]].
  destruct (body_files body) as [[|f files]|];
    [split; [reflexivity | exact Hdb] | | split; [reflexivity | exact Hdb]].
  destruct (maxFiles (limits_of env) <? Z.of_nat (length (f :: files)));
    [split; [reflexivity | exact Hdb]|].
  destruct (requestId_ok (body_requestId body)); cbn [negb];
    [|split; [reflexivity | exact Hdb]].
  destruct (normalizeUploadFolder (body_uploadFolder body)) as [folder|e];
    [|split; [reflexivity | exact Hdb]].
  rewrite !bind_call_ok.
  change (ledger_lookup (with_moderation env (OK moderateEnabled) moderate))
    with (ledger_lookup env).
  change (ledger_lookup (with_moderation env (OK moderateEnabled') moderate'))
    with (ledger_lookup env).
  change (prepare_batch (with_moderation env (OK moderateEnabled) moderate))
    with (prepare_batch env).
  change (prepare_batch (with_moderation env (OK moderateEnabled') moderate'))
    with (prepare_batch env).
  apply bind_agree. intros _ db1. apply bind_agree. intros batch db2.
  apply commit_batch_moderation.
Qed.

(** X10: moderation is best effort.  Whether moderation is switched on or
    not, and whatever the classifier answers, also when it throws on some
    or all of the files, the response of the handler is the same, and the
    store the run leaves is the same but for labels: it holds entries
    under the same keys, every entry has the same value, and the metadata
    of an entry are the same in every field other than [Label]. *)
Theorem moderation_is_best_effort
    (env : Env) (req : Request) (db : gmap string DbEntry)
    (moderateEnabled moderateEnabled' : bool)
    (moderate moderate' : string -> option string) :
  out_response
    (onRequestPost (with_moderation env (OK moderateEnabled) moderate) req db)
  = out_response
      (onRequestPost (with_moderation env (OK moderateEnabled') moderate')
                     req db)
  /\ agree_but_labels
       (out_db (onRequestPost
                  (with_moderation env (OK moderateEnabled) moderate) req db))
       (out_db (onRequestPost
                  (with_moderation env (OK moderateEnabled') moderate')
                  req db)).
Proof.
  destruct (handle_moderation env req db moderateEnabled moderate
              moderateEnabled' moderate') as [Hstep Hagree].
  unfold onRequestPost.
  destruct (handle (with_moderation env (OK moderateEnabled) moderate) req db)
    as [[step db1] t1].
  destruct (handle (with_moderation env (OK moderateEnabled') moderate')
                   req db) as [[step' db1'] t1'].
  cbn in Hstep, Hagree |- *. now subst.
Qed.

(** ** The channel *)

(** X11: the channel that [selectHuggingFaceChannel] gives is one of the
    configured channels, and it bears the requested name when a name is
    requested.  No channel is given only when none is configured, when a
    name is requested that no configured channel bears, or when the
    channel is drawn for load balancing with a number that is not below 1:
    for the numbers below 1, which are those that [Math.random()] returns,
    the index [Math.floor(Math.random() * channels.length)] is within the
    list, and a request that names no channel gets one whenever one is
    configured. *)
Theorem selectHuggingFaceChannel_configured
    (hfSettings : HfSettings) (channelName : option string)
    (random : nat * nat) :
  match selectHuggingFaceChannel hfSettings channelName random with
  | Some hfChannel =>
      hfChannel ∈ hf_channels hfSettings
      /\ (truthy_str channelName = true -> ch_name hfChannel = channelName)
  | None =>
      hf_channels hfSettings = []
      \/ (truthy_str channelName = true
          /\ forall hfChannel,
               hfChannel ∈ hf_channels hfSettings ->
               ch_name hfChannel <> channelName)
      \/ (truthy_str channelName = false
          /\ hf_loadBalance_enabled hfSettings = true
          /\ ~ (fst random < snd random)%nat)
  end.
Proof.
  unfold selectHuggingFaceChannel.
  destruct (hf_channels hfSettings) as [|first rest] eqn:Hch; [now left|].
  destruct (truthy_str channelName) eqn:Hname.
  - destruct (find _ (first :: rest)) as [hfChannel|] eqn:Hfind.
    + apply find_some in Hfind as [Hin Heq]. split.
      * now apply list_elem_of_In.
      * intros _. now apply bool_decide_eq_true in Heq.
    + right. left. split; [reflexivity|]. intros hfChannel Hin Heq.
      apply list_elem_of_In in Hin.
      pose proof (find_none _ _ Hfind _ Hin) as Hno. cbn beta in Hno.
      now rewrite bool_decide_eq_true_2 in Hno.
  - destruct (hf_loadBalance_enabled hfSettings).
    + destruct (nth_error (first :: rest) _) as [hfChannel|] eqn:Hnth.
      * split; [|discriminate].
        apply list_elem_of_In. exact (nth_error_In _ _ Hnth).
      * right. right. do 2 (split; [reflexivity|]). intros Hbelow.
        apply nth_error_None in Hnth.
        assert (fst random * length (first :: rest) / snd random
                < length (first :: rest))%nat; [|lia].
        apply Nat.Div0.div_lt_upper_bound. cbn [length]. nia.
    + split; [apply list_elem_of_here | discriminate].
Qed.

(** ** The address of a file *)

Lemma includes_app (a b : string) c :
  Str.includes (a ++ b) c = Str.includes a c || Str.includes b c.
Proof.
  induction a as [|d r IH]; [now rewrite append_nil_l|].
  rewrite append_cons. cbn [Str.includes]. now rewrite IH, orb_assoc.
Qed.

Lemma list_ascii_of_string_app (a b : string) :
  list_ascii_of_string (a ++ b)
  = (list_ascii_of_string a ++ list_ascii_of_string b)%list.
Proof.
  induction a as [|d r IH]; [now rewrite append_nil_l|].
  rewrite append_cons. cbn [list_ascii_of_string]. now rewrite IH.
Qed.

Lemma hex_digit_alnum n : is_alnum (hex_digit n) = true.
Proof.
  unfold hex_digit.
  generalize (N.to_nat n) as k. intros k.
  do 16 (destruct k as [|k]; [reflexivity|]). reflexivity.
Qed.

Lemma percent_byte_encoded b :
  forallb is_encoded_char (list_ascii_of_string (percent_byte b)) = true.
Proof.
  unfold percent_byte. cbn [list_ascii_of_string forallb].
  unfold is_encoded_char at 2 3. unfold is_uri_unreserved.
  now rewrite !hex_digit_alnum.
Qed.

Lemma encodeURIComponent_char_encoded c :
  forallb is_encoded_char (list_ascii_of_string (encodeURIComponent_char c))
  = true.
Proof.
  unfold encodeURIComponent_char.
  destruct (is_uri_unreserved c) eqn:E.
  - cbn. unfold is_encoded_char. now rewrite E.
  - destruct (Str.code c <? 128)%N; [apply percent_byte_encoded|].
    rewrite list_ascii_of_string_app, forallb_app.
    now rewrite !percent_byte_encoded.
Qed.

Lemma encodeURIComponent_encoded s :
  forallb is_encoded_char (list_ascii_of_string (encodeURIComponent s)) = true.
Proof.
  induction s as [|c r IH]; [reflexivity|].
  cbn [encodeURIComponent].
  rewrite list_ascii_of_string_app, forallb_app.
  now rewrite encodeURIComponent_char_encoded, IH.
Qed.

Lemma encoded_no_slash s :
  forallb is_encoded_char (list_ascii_of_string s) = true ->
  Str.includes s "/" = false.
Proof.
  induction s as [|c r IH]; [reflexivity|].
  cbn [list_ascii_of_string forallb Str.includes].
  intros H. apply andb_true_iff in H as [Hc Hr]. rewrite (IH Hr).
  destruct (Ascii.eqb_spec c "/") as [->|_]; [discriminate Hc | reflexivity].
Qed.

Lemma concat_cons sep x y (l : list string) :
  String.concat (String sep "") (x :: y :: l)
  = x ++ String sep (String.concat (String sep "") (y :: l)).
Proof. reflexivity. Qed.

(** Joining and splitting again gives the parts back when none holds the
    separator. *)
Lemma split_concat sep (l : list string) :
  l <> [] ->
  Forall (fun s => Str.includes s sep = false) l ->
  Str.split sep (String.concat (String sep "") l) = l.
Proof.
  intros Hne Hall. induction Hall as [|x l Hx Hall IH]; [congruence|].
  destruct l as [|y l].
  - now apply split_no_separator.
  - rewrite concat_cons, split_app, (split_no_separator _ _ Hx).
    now rewrite IH.
Qed.

(** Splitting and joining again gives the text back. *)
Lemma concat_split sep s :
  String.concat (String sep "") (Str.split sep s) = s.
Proof.
  induction s as [|c r IH]; [reflexivity|].
  cbn [Str.split]. destruct (Ascii.eqb_spec c sep) as [->|Hne].
  - pose proof (split_non_empty sep r) as Hr.
    destruct (Str.split sep r) as [|h t] eqn:E; [congruence|].
    rewrite concat_cons, IH. reflexivity.
  - pose proof (split_non_empty sep r) as Hr.
    destruct (Str.split sep r) as [|h t] eqn:E; [congruence|].
    rewrite <- IH. destruct t as [|y t]; [reflexivity|].
    now rewrite !concat_cons.
Qed.

(** X12: [encodeFileIdForUrl] keeps the segments of a path apart: the
    encoded path has as many segments as the path, each the encoding of
    the segment at the same place, so a slash of the result is always a
    separator of the path and never part of a name; and the result is made
    of unreserved characters, percent escapes and slashes only. *)
Theorem encodeFileIdForUrl_segments (fileId : string) :
  Str.split "/" (encodeFileIdForUrl fileId)
  = map encodeURIComponent (Str.split "/" fileId)
  /\ forallb (fun c => is_encoded_char c || Ascii.eqb c "/")
             (list_ascii_of_string (encodeFileIdForUrl fileId))
     = true.
Proof.
  unfold encodeFileIdForUrl. split.
  - apply split_concat.
    + pose proof (split_non_empty "/" fileId).
      now destruct (Str.split "/" fileId).
    + apply Forall_map, Forall_forall. intros segment _.
      apply encoded_no_slash, encodeURIComponent_encoded.
  - induction (Str.split "/" fileId) as [|x l IH]; [reflexivity|].
    cbn [map]. destruct l as [|y l].
    + cbn [String.concat]. apply forallb_forall. intros c Hin.
      pose proof (encodeURIComponent_encoded x) as Hx.
      rewrite forallb_forall in Hx. now rewrite (Hx _ Hin).
    + cbn [map] in IH |- *. rewrite concat_cons.
      rewrite list_ascii_of_string_app, forallb_app.
      cbn [list_ascii_of_string forallb]. rewrite IH.
      rewrite andb_true_r.
      apply forallb_forall. intros c Hin.
      pose proof (encodeURIComponent_encoded x) as Hx.
      rewrite forallb_forall in Hx. now rewrite (Hx _ Hin).
Qed.

Lemma encodeURIComponent_unreserved s :
  forallb is_uri_unreserved (list_ascii_of_string s) = true ->
  encodeURIComponent s = s.
Proof.
  induction s as [|c r IH]; [reflexivity|].
  cbn [list_ascii_of_string forallb encodeURIComponent].
  intros H. apply andb_true_iff in H as [Hc Hr].
  unfold encodeURIComponent_char. now rewrite Hc, (IH Hr).
Qed.

Lemma split_chars (p : ascii -> bool) sep s :
  forallb (fun c => p c || Ascii.eqb c sep) (list_ascii_of_string s) = true ->
  Forall (fun segment => forallb p (list_ascii_of_string segment) = true)
         (Str.split sep s).
Proof.
  induction s as [|c r IH]; [repeat constructor|].
  cbn [list_ascii_of_string forallb Str.split].
  intros H. apply andb_true_iff in H as [Hc Hr]. specialize (IH Hr).
  destruct (Ascii.eqb c sep) eqn:E.
  - constructor; [reflexivity | exact IH].
  - rewrite orb_false_r in Hc.
    destruct (Str.split sep r) as [|h t]; [repeat constructor; now cbn; rewrite Hc|].
    apply Forall_cons in IH as [Hh Ht]. constructor; [|exact Ht].
    cbn [list_ascii_of_string forallb]. now rewrite Hc, Hh.
Qed.

(** X13: a path made of unreserved characters and slashes only, letters,
    digits and [- _ . ! ~ * ' ( )], is its own address: [encodeFileIdForUrl]
    gives it back unchanged. *)
Theorem encodeFileIdForUrl_plain (fileId : string) :
  forallb (fun c => is_uri_unreserved c || Ascii.eqb c "/")
          (list_ascii_of_string fileId) = true ->
  encodeFileIdForUrl fileId = fileId.
Proof.
  intros H. unfold encodeFileIdForUrl.
  rewrite <- (concat_split "/" fileId) at 2. f_equal.
  apply split_chars in H.
  induction H as [|segment l Hs _ IH]; [reflexivity|].
  cbn [map]. now rewrite (encodeURIComponent_unreserved _ Hs), IH.
Qed.

Lemma encodeFileIdForUrl_plain_witness :
  encodeFileIdForUrl "demo/2024/a_(1).jpg" = "demo/2024/a_(1).jpg".
Proof.
  apply (encodeFileIdForUrl_plain "demo/2024/a_(1).jpg"). reflexivity.
Defined.

(** ** The keys a run touches *)

Lemma within_keys_mono paths paths' ledgerKey ev :
  (forall key, key ∈ paths -> key ∈ paths') ->
  within_keys paths ledgerKey ev -> within_keys paths' ledgerKey ev.
Proof.
  intros Hsub. destruct ev; cbn [within_keys]; auto.
  intros [(Hin & Hv & Hm)|H]; [left | right]; auto.
Qed.

Lemma record_file_trace env req hfChannel moderateEnabled file ledgerKey db :
  exists db' t,
    record_file env req hfChannel moderateEnabled file db
    = (Next (response_file file), db', t)
    /\ Forall (within_keys [pf_fullId file] ledgerKey) t.
Proof.
  assert (Hin : pf_fullId file ∈ [pf_fullId file]) by apply list_elem_of_here.
  assert (Hput : forall metadata,
             within_keys [pf_fullId file] ledgerKey
               (EvDbPut (pf_fullId file)
                  {| db_value := ""; db_metadata := Some metadata |})).
  { intros metadata. left. split; [exact Hin|]. split; [reflexivity|].
    discriminate. }
  unfold record_file. destruct moderateEnabled.
  - unfold moderate_file.
    destruct (moderateContent env _) as [label|];
      unfold bind, db_put, emit, ret; cbn;
      do 2 eexists; (split; [reflexivity|]);
      repeat (apply Forall_cons; split); try apply Forall_nil;
      first [apply Hput | exact I | exact Hin].
  - unfold bind, db_put, emit, ret; cbn.
    do 2 eexists. split; [reflexivity|].
    repeat (apply Forall_cons; split); try apply Forall_nil;
      first [apply Hput | exact I | exact Hin].
Qed.

Lemma record_files_trace env req hfChannel moderateEnabled prepared
    ledgerKey db :
  exists db' t,
    record_files env req hfChannel moderateEnabled prepared db
    = (Next (map response_file prepared), db', t)
    /\ Forall (within_keys (map pf_fullId prepared) ledgerKey) t.
Proof.
  revert db. induction prepared as [|file rest IH]; intros db.
  - exists db, []. split; [reflexivity | constructor].
  - destruct (record_file_trace env req hfChannel moderateEnabled file
                ledgerKey db) as (db1 & t1 & Hrun & Ht1).
    destruct (IH db1) as (db2 & t2 & Hrest & Ht2).
    cbn [record_files]. rewrite (bind_next _ _ _ _ _ _ Hrun).
    rewrite (bind_next _ _ _ _ _ _ Hrest). unfold ret.
    do 2 eexists. split; [reflexivity|].
    rewrite app_nil_r. apply Forall_app. split.
    + eapply Forall_impl; [exact Ht1|]. intros ev. apply within_keys_mono.
      intros key Hkey. apply list_elem_of_singleton in Hkey as ->.
      apply list_elem_of_here.
    + eapply Forall_impl; [exact Ht2|]. intros ev. apply within_keys_mono.
      intros key Hkey. cbn [map]. now apply list_elem_of_further.
Qed.

Lemma ledger_state_corrupt_key env idempotencyKey db key :
  ledger_state env idempotencyKey db = Corrupt key ->
  idempotencyKey = Some key.
Proof.
  unfold ledger_state. destruct idempotencyKey as [k|]; [|discriminate].
  destruct (db !! k) as [entry|]; [|discriminate].
  destruct (Str.is_empty _); [discriminate|].
  destruct (JSON_parse env _) as [[]|]; congruence.
Qed.

(** X14: a run touches no key but those of its request.  For a request
    that passes the checks at the front, every record is put under the
    target path of one of the files, with the empty value and metadata;
    the ledger is deleted and written under the key of the request
    identifier only; the bookkeeping is scheduled for target paths only.  *)
Theorem writes_within_request
    (env : Env) (req : Request) (db : gmap string DbEntry)
    (body : Body) (files : list FileInput) (folder : string) :
  passes_checks env req body files folder ->
  Forall (within_keys (entry_paths folder files)
                      (idempotencyKey_of (body_requestId body)))
         (out_trace (onRequestPost env req db)).
Proof.
  intros Hpass. unfold onRequestPost.
  destruct (handle_runs _ _ db _ _ _ Hpass)
    as [(payload & _ & ->)
       |(db0 & t0 & _ & Hlookup &
         [(step & -> & _)
         |(hfChannel & uploadAddress & prepared & _ & _ & Hwalk & ->)])].
  - constructor.
  - cbn [out_trace].
    destruct Hlookup as [[_ ->]|(key & Hstate & _ & ->)]; [constructor|].
    repeat constructor. cbn. exact (ledger_state_corrupt_key _ _ _ _ Hstate).
  - assert (Ht0 : Forall (within_keys (entry_paths folder files)
                            (idempotencyKey_of (body_requestId body))) t0).
    { destruct Hlookup as [[_ ->]|(key & Hstate & _ & ->)]; [constructor|].
      repeat constructor. cbn.
      exact (ledger_state_corrupt_key _ _ _ _ Hstate). }
    pose proof (prepared_paths _ _ _ (prepareFiles_prepared_from _ _ _ Hwalk))
      as Hpaths.
    cbn [walk_ctx wc_normalizedFolder] in Hpaths. rewrite <- Hpaths.
    rewrite <- Hpaths in Ht0.
    pose proof (commit_batch_cases env req body
                  (idempotencyKey_of (body_requestId body))
                  hfChannel prepared db0) as Hcommit.
    cbv zeta in Hcommit.
    destruct (uploadFilesInSingleCommit env hfChannel
                (map commit_file prepared) _) as [uploadResult|e].
    2: { rewrite Hcommit. cbn [out_trace]. apply Forall_app. split; [easy|].
         repeat constructor. }
    destruct (fetchSecurityConfig env) as [moderateEnabled|e].
    2: { rewrite Hcommit. cbn [out_trace]. apply Forall_app. split; [easy|].
         repeat constructor. }
    destruct Hcommit as (db1 & t1 & Hrecord & _ & ->).
    destruct (record_files_trace env req hfChannel moderateEnabled prepared
                (idempotencyKey_of (body_requestId body)) db0)
      as (db1' & t1' & Hrecord' & Ht1).
    rewrite Hrecord in Hrecord'. injection Hrecord' as <- <-.
    cbn [out_trace]. apply Forall_app. split; [exact Ht0|].
    constructor; [exact I|]. apply Forall_app. split; [exact Ht1|].
    destruct (idempotencyKey_of (body_requestId body)) as [key|];
      [|constructor].
    apply Forall_cons. split; [|constructor]. right. now split.
Qed.

Lemma writes_within_request_witness :
  Forall (within_keys (entry_paths "demo" demo_files)
                      (idempotencyKey_of (RidString "batch-001")))
         (out_trace (onRequestPost demo_env
                       (demo_request demo_files (RidString "batch-001"))
                       corrupt_db)).
Proof.
  apply (writes_within_request demo_env
           (demo_request demo_files (RidString "batch-001")) corrupt_db
           (demo_body demo_files (RidString "batch-001")) demo_files "demo").
  constructor; try reflexivity; [discriminate | vm_compute; discriminate].
Defined.

(** ** Mime types *)

Lemma mime_normalize_cases mimeType t :
  MimeType.normalizeMimeType mimeType = Some t ->
  exists m, mimeType = Some m /\ t = Str.trim m
            /\ MimeType.MIME_PATTERN_test t = true.
Proof.
  unfold MimeType.normalizeMimeType. destruct mimeType as [m|]; [|discriminate].
  destruct (Str.is_empty (Str.trim m)); cbn [orb]; [discriminate|].
  destruct (MimeType.MIME_PATTERN_test (Str.trim m)) eqn:E; cbn [negb];
    [|discriminate].
  intros [= <-]. eauto.
Qed.

(** X15: what [normalizeMimeType] of the utilities gives is a mime type:
    it is not empty, it matches [MIME_PATTERN], it has no white space at
    either end, and normalizing it again gives it back. *)
Theorem mime_normalize_idempotent (mimeType : option string) (t : string) :
  MimeType.normalizeMimeType mimeType = Some t ->
  t <> ""
  /\ MimeType.MIME_PATTERN_test t = true
  /\ Str.trim t = t
  /\ MimeType.normalizeMimeType (Some t) = Some t.
Proof.
  intros H. pose proof (normalizeMimeType_non_empty _ _ H) as Hne.
  apply mime_normalize_cases in H as (m & -> & -> & Hvalid).
  split; [now apply is_empty_false|]. split; [exact Hvalid|].
  split; [apply trim_idem|].
  unfold MimeType.normalizeMimeType. rewrite trim_idem, Hne, Hvalid.
  reflexivity.
Qed.

Lemma mime_normalize_idempotent_witness :
  "text/html; charset=utf-8" <> ""
  /\ MimeType.MIME_PATTERN_test "text/html; charset=utf-8" = true
  /\ Str.trim "text/html; charset=utf-8" = "text/html; charset=utf-8"
  /\ MimeType.normalizeMimeType (Some "text/html; charset=utf-8")
     = Some "text/html; charset=utf-8".
Proof.
  apply (mime_normalize_idempotent
           (Some "  text/html; charset=utf-8 ") "text/html; charset=utf-8").
  reflexivity.
Defined.

Lemma assoc_in key table v :
  MimeType.assoc key table = Some v -> In v (map snd table).
Proof.
  induction table as [|[k w] table IH]; cbn [MimeType.assoc map snd];
    [discriminate|].
  destruct (String.eqb k key); [intros [= ->]; now left | right; auto].
Qed.

Lemma lookup_extension_valid extension s :
  MimeType.lookup_extension extension = Some (MimeType.VStr s) ->
  MimeType.MIME_PATTERN_test s = true.
Proof.
  unfold MimeType.lookup_extension.
  destruct (MimeType.assoc extension MimeType.EXTENSION_MIME_MAP) as [v|]
    eqn:E.
  - destruct (Str.is_empty v); [discriminate|]. intros [= <-].
    apply assoc_in in E.
    assert (Hall : forallb MimeType.MIME_PATTERN_test
                     (map snd MimeType.EXTENSION_MIME_MAP) = true)
      by (vm_compute; reflexivity).
    rewrite forallb_forall in Hall. exact (Hall _ E).
  - destruct (existsb _ _); discriminate.
Qed.

Lemma inferMimeTypeFromFileName_valid fileName s :
  MimeType.inferMimeTypeFromFileName fileName = Some (MimeType.VStr s) ->
  MimeType.MIME_PATTERN_test s = true.
Proof.
  unfold MimeType.inferMimeTypeFromFileName.
  destruct fileName as [f|]; [|discriminate].
  destruct (Str.is_empty (Str.trim f)); [discriminate|].
  destruct (Str.is_empty _); [discriminate|].
  destruct (MimeType.lastIndexOf _ _) as [[|i]|]; try discriminate.
  destruct (_ =? _)%nat; [discriminate|].
  apply lookup_extension_valid.
Qed.

Lemma extractMimeTypeFromDataUrl_valid value t :
  MimeType.extractMimeTypeFromDataUrl value = Some t ->
  MimeType.MIME_PATTERN_test t = true.
Proof.
  unfold MimeType.extractMimeTypeFromDataUrl.
  destruct value as [v|]; [|discriminate].
  destruct (negb (Str.startsWith (Str.trim v) "data:")); [discriminate|].
  destruct (Str.indexOf (Str.trim v) ",") as [i|]; [|discriminate].
  destruct (i <=? 5)%nat; [discriminate|].
  intros H. now apply mime_normalize_cases in H as (m & _ & _ & Hvalid).
Qed.

(** X16: [resolveMimeType] gives a mime type.  When the configured default
    matches [MIME_PATTERN], as the built-in default does, and the extension
    of the file name is not the name of a property that the table
    inherits, the result is a string that matches [MIME_PATTERN], whatever
    the declared type, the data URL and the file name are: every value of
    [EXTENSION_MIME_MAP] is a mime type. *)
Theorem resolveMimeType_valid
    (mimeType fileName : option string) (options : MimeType.Options) :
  MimeType.MIME_PATTERN_test (MimeType.defaultMimeType_of options) = true ->
  (forall property,
     MimeType.inferMimeTypeFromFileName fileName
     <> Some (MimeType.VInherited property)) ->
  exists s,
    MimeType.resolveMimeType mimeType fileName options = MimeType.VStr s
    /\ MimeType.MIME_PATTERN_test s = true.
Proof.
  intros Hdefault Hown. unfold MimeType.resolveMimeType.
  destruct (MimeType.normalizeMimeType mimeType) as [declared|] eqn:Hdecl.
  - pose proof (normalizeMimeType_non_empty _ _ Hdecl) as Hne.
    apply mime_normalize_cases in Hdecl as (m & _ & _ & Hvalid).
    cbn [truthy_str default from_option id]. rewrite Hne. cbn [negb andb].
    destruct (MimeType.isOctetStreamMimeType (Some declared)); cbn [negb];
      [|eauto].
    destruct (MimeType.extractMimeTypeFromDataUrl _) as [fromDataUrl|] eqn:Hd.
    + cbn [truthy_str default from_option id].
      rewrite (extractMimeTypeFromDataUrl_non_empty _ _ Hd).
      cbn [negb]. eauto using extractMimeTypeFromDataUrl_valid.
    + cbn [truthy_str].
      destruct (MimeType.inferMimeTypeFromFileName fileName)
        as [[s|property]|] eqn:Hi.
      * eauto using inferMimeTypeFromFileName_valid.
      * now destruct (Hown property).
      * eauto.
  - cbn [truthy_str andb].
    destruct (MimeType.extractMimeTypeFromDataUrl _) as [fromDataUrl|] eqn:Hd.
    + cbn [truthy_str default from_option id].
      rewrite (extractMimeTypeFromDataUrl_non_empty _ _ Hd).
      cbn [negb]. eauto using extractMimeTypeFromDataUrl_valid.
    + cbn [truthy_str].
      destruct (MimeType.inferMimeTypeFromFileName fileName)
        as [[s|property]|] eqn:Hi.
      * eauto using inferMimeTypeFromFileName_valid.
      * now destruct (Hown property).
      * eauto.
Qed.

Lemma resolveMimeType_valid_witness :
  exists s,
    MimeType.resolveMimeType
      (Some "application/octet-stream") (Some "photos/cat.JPG?raw=1")
      {| MimeType.opt_dataUrlValue := None;
         MimeType.opt_defaultMimeType := None |}
    = MimeType.VStr s
    /\ MimeType.MIME_PATTERN_test s = true.
Proof.
  apply (resolveMimeType_valid
           (Some "application/octet-stream") (Some "photos/cat.JPG?raw=1")
           {| MimeType.opt_dataUrlValue := None;
              MimeType.opt_defaultMimeType := None |}).
  - reflexivity.
  - intros property. vm_compute. discriminate.
Defined.

Lemma trim_empty s :
  Str.is_empty (Str.trim s) = forallb Str.is_space (list_ascii_of_string s).
Proof.
  unfold Str.trim. induction s as [|c r IH]; [reflexivity|].
  cbn [Str.drop_leading list_ascii_of_string forallb].
  destruct (Str.is_space c) eqn:E; [exact IH|].
  cbn [Str.drop_trailing]. now rewrite E.
Qed.

Lemma trim_app_non_empty (a b : string) :
  Str.is_empty (Str.trim a) = false ->
  Str.is_empty (Str.trim (a ++ b)) = false.
Proof.
  rewrite !trim_empty, list_ascii_of_string_app, forallb_app.
  now intros ->.
Qed.

Lemma first_part_app_sep sep (a b : string) :
  MimeType.first_part sep (a ++ String sep b) = MimeType.first_part sep a.
Proof.
  unfold MimeType.first_part. rewrite split_app.
  pose proof (split_non_empty sep a).
  now destruct (Str.split sep a).
Qed.

Lemma first_part_cons sep c s :
  Ascii.eqb c sep = false ->
  MimeType.first_part sep (String c s) = String c (MimeType.first_part sep s).
Proof.
  intros Hc. unfold MimeType.first_part. cbn [Str.split]. rewrite Hc.
  pose proof (split_non_empty sep s).
  now destruct (Str.split sep s).
Qed.

Lemma first_part_app_no sep (a b : string) :
  Str.includes a sep = false ->
  MimeType.first_part sep (a ++ b) = a ++ MimeType.first_part sep b.
Proof.
  induction a as [|c r IH]; [now rewrite !append_nil_l|].
  cbn [Str.includes]. intros H. apply orb_false_iff in H as [Hc Hr].
  rewrite !append_cons, (first_part_cons _ _ _ Hc), (IH Hr). reflexivity.
Qed.

Lemma first_part_app sep (a b : string) :
  Str.includes a sep = true ->
  MimeType.first_part sep (a ++ b) = MimeType.first_part sep a.
Proof.
  induction a as [|c r IH]; [discriminate|].
  cbn [Str.includes]. rewrite append_cons.
  destruct (Ascii.eqb c sep) eqn:Hc.
  { intros _. unfold MimeType.first_part. cbn [Str.split].
    now rewrite Hc. }
  cbn [orb]. intros Hr.
  now rewrite !(first_part_cons _ _ _ Hc), (IH Hr).
Qed.

Lemma first_part_no_separator sep s :
  Str.includes s sep = false -> MimeType.first_part sep s = s.
Proof.
  intros H. unfold MimeType.first_part.
  now rewrite (split_no_separator _ _ H).
Qed.

(** X17: the query and the fragment of an address play no part in the
    type inferred from a file name: with a name that is not blank,
    [inferMimeTypeFromFileName] gives the same for [name?rest] and for
    [name#rest] as for [name], whatever [rest] holds, dots, slashes and
    further marks included. *)
Theorem infer_ignores_query_and_fragment (name rest : string) :
  Str.trim name <> "" ->
  MimeType.inferMimeTypeFromFileName (Some (name ++ String "?" rest))
  = MimeType.inferMimeTypeFromFileName (Some name)
  /\ MimeType.inferMimeTypeFromFileName (Some (name ++ String "#" rest))
     = MimeType.inferMimeTypeFromFileName (Some name).
Proof.
  intros Hname. apply is_empty_false_iff in Hname.
  unfold MimeType.inferMimeTypeFromFileName.
  rewrite !(trim_app_non_empty _ _ Hname), Hname.
  rewrite first_part_app_sep. split; [reflexivity|].
  destruct (Str.includes name "?") eqn:Hq.
  - now rewrite (first_part_app _ _ _ Hq).
  - rewrite (first_part_app_no _ _ _ Hq), (first_part_no_separator _ _ Hq).
    rewrite first_part_cons by reflexivity.
    now rewrite first_part_app_sep.
Qed.

Lemma infer_ignores_query_and_fragment_witness :
  MimeType.inferMimeTypeFromFileName (Some ("a/cat.png" ++ String "?" "x/y.txt"))
  = MimeType.inferMimeTypeFromFileName (Some "a/cat.png")
  /\ MimeType.inferMimeTypeFromFileName
       (Some ("a/cat.png" ++ String "#" "x/y.txt"))
     = MimeType.inferMimeTypeFromFileName (Some "a/cat.png").
Proof.
  apply (infer_ignores_query_and_fragment "a/cat.png" "x/y.txt").
  vm_compute. discriminate.
Defined.

(** ** The content of an entry *)

Lemma is_empty_app_cons (a : string) c b :
  Str.is_empty (a ++ String c b) = false.
Proof. destruct a; [now rewrite append_nil_l | now rewrite append_cons]. Qed.

Lemma drop_trailing_app p (a : string) c b :
  p c = false ->
  Str.drop_trailing p (a ++ String c b)
  = a ++ String c (Str.drop_trailing p b).
Proof.
  intros Hc. induction a as [|x r IH].
  - rewrite !append_nil_l. cbn [Str.drop_trailing]. now rewrite Hc.
  - rewrite !append_cons. cbn [Str.drop_trailing]. rewrite IH.
    now rewrite is_empty_app_cons, andb_false_r.
Qed.

Lemma indexOf_app (a : string) c b :
  Str.includes a c = false ->
  Str.indexOf (a ++ String c b) c = Some (String.length a).
Proof.
  induction a as [|x r IH].
  - intros _. rewrite append_nil_l. cbn [Str.indexOf].
    now rewrite Ascii.eqb_refl.
  - cbn [Str.includes]. intros H. apply orb_false_iff in H as [Hx Hr].
    rewrite append_cons. cbn [Str.indexOf String.length].
    now rewrite Hx, (IH Hr).
Qed.

Lemma slice_from_app (a : string) c b :
  Str.slice_from (S (String.length a)) (a ++ String c b) = b.
Proof.
  induction a as [|x r IH]; [now rewrite append_nil_l|].
  rewrite append_cons. cbn [String.length]. exact IH.
Qed.

Lemma startsWith_app (p s : string) : Str.startsWith (p ++ s) p = true.
Proof.
  unfold Str.startsWith. induction p as [|a p IH]; [now destruct s|].
  rewrite append_cons. cbn [String.prefix].
  destruct (ascii_dec a a); [exact IH | congruence].
Qed.

Lemma remove_spaces_drop_leading s :
  Str.remove_spaces (Str.drop_leading Str.is_space s) = Str.remove_spaces s.
Proof.
  induction s as [|c r IH]; [reflexivity|].
  cbn [Str.drop_leading Str.remove_spaces].
  destruct (Str.is_space c) eqn:E; [exact IH|].
  cbn [Str.remove_spaces]. now rewrite E.
Qed.

Lemma remove_spaces_drop_trailing s :
  Str.remove_spaces (Str.drop_trailing Str.is_space s) = Str.remove_spaces s.
Proof.
  induction s as [|c r IH]; [reflexivity|].
  cbn [Str.drop_trailing Str.remove_spaces].
  destruct (Str.is_space c) eqn:E; cbn [andb].
  - destruct (Str.is_empty (Str.drop_trailing Str.is_space r)) eqn:Er.
    + rewrite <- IH. now destruct (Str.drop_trailing Str.is_space r).
    + cbn [Str.remove_spaces]. now rewrite E, IH.
  - cbn [Str.remove_spaces]. now rewrite E, IH.
Qed.

Lemma remove_spaces_trim s :
  Str.remove_spaces (Str.trim s) = Str.remove_spaces s.
Proof.
  unfold Str.trim.
  now rewrite remove_spaces_drop_trailing, remove_spaces_drop_leading.
Qed.

(** X18: the content of an entry may come as a data URL or bare, and both
    are read alike.  For a header without a comma, the data URL
    [data:header,payload] is normalized to the payload without its white
    space, which is what the bare payload is normalized to when it is not
    blank and is not a data URL itself. *)
Theorem data_url_read_as_payload (header payload : string) :
  Str.includes header "," = false ->
  Str.trim payload <> "" ->
  Str.startsWith (Str.trim payload) "data:" = false ->
  normalizeContentBase64 (Some ("data:" ++ header ++ String "," payload))
  = OK (Str.remove_spaces payload)
  /\ normalizeContentBase64 (Some payload) = OK (Str.remove_spaces payload).
Proof.
  intros Hheader Hblank Hbare. split.
  - unfold normalizeContentBase64.
    rewrite <- (append_assoc_string "data:" header (String "," payload)).
    assert (Htrim : Str.trim (("data:" ++ header) ++ String "," payload)
                    = ("data:" ++ header)
                      ++ String "," (Str.drop_trailing Str.is_space payload)).
    { unfold Str.trim.
      change (Str.drop_leading Str.is_space
                (("data:" ++ header) ++ String "," payload))
        with (("data:" ++ header) ++ String "," payload).
      now apply drop_trailing_app. }
    rewrite Htrim, is_empty_app_cons, indexOf_app.
    2: { rewrite includes_app, Hheader. reflexivity. }
    assert (Hdata : Str.startsWith
                      (("data:" ++ header)
                       ++ String "," (Str.drop_trailing Str.is_space payload))
                      "data:" = true).
    { rewrite append_assoc_string. apply startsWith_app. }
    now rewrite Hdata, slice_from_app, remove_spaces_drop_trailing.
  - unfold normalizeContentBase64.
    apply is_empty_false_iff in Hblank. rewrite Hblank, Hbare.
    destruct (Str.indexOf (Str.trim payload) ",");
      now rewrite remove_spaces_trim.
Qed.

Lemma data_url_read_as_payload_witness :
  normalizeContentBase64
    (Some ("data:" ++ "image/png;base64" ++ String "," "aGVs bG8= "))
  = OK (Str.remove_spaces "aGVs bG8= ")
  /\ normalizeContentBase64 (Some "aGVs bG8= ")
     = OK (Str.remove_spaces "aGVs bG8= ").
Proof.
  apply (data_url_read_as_payload "image/png;base64" "aGVs bG8= ").
  - reflexivity.
  - vm_compute. discriminate.
  - reflexivity.
Defined.

(** ** What a run leaves alone *)

Lemma record_files_frame env req hfChannel moderateEnabled prepared db :
  exists db' t,
    record_files env req hfChannel moderateEnabled prepared db
    = (Next (map response_file prepared), db', t)
    /\ forall key, key ∉ map pf_fullId prepared -> db' !! key = db !! key.
Proof.
  revert db. induction prepared as [|file rest IH]; intros db.
  - exists db, []. split; reflexivity.
  - destruct (record_file_db env req hfChannel moderateEnabled file db)
      as (db1 & t1 & metadata & Hrun & _ & _ & Hother).
    destruct (IH db1) as (db2 & t2 & Hrest & Hkeys).
    cbn [record_files]. rewrite (bind_next _ _ _ _ _ _ Hrun).
    rewrite (bind_next _ _ _ _ _ _ Hrest). unfold ret.
    do 2 eexists. split; [reflexivity|].
    intros key Hkey. cbn [map] in Hkey.
    apply not_elem_of_cons in Hkey as [Hne Hkey].
    now rewrite (Hkeys _ Hkey), (Hother _ Hne).
Qed.

(** X19: a run leaves the rest of the store alone.  For a request that
    passes the checks at the front, the entry under any key that is
    neither the target path of one of its files nor its own key in the
    ledger is after the run what it was before: the records of other
    files and the ledger entries of other requests are never touched. *)
Theorem other_keys_untouched
    (env : Env) (req : Request) (db : gmap string DbEntry)
    (body : Body) (files : list FileInput) (folder : string) (key : string) :
  passes_checks env req body files folder ->
  key ∉ entry_paths folder files ->
  idempotencyKey_of (body_requestId body) <> Some key ->
  out_db (onRequestPost env req db) !! key = db !! key.
Proof.
  intros Hpass Hpath Hledger. unfold onRequestPost.
  destruct (handle_runs _ _ db _ _ _ Hpass)
    as [(payload & _ & ->)
       |(db0 & t0 & _ & Hlookup &
         [(step & -> & _)
         |(hfChannel & uploadAddress & prepared & _ & _ & Hwalk & ->)])].
  - reflexivity.
  - cbn [out_db].
    destruct Hlookup as [[-> _]|(k & Hstate & -> & _)]; [reflexivity|].
    apply lookup_delete_ne. intros ->.
    now apply ledger_state_corrupt_key in Hstate.
  - assert (Hdb0 : db0 !! key = db !! key).
    { destruct Hlookup as [[-> _]|(k & Hstate & -> & _)]; [reflexivity|].
      apply lookup_delete_ne. intros ->.
      now apply ledger_state_corrupt_key in Hstate. }
    pose proof (prepared_paths _ _ _ (prepareFiles_prepared_from _ _ _ Hwalk))
      as Hpaths.
    cbn [walk_ctx wc_normalizedFolder] in Hpaths. rewrite <- Hpaths in Hpath.
    pose proof (commit_batch_cases env req body
                  (idempotencyKey_of (body_requestId body))
                  hfChannel prepared db0) as Hcommit.
    cbv zeta in Hcommit.
    destruct (uploadFilesInSingleCommit env hfChannel
                (map commit_file prepared) _) as [uploadResult|e].
    2: { now rewrite Hcommit. }
    destruct (fetchSecurityConfig env) as [moderateEnabled|e].
    2: { now rewrite Hcommit. }
    destruct Hcommit as (db1 & t1 & Hrecord & _ & ->).
    destruct (record_files_frame env req hfChannel moderateEnabled prepared
                db0) as (db1' & t1' & Hrecord' & Hframe).
    rewrite Hrecord in Hrecord'. injection Hrecord' as <- <-.
    cbn [out_db]. rewrite <- Hdb0, <- (Hframe _ Hpath).
    destruct (idempotencyKey_of (body_requestId body)) as [k|];
      [|reflexivity].
    apply lookup_insert_ne. congruence.
Qed.

Lemma other_keys_untouched_witness :
  out_db (onRequestPost demo_env
            (demo_request demo_files (RidString "batch-002")) corrupt_db)
  !! "manage@hf_batch_request@batch-001"
  = corrupt_db !! "manage@hf_batch_request@batch-001".
Proof.
  apply (other_keys_untouched demo_env
           (demo_request demo_files (RidString "batch-002")) corrupt_db
           (demo_body demo_files (RidString "batch-002")) demo_files "demo").
  - constructor; try reflexivity; [discriminate | vm_compute; discriminate].
  - apply (bool_decide_unpack _). vm_compute. exact I.
  - discriminate.
Defined.

(** ** A transaction that fails *)

(** X20: when the backend refuses the transaction, nothing is recorded:
    no record and no ledger entry is written, no bookkeeping is
    scheduled, and the store holds no key it did not hold; the response,
    if the transaction was submitted, is the classification of the value
    the backend threw.  A retry under the same request identifier is
    therefore not answered from the ledger of the failed run. *)
Theorem failed_commit_leaves_no_record
    (env : Env) (req : Request) (db : gmap string DbEntry) (e : JsError) :
  (forall hfChannel operations commitSummary,
     uploadFilesInSingleCommit env hfChannel operations commitSummary
     = Err e) ->
  List.filter is_write (out_trace (onRequestPost env req db)) = []
  /\ dom (out_db (onRequestPost env req db)) ⊆ dom db
  /\ (commits (out_trace (onRequestPost env req db)) = 1%nat ->
      out_response (onRequestPost env req db)
      = toErrorResponse e "INTERNAL_ERROR").
Proof.
  intros Hfail. unfold onRequestPost.
  destruct (handle_front_cases env req db)
    as [(body & files & folder & Hpass & _) | (step & -> & _ & _)].
  2: { cbn. split; [reflexivity|]. split; [reflexivity | discriminate]. }
  destruct (handle_runs _ _ db _ _ _ Hpass)
    as [(payload & _ & ->)
       |(db0 & t0 & _ & Hlookup &
         [(step & -> & _)
         |(hfChannel & uploadAddress & prepared & _ & _ & _ & ->)])].
  - cbn. split; [reflexivity|]. split; [reflexivity | discriminate].
  - cbn [out_trace out_db].
    destruct Hlookup as [[-> ->]|(k & _ & -> & ->)].
    + cbn. split; [reflexivity|]. split; [reflexivity | discriminate].
    + cbn. split; [reflexivity|]. split; [|discriminate].
      rewrite dom_delete. apply subseteq_difference_l. reflexivity.
  - pose proof (commit_batch_cases env req body
                  (idempotencyKey_of (body_requestId body))
                  hfChannel prepared db0) as Hcommit.
    cbv zeta in Hcommit. rewrite Hfail in Hcommit. rewrite Hcommit.
    cbn [out_trace out_db out_response].
    destruct Hlookup as [[-> ->]|(k & _ & -> & ->)].
    + cbn. split; [reflexivity|]. split; reflexivity.
    + cbn. split; [reflexivity|]. split; [|reflexivity].
      rewrite dom_delete. apply subseteq_difference_l. reflexivity.
Qed.

Lemma failed_commit_leaves_no_record_witness :
  let out := onRequestPost failing_env
               (demo_request demo_files (RidString "batch-001")) ∅ in
  List.filter is_write (out_trace out) = []
  /\ dom (out_db out) ⊆ dom (∅ : gmap string DbEntry)
  /\ (commits (out_trace out) = 1%nat ->
      out_response out
      = toErrorResponse
          {| err_message := Some "Commit failed";
             err_code := None;
             err_status := Some 503;
             err_stage := Some "commit";
             err_retryAfterSeconds := None;
             err_uploadedFiles := None |} "INTERNAL_ERROR").
Proof.
  apply (failed_commit_leaves_no_record failing_env
           (demo_request demo_files (RidString "batch-001")) ∅).
  reflexivity.
Defined.

(** ** The mime type of a data URL *)

Lemma slice_to_app (a b : string) :
  Str.slice_to (String.length a) (a ++ b) = a.
Proof.
  induction a as [|x r IH]; [now destruct b|].
  rewrite append_cons. cbn [String.length Str.slice_to]. now rewrite IH.
Qed.

Lemma mime_normalize_trim m :
  MimeType.normalizeMimeType (Some (Str.trim m))
  = MimeType.normalizeMimeType (Some m).
Proof. unfold MimeType.normalizeMimeType. now rewrite trim_idem. Qed.

(** X21: the mime type of a data URL is read off its header.  For a
    header without a comma, [extractMimeTypeFromDataUrl] of
    [data:header,payload] is the part of the header before the first
    semicolon when that part is a mime type, and nothing otherwise, in
    particular when the header is empty; the payload plays no part. *)
Theorem data_url_mime_type (header payload : string) :
  Str.includes header "," = false ->
  MimeType.extractMimeTypeFromDataUrl
    (Some ("data:" ++ header ++ String "," payload))
  = if Str.is_empty header then None
    else MimeType.normalizeMimeType (Some (MimeType.first_part ";" header)).
Proof.
  intros Hheader. unfold MimeType.extractMimeTypeFromDataUrl.
  rewrite <- (append_assoc_string "data:" header (String "," payload)).
  assert (Htrim : Str.trim (("data:" ++ header) ++ String "," payload)
                  = ("data:" ++ header)
                    ++ String "," (Str.drop_trailing Str.is_space payload)).
  { unfold Str.trim.
    change (Str.drop_leading Str.is_space
              (("data:" ++ header) ++ String "," payload))
      with (("data:" ++ header) ++ String "," payload).
    now apply drop_trailing_app. }
  rewrite Htrim.
  assert (Hdata : Str.startsWith
                    (("data:" ++ header)
                     ++ String "," (Str.drop_trailing Str.is_space payload))
                    "data:" = true).
  { rewrite append_assoc_string. apply startsWith_app. }
  rewrite Hdata. cbn [negb]. rewrite indexOf_app.
  2: { rewrite includes_app, Hheader. reflexivity. }
  change (String.length ("data:" ++ header))
    with (5 + String.length header)%nat.
  destruct header as [|c header]; [reflexivity|].
  cbn [Str.is_empty String.length].
  replace (5 + S (String.length header) <=? 5)%nat with false
    by (symmetry; apply Nat.leb_gt; lia).
  replace (5 + S (String.length header) - 5)%nat
    with (String.length (String c header)) by (cbn [String.length]; lia).
  rewrite append_assoc_string.
  change (Str.slice_from 5
            ("data:"
             ++ String c header
                ++ String "," (Str.drop_trailing Str.is_space payload)))
    with (String c header
          ++ String "," (Str.drop_trailing Str.is_space payload)).
  now rewrite slice_to_app, mime_normalize_trim.
Qed.

Lemma data_url_mime_type_witness :
  MimeType.extractMimeTypeFromDataUrl
    (Some ("data:" ++ "image/png;base64" ++ String "," "aGVsbG8="))
  = if Str.is_empty "image/png;base64" then None
    else MimeType.normalizeMimeType
           (Some (MimeType.first_part ";" "image/png;base64")).
Proof.
  apply (data_url_mime_type "image/png;base64" "aGVsbG8="). reflexivity.
Defined.
(** ** The headers of a response *)

Lemma bind_answers {A B} (P : A -> Prop) (Q : B -> Prop)
    (m : M A) (k : A -> M B) :
  (forall db step db' t, m db = (step, db', t) -> answers_json P step) ->
  (forall a db step db' t,
     P a -> k a db = (step, db', t) -> answers_json Q step) ->
  forall db step db' t,
    bind m k db = (step, db', t) -> answers_json Q step.
Proof.
  intros Hm Hk db step db' t. unfold bind.
  destruct (m db) as [[[a|r|e] db1] t1] eqn:Em.
  - destruct (k a db1) as [[step2 db2] t2] eqn:Ek.
    intros [= <- _ _]. apply (Hk _ _ _ _ _ (Hm _ _ _ _ Em) Ek).
  - intros [= <- _ _]. exact (Hm _ _ _ _ Em).
  - now intros [= <- _ _].
Qed.

Lemma call_answers {A} (r : result A) db step db' t :
  call r db = (step, db', t) -> answers_json (fun _ => True) step.
Proof. unfold call. destruct r; now intros [= <- _ _]. Qed.

Lemma exit_answers {A} (Q : A -> Prop) body status db step db' t :
  exit (jsonResponse body status) db = (step, db', t) ->
  answers_json Q step.
Proof. unfold exit. now intros [= <- _ _]. Qed.

Lemma ret_answers {A} (Q : A -> Prop) a db step db' t :
  Q a -> ret a db = (step, db', t) -> answers_json Q step.
Proof. unfold ret. now intros Ha [= <- _ _]. Qed.

Lemma ledger_lookup_answers env idempotencyKey db step db' t :
  ledger_lookup env idempotencyKey db = (step, db', t) ->
  answers_json (fun _ => True) step.
Proof.
  rewrite ledger_lookup_runs.
  destruct (ledger_state env idempotencyKey db); now intros [= <- _ _].
Qed.

Lemma resolve_channel_answers env channelName db step db' t :
  resolve_channel env channelName db = (step, db', t) ->
  answers_json (fun _ => True) step.
Proof.
  unfold resolve_channel. revert db step db' t.
  apply (bind_answers (fun _ => True)); [intros *; apply call_answers|].
  intros [hfSettings|] db step db' t _; [|apply exit_answers].
  destruct (length (hf_channels hfSettings) =? 0)%nat; [apply exit_answers|].
  destruct (selectHuggingFaceChannel _ _ _) as [hfChannel|];
    [|apply exit_answers].
  destruct (_ || _); [apply exit_answers | now apply ret_answers].
Qed.

Lemma prepare_batch_answers env body files folder db step db' t :
  prepare_batch env body files folder db = (step, db', t) ->
  answers_json (fun _ => True) step.
Proof.
  unfold prepare_batch. revert db step db' t.
  apply (bind_answers (fun _ => True));
    [intros *; apply resolve_channel_answers|].
  intros hfChannel db step db' t _. revert db step db' t.
  apply (bind_answers (fun _ => True)); [intros *; apply call_answers|].
  intros uploadAddress db step db' t _. revert db step db' t.
  apply (bind_answers (fun _ => True)); [intros *; apply call_answers|].
  intros prepared db step db' t _. now apply ret_answers.
Qed.

Lemma commit_batch_answers env req body idempotencyKey hfChannel prepared
    db step db' t :
  commit_batch env req body idempotencyKey hfChannel prepared db
  = (step, db', t) ->
  answers_json (fun r => resp_headers r = json_headers) step.
Proof.
  destruct (commit_batch_runs env req body idempotencyKey hfChannel prepared
              db) as (step1 & db1 & t1 & -> & _ & Hstep).
  intros [= <- _ _]. destruct step1 as [r|r|e]; [|contradiction | exact I].
  now destruct Hstep as [uploadResult ->].
Qed.

Lemma handle_answers env req db step db' t :
  handle env req db = (step, db', t) ->
  answers_json (fun r => resp_headers r = json_headers) step.
Proof.
  unfold handle. revert db step db' t.
  apply (bind_answers (fun _ => True)); [intros *; apply call_answers|].
  intros authorized db step db' t _.
  destruct authorized; cbn [negb]; [|apply exit_answers].
  destruct (req_json req) as [body|]; [|apply exit_answers].
  destruct (body_files body) as [[|f files]|];
    [apply exit_answers | | apply exit_answers].
  destruct (_ <? _); [apply exit_answers|].
  destruct (requestId_ok _); cbn [negb]; [|apply exit_answers].
  revert db step db' t.
  apply (bind_answers (fun _ => True)); [intros *; apply call_answers|].
  intros normalizedFolder db step db' t _. revert db step db' t.
  apply (bind_answers (fun _ => True));
    [intros *; apply ledger_lookup_answers|].
  intros [] db step db' t _. revert db step db' t.
  apply (bind_answers (fun _ => True));
    [intros *; apply prepare_batch_answers|].
  intros batch db step db' t _. apply commit_batch_answers.
Qed.

(** X22: every response of the handler, a success, a replay, any of the
    failures and the classification of a thrown value alike, is made by
    [jsonResponse]: it declares the JSON content type and carries the
    headers that open the endpoint to other origins. *)
Theorem every_response_has_json_headers
    (env : Env) (req : Request) (db : gmap string DbEntry) :
  resp_headers (out_response (onRequestPost env req db))
  = [("Content-Type", "application/json");
     ("Access-Control-Allow-Origin", "*");
     ("Access-Control-Allow-Methods", "POST, OPTIONS");
     ("Access-Control-Allow-Headers",
      "Content-Type, Authorization, authCode")].
Proof.
  unfold onRequestPost.
  destruct (handle env req db) as [[step db'] t] eqn:Hrun.
  apply handle_answers in Hrun.
  destruct step as [r|r|e]; cbn [out_response]; [exact Hrun | exact Hrun|].
  unfold toErrorResponse.
  repeat match goal with
         | |- context [if ?b then _ else _] => destruct b
         end; reflexivity.
Qed.

(** ** What reaches the backend *)

Lemma prepared_from_valid ctx f file :
  prepared_from ctx f file -> entry_valid (wc_limits ctx) f = true.
Proof.
  intros (fileName & b & bytes & Hn & Hc & Hd & H0 & H1 & _).
  unfold entry_valid. rewrite Hn, Hc, Hd. cbn [is_ok].
  rewrite andb_true_r. apply andb_true_iff. split.
  - now apply Z.ltb_lt.
  - now apply Z.leb_le.
Qed.

(** X23: the backend is called with valid batches only.  A run that
    submits a transaction is the run of a request that passes the checks
    at the front and whose every entry is valid (name and content pass
    normalization, the estimated size is positive and within the limit for
    one file, the content decodes), with pairwise distinct target paths
    and estimated sizes that sum to at most the budget. *)
Theorem commit_only_valid_batches
    (env : Env) (req : Request) (db : gmap string DbEntry) :
  commits (out_trace (onRequestPost env req db)) = 1%nat ->
  exists body files folder,
    passes_checks env req body files folder
    /\ forallb (entry_valid (limits_of env)) files = true
    /\ NoDup (entry_paths folder files)
    /\ total_size files <= maxTotalSize (limits_of env).
Proof.
  unfold onRequestPost.
  destruct (handle_front_cases env req db)
    as [(body & files & folder & Hpass & _) | (step & -> & _ & _)];
    [|discriminate].
  destruct (handle_runs _ _ db _ _ _ Hpass)
    as [(payload & _ & ->)
       |(db0 & t0 & _ & Hlookup &
         [(step & -> & _)
         |(hfChannel & uploadAddress & prepared & _ & _ & Hwalk & _)])].
  - discriminate.
  - cbn [out_trace].
    destruct Hlookup as [[_ ->]|(k & _ & _ & ->)]; discriminate.
  - intros _. exists body, files, folder. split; [exact Hpass|].
    pose proof (prepareFiles_prepared_from _ _ _ Hwalk) as Hfrom.
    apply prepareFiles_ok_inv in Hwalk as (st & Hwalk & _).
    pose proof (walk_sizes _ _ _ _ _ Hwalk) as (Hsum & Hbound & _).
    pose proof (walk_paths _ _ _ _ _ Hwalk) as (Hnd & _).
    cbn [walk_ctx wc_normalizedFolder wc_limits walk_start
         totalEstimatedBytes] in Hsum, Hbound, Hnd.
    split; [|split; [exact Hnd|]].
    + apply forallb_forall. intros f Hin.
      apply list_elem_of_In in Hin.
      destruct (proj1 (list_elem_of_lookup _ _) Hin) as [i Hi].
      destruct (Forall2_lookup_l _ _ _ _ _ Hfrom Hi) as (file & _ & Hf).
      exact (prepared_from_valid _ _ _ Hf).
    + specialize (Hbound (pc_non_empty _ _ _ _ _ Hpass)). lia.
Qed.

Lemma commit_only_valid_batches_witness :
  exists body files folder,
    passes_checks demo_env (demo_request demo_files RidAbsent)
                  body files folder
    /\ forallb (entry_valid (limits_of demo_env)) files = true
    /\ NoDup (entry_paths folder files)
    /\ total_size files <= maxTotalSize (limits_of demo_env).
Proof.
  apply (commit_only_valid_batches demo_env
           (demo_request demo_files RidAbsent) ∅).
  vm_compute. reflexivity.
Defined.

(** ** The keys of the ledger *)

Lemma append_inj_l (p a b : string) : p ++ a = p ++ b -> a = b.
Proof.
  induction p as [|c p IH]; [now rewrite !append_nil_l|].
  rewrite !append_cons. intros [= H]. exact (IH H).
Qed.

(** X24: the keys of the ledger collide with nothing.  Two request
    identifiers that the handler accepts and that have the same key in the
    ledger are the same identifier, character for character, white space
    at the ends included; and the key of an accepted identifier is never
    the target path of a file, whatever the folder and the name. *)
Theorem ledger_keys_apart (requestId requestId' : string) :
  requestId_ok (RidString requestId) = true ->
  requestId_ok (RidString requestId') = true ->
  (idempotencyKey_of (RidString requestId)
   = idempotencyKey_of (RidString requestId') ->
   requestId = requestId')
  /\ forall uploadFolder name folder fileName,
       normalizeUploadFolder uploadFolder = OK folder ->
       normalizeFileName name = OK fileName ->
       idempotencyKey_of (RidString requestId)
       <> Some (fullId_of folder fileName).
Proof.
  intros Hok Hok'.
  apply requestId_ok_non_empty in Hok, Hok'.
  cbn [idempotencyKey_of]. rewrite Hok, Hok'. split.
  - intros [= H]. exact (append_inj_l _ _ _ H).
  - intros uploadFolder name folder fileName Hfolder Hname [= H].
    pose proof (path_not_reserved _ _
                  {| fi_name := name; fi_mimeType := None;
                     fi_contentBase64 := None; fi_sha256 := None |}
                  Hfolder) as Hres.
    unfold path_reserved, entry_path in Hres. cbn [fi_name] in Hres.
    rewrite Hname, <- H in Hres. discriminate Hres.
Qed.

Lemma ledger_keys_apart_witness :
  (idempotencyKey_of (RidString "batch-001")
   = idempotencyKey_of (RidString " batch-001") ->
   "batch-001" = " batch-001")
  /\ forall uploadFolder name folder fileName,
       normalizeUploadFolder uploadFolder = OK folder ->
       normalizeFileName name = OK fileName ->
       idempotencyKey_of (RidString "batch-001")
       <> Some (fullId_of folder fileName).
Proof.
  apply (ledger_keys_apart "batch-001" " batch-001"); reflexivity.
Defined.

(* ================================================================== *)
(** * The run as a whole *)

(** ** The responses that the handler returns itself *)

Lemma bind_returns {A B} (R : Response -> Prop) (m : M A) (k : A -> M B) :
  (forall db step db' t, m db = (step, db', t) -> returns_only R step) ->
  (forall a db step db' t, k a db = (step, db', t) -> returns_only R step) ->
  forall db step db' t,
    bind m k db = (step, db', t) -> returns_only R step.
Proof.
  intros Hm Hk db step db' t. unfold bind.
  destruct (m db) as [[[a|r|e] db1] t1] eqn:Em.
  - destruct (k a db1) as [[step2 db2] t2] eqn:Ek.
    intros [= <- _ _]. exact (Hk _ _ _ _ _ Ek).
  - intros [= <- _ _]. exact (Hm _ _ _ _ Em).
  - now intros [= <- _ _].
Qed.

Lemma call_returns {A} (R : Response -> Prop) (r : result A) db step db' t :
  call r db = (step, db', t) -> returns_only R step.
Proof. unfold call. destruct r; now intros [= <- _ _]. Qed.

Lemma exit_returns {A} code message status db (step : Step A) db' t :
  exit (jsonResponse (error_body code message) status) db = (step, db', t) ->
  returns_only own_failure step.
Proof. unfold exit. intros [= <- _ _]. cbn. unfold own_failure. eauto. Qed.

Lemma ret_returns {A} (R : Response -> Prop) (a : A) db step db' t :
  ret a db = (step, db', t) -> returns_only R step.
Proof. unfold ret. now intros [= <- _ _]. Qed.

Lemma resolve_channel_returns env channelName db step db' t :
  resolve_channel env channelName db = (step, db', t) ->
  returns_only own_failure step.
Proof.
  unfold resolve_channel. revert db step db' t.
  apply bind_returns; [intros *; apply call_returns|].
  intros [hfSettings|] db step db' t; [|apply exit_returns].
  destruct (length (hf_channels hfSettings) =? 0)%nat; [apply exit_returns|].
  destruct (selectHuggingFaceChannel _ _ _) as [hfChannel|];
    [|apply exit_returns].
  destruct (_ || _); [apply exit_returns | apply ret_returns].
Qed.

Lemma commit_batch_returns env req body idempotencyKey hfChannel prepared
    db step db' t :
  commit_batch env req body idempotencyKey hfChannel prepared db
  = (step, db', t) ->
  returns_only own_failure step.
Proof.
  destruct (commit_batch_runs env req body idempotencyKey hfChannel prepared
              db) as (step1 & db1 & t1 & -> & _ & Hstep).
  intros [= <- _ _]. now destruct step1.
Qed.

(** From the channel on, the handler returns no response but its own
    failures; the success is the value the run ends with. *)
Lemma batch_returns env req body files folder idempotencyKey db step db' t :
  bind (prepare_batch env body files folder)
       (fun batch =>
          commit_batch env req body idempotencyKey (fst batch) (snd batch)) db
  = (step, db', t) ->
  returns_only own_failure step.
Proof.
  revert db step db' t. apply bind_returns.
  - unfold prepare_batch.
    apply bind_returns; [intros *; apply resolve_channel_returns|].
    intros hfChannel.
    apply bind_returns; [intros *; apply call_returns|].
    intros uploadAddress.
    apply bind_returns; [intros *; apply call_returns|].
    intros prepared db step db' t. apply ret_returns.
  - intros batch db step db' t. apply commit_batch_returns.
Qed.

(** A response that the handler returns is one of its own failures, or the
    response stored in the ledger under the identifier of the request. *)
Lemma handle_returns env req db r db' t :
  handle env req db = (Return r, db', t) ->
  own_failure r
  \/ exists body payload,
       req_json req = Some body
       /\ ledger_state env (idempotencyKey_of (body_requestId body)) db
          = Hit payload.
Proof.
  destruct (userAuthCheck env) as [[|]|e] eqn:Hauth.
  2: { unfold handle. rewrite Hauth, bind_call_ok. cbn [negb].
       intros H. left. exact (exit_returns _ _ _ _ _ _ _ H). }
  2: { unfold handle. now rewrite Hauth, bind_call_err. }
  destruct (req_json req) as [body|] eqn:Hbody.
  2: { unfold handle. rewrite Hauth, bind_call_ok, Hbody. cbn [negb].
       intros H. left. exact (exit_returns _ _ _ _ _ _ _ H). }
  destruct (body_files body) as [[|f files]|] eqn:Hfiles.
  1,3: unfold handle; rewrite Hauth, bind_call_ok, Hbody, Hfiles; cbn [negb];
       intros H; left; exact (exit_returns _ _ _ _ _ _ _ H).
  destruct (maxFiles (limits_of env) <? Z.of_nat (length (f :: files)))
    eqn:Hcount.
  { unfold handle. rewrite Hauth, bind_call_ok, Hbody, Hfiles. cbn [negb].
    rewrite Hcount. intros H. left. exact (exit_returns _ _ _ _ _ _ _ H). }
  destruct (requestId_ok (body_requestId body)) eqn:Hrid.
  2: { unfold handle. rewrite Hauth, bind_call_ok, Hbody, Hfiles. cbn [negb].
       rewrite Hcount, Hrid. cbn [negb].
       intros H. left. exact (exit_returns _ _ _ _ _ _ _ H). }
  destruct (normalizeUploadFolder (body_uploadFolder body))
    as [folder|e] eqn:Hfolder.
  2: { unfold handle. rewrite Hauth, bind_call_ok, Hbody, Hfiles. cbn [negb].
       rewrite Hcount, Hrid. cbn [negb]. now rewrite Hfolder, bind_call_err. }
  assert (Hpass : passes_checks env req body (f :: files) folder).
  { constructor; try assumption; [discriminate | lia]. }
  pose proof (handle_lookup _ _ db _ _ _ Hpass) as Hlookup.
  destruct (ledger_state env (idempotencyKey_of (body_requestId body)) db)
    as [|key|payload] eqn:Hstate.
  - rewrite Hlookup. intros H. left. exact (batch_returns _ _ _ _ _ _ _ _ _ _ H).
  - rewrite Hlookup.
    destruct (bind _ _ (delete key db)) as [[step db1] t1] eqn:Hbatch.
    intros [= -> _ _]. left. exact (batch_returns _ _ _ _ _ _ _ _ _ _ Hbatch).
  - intros _. right. eauto.
Qed.

(** ** The shape of a failure *)

Lemma own_failure_shape r :
  own_failure r ->
  json_field "files" (resp_body r) = None
  /\ json_field "uploadedFiles" (resp_body r) = None.
Proof. intros (code & message & status & ->). split; reflexivity. Qed.

(** A classified failure lists no files, and names staged files under
    [PARTIAL_UPLOAD_NOT_COMMITTED] only. *)
Lemma toErrorResponse_shape e fallbackCode :
  json_field "files" (resp_body (toErrorResponse e fallbackCode)) = None
  /\ (json_field "uploadedFiles" (resp_body (toErrorResponse e fallbackCode))
      <> None ->
      fails_with "PARTIAL_UPLOAD_NOT_COMMITTED" 502
                 (toErrorResponse e fallbackCode)).
Proof.
  unfold toErrorResponse, message_field.
  repeat match goal with
         | |- context [if ?b then _ else _] => destruct b
         end;
    destruct (err_message e); cbn; (split; [reflexivity|]);
    intros H; try (now destruct H); repeat split.
Qed.

(** ** All the files, or a failure *)

(** C9 (as stated, refuted), on two counts.  A response that reports
    success does not always list one entry per input file: a batch of two
    files sent under the identifier of the first run is answered from the
    ledger with the three files of that run.  And a request can fail
    without the classification [PARTIAL_UPLOAD_NOT_COMMITTED] although its
    transaction went through: when the security configuration cannot be
    read after the commit, the three files are committed, no record is
    written, and the response is the classification of what was thrown,
    here 429 [RATE_LIMIT]. *)
Lemma files_or_failure_refuted :
  (let req := demo_request other_files (RidString "batch-001") in
   let out := onRequestPost replay_env req (out_db first_run) in
   length other_files = 2%nat
   /\ json_field "success" (resp_body (out_response out)) = Some (JBool true)
   /\ resp_status (out_response out) = 200
   /\ json_field "files" (resp_body (out_response out))
      = Some (JArr [listed_file "demo" "a.jpg"; listed_file "demo" "b.jpg";
                    listed_file "demo" "info.txt"]))
  /\ (let req := demo_request demo_files RidAbsent in
      let out := onRequestPost throttled_env req ∅ in
      (exists operations commitSummary,
         out_trace out = [EvCommit demo_channel operations commitSummary]
         /\ length operations = 3%nat
         /\ is_ok (uploadFilesInSingleCommit throttled_env demo_channel
                     operations commitSummary) = true)
      /\ out_db out = ∅
      /\ fails_with "RATE_LIMIT" 429 (out_response out)
      /\ ~ fails_with "PARTIAL_UPLOAD_NOT_COMMITTED" 502 (out_response out)).
Proof.
  split.
  - vm_compute. repeat split.
  - cbv zeta. split; [|split; [|split]].
    + do 2 eexists. split; [vm_compute; reflexivity|]. split; reflexivity.
    + vm_compute. reflexivity.
    + vm_compute. repeat split.
    + intros (_ & _ & H). vm_compute in H. discriminate H.
Qed.

(** C9 (amended): for every request that is not answered from the ledger,
    either the response reports a failure, lists no files, and names
    staged files (the field [uploadedFiles]) under the classification
    [PARTIAL_UPLOAD_NOT_COMMITTED] with status 502 only; or it reports
    success with status 200, its [files] array has exactly one entry per
    input file, in input order, each with the normalized name and the full
    target path [folder/name], or [name] alone for the empty folder, and
    the run submitted exactly one transaction.  Which failure is reported
    is a matter of the value thrown, not of how far the run got. *)
Theorem all_files_or_failure
    (env : Env) (req : Request) (db : gmap string DbEntry) :
  not_replayed env req db ->
  let out := onRequestPost env req db in
  (is_failure (out_response out)
   /\ json_field "files" (resp_body (out_response out)) = None
   /\ (json_field "uploadedFiles" (resp_body (out_response out)) <> None ->
       fails_with "PARTIAL_UPLOAD_NOT_COMMITTED" 502 (out_response out)))
  \/ exists body files folder names,
       req_json req = Some body
       /\ body_files body = Some files
       /\ normalizeUploadFolder (body_uploadFolder body) = OK folder
       /\ Forall2 (fun f name => normalizeFileName (fi_name f) = OK name)
                  files names
       /\ json_field "success" (resp_body (out_response out))
          = Some (JBool true)
       /\ json_field "files" (resp_body (out_response out))
          = Some (JArr (map (listed_file folder) names))
       /\ resp_status (out_response out) = 200
       /\ commits (out_trace out) = 1%nat.
Proof.
  intros Hmiss. cbv zeta.
  assert (Hthrown : forall e,
            is_failure (toErrorResponse e "INTERNAL_ERROR")
            /\ json_field "files"
                 (resp_body (toErrorResponse e "INTERNAL_ERROR")) = None
            /\ (json_field "uploadedFiles"
                  (resp_body (toErrorResponse e "INTERNAL_ERROR")) <> None ->
                fails_with "PARTIAL_UPLOAD_NOT_COMMITTED" 502
                           (toErrorResponse e "INTERNAL_ERROR"))).
  { intros e. split; [apply toErrorResponse_is_failure|].
    apply toErrorResponse_shape. }
  assert (Hreturned : forall r db' t,
            handle env req db = (Return r, db', t) ->
            is_failure r
            /\ json_field "files" (resp_body r) = None
            /\ (json_field "uploadedFiles" (resp_body r) <> None ->
                fails_with "PARTIAL_UPLOAD_NOT_COMMITTED" 502 r)).
  { intros r db' t Hrun.
    destruct (handle_returns _ _ _ _ _ _ Hrun)
      as [Hown|(body & payload & Hbody & Hhit)].
    - destruct (own_failure_shape _ Hown) as [Hfiles Hstaged].
      destruct Hown as (code & message & status & ->).
      split; [reflexivity|]. split; [exact Hfiles|].
      intros H. now destruct H.
    - now destruct (Hmiss body payload Hbody). }
  unfold onRequestPost.
  destruct (handle_front_cases env req db)
    as [(body & files & folder & Hpass & _) | (step & Hrun & _ & Hstep)].
  2: { left. rewrite Hrun. cbn [out_response].
       destruct step as [r|r|e];
         [contradiction | exact (Hreturned _ _ _ Hrun) | apply Hthrown]. }
  destruct (handle_runs _ _ db _ _ _ Hpass)
    as [(payload & Hhit & _)
       |(db0 & t0 & _ & Hlookup &
         [(step & Hrun & Hstep)
         |(hfChannel & uploadAddress & prepared & _ & _ & Hwalk & Hrun)])].
  - now destruct (Hmiss body payload (pc_body _ _ _ _ _ Hpass)).
  - left. rewrite Hrun. cbn [out_response].
    destruct step as [r|r|e];
      [contradiction | exact (Hreturned _ _ _ Hrun) | apply Hthrown].
  - rewrite Hrun.
    pose proof (commit_batch_cases env req body
                  (idempotencyKey_of (body_requestId body))
                  hfChannel prepared db0) as Hcommit.
    cbv zeta in Hcommit.
    destruct (uploadFilesInSingleCommit env hfChannel
                (map commit_file prepared) _) as [uploadResult|e].
    2: { left. rewrite Hcommit. apply Hthrown. }
    destruct (fetchSecurityConfig env) as [moderateEnabled|e].
    2: { left. rewrite Hcommit. apply Hthrown. }
    destruct Hcommit as (db1 & t1 & _ & Ht1 & ->). right.
    destruct (response_files_listed _ _ _ Hwalk) as (Hnames & Hlisted & _).
    exists body, files, folder, (map pf_name prepared).
    destruct Hpass as [_ Hbody Hfiles _ _ _ Hfolder].
    do 4 (split; [assumption|]). split; [reflexivity|].
    cbn [walk_ctx wc_normalizedFolder] in Hlisted.
    split; [cbn [out_response]; rewrite <- Hlisted; reflexivity|].
    split; [reflexivity|]. cbn [out_trace].
    assert (Ht0 : commits t0 = 0%nat).
    { now destruct Hlookup as [[_ ->]|(key & _ & _ & ->)]. }
    rewrite commits_app, Ht0.
    match goal with
    | |- context [commits (?ev :: ?rest)] =>
        change (ev :: rest) with ([ev] ++ rest)%list
    end.
    rewrite !commits_app, Ht1.
    now destruct (idempotencyKey_of (body_requestId body)).
Qed.

Lemma all_files_or_failure_witness :
  let out := onRequestPost demo_env (demo_request demo_files RidAbsent) ∅ in
  (is_failure (out_response out)
   /\ json_field "files" (resp_body (out_response out)) = None
   /\ (json_field "uploadedFiles" (resp_body (out_response out)) <> None ->
       fails_with "PARTIAL_UPLOAD_NOT_COMMITTED" 502 (out_response out)))
  \/ exists body files folder names,
       req_json (demo_request demo_files RidAbsent) = Some body
       /\ body_files body = Some files
       /\ normalizeUploadFolder (body_uploadFolder body) = OK folder
       /\ Forall2 (fun f name => normalizeFileName (fi_name f) = OK name)
                  files names
       /\ json_field "success" (resp_body (out_response out))
          = Some (JBool true)
       /\ json_field "files" (resp_body (out_response out))
          = Some (JArr (map (listed_file folder) names))
       /\ resp_status (out_response out) = 200
       /\ commits (out_trace out) = 1%nat.
Proof.
  apply (all_files_or_failure demo_env (demo_request demo_files RidAbsent) ∅).
  intros body payload [= <-]. discriminate.
Defined.

(** ** One transaction, with all the files *)

Lemma prepared_operations ctx files prepared :
  Forall2 (prepared_from ctx) files prepared ->
  Forall2 (operation_from ctx) files (map commit_file prepared).
Proof.
  intros Hfrom. apply Forall2_fmap_r. eapply Forall2_impl; [exact Hfrom|].
  intros f file (fileName & b & bytes & Hn & Hc & Hd & _ & _ & Hname & _
                 & Hpath & _ & Hblob & Hcontent & _).
  exists fileName, b, bytes. unfold commit_file. cbn.
  auto 10.
Qed.

(** C1 (amended): for every valid batch (at most [maxFiles] entries, every
    entry passing normalization and decoding, every estimated size in
    (0, [maxSingleFileSize]], a sum of at most [maxTotalSize], pairwise
    distinct target paths) of a request that reaches the commit stage (it
    passes the checks that precede the lookup, is not answered from the
    ledger, gets a usable channel and the address of the caller), the
    handler calls [uploadFilesInSingleCommit] exactly once, on the
    resolved channel, with all the files of the batch, whatever their
    number: the operations it hands over are as many as the entries and
    follow them in order, the operation of an entry carrying its
    normalized name, its target path, its normalized base64 text and the
    bytes the text decodes to; the summary counts the files of the batch
    when the request gives none.  And on no run at all is
    [uploadFilesInSingleCommit] called more than once. *)
Theorem one_commit_per_batch
    (env : Env) (req : Request) (db : gmap string DbEntry)
    (body : Body) (files : list FileInput) (folder : string)
    (hfChannel : Channel) (uploadAddress : string) :
  passes_checks env req body files folder ->
  not_replayed env req db ->
  channel_resolved env (body_channelName body) hfChannel ->
  getIPAddress env = OK uploadAddress ->
  forallb (entry_valid (limits_of env)) files = true ->
  NoDup (entry_paths folder files) ->
  total_size files <= maxTotalSize (limits_of env) ->
  let out := onRequestPost env req db in
  commits (out_trace out) = 1%nat
  /\ (exists before operations after,
        out_trace out
        = (before
           ++ EvCommit hfChannel operations
                (commitSummary_of (body_commitMessage body) (length files))
              :: after)%list
        /\ commits before = 0%nat
        /\ commits after = 0%nat
        /\ length operations = length files
        /\ Forall2 (operation_from (walk_ctx env folder uploadAddress))
                   files operations)
  /\ (forall env' req' db',
        (commits (out_trace (onRequestPost env' req' db')) <= 1)%nat).
Proof.
  intros Hchecks Hmiss Hch Hip Hvalid Hnd Htotal. cbv zeta.
  assert (Hok : forallb (entry_ok (walk_ctx env folder uploadAddress)) files
                = true).
  { apply forallb_forall. intros f Hf. unfold entry_ok.
    rewrite forallb_forall in Hvalid.
    cbn [walk_ctx wc_limits wc_normalizedFolder].
    rewrite (Hvalid f Hf),
      (path_not_reserved _ _ f (pc_folder _ _ _ _ _ Hchecks)).
    reflexivity. }
  destruct (prepareFiles_accepts (walk_ctx env folder uploadAddress) files
              Hok Hnd Htotal) as (prepared & Hprepared & Hlength).
  pose proof (prepared_operations _ _ _
                (prepareFiles_prepared_from _ _ _ Hprepared)) as Hoperations.
  destruct (handle_not_replayed env req db body files folder Hchecks)
    as (db0 & t0 & Ht0 & Hrun).
  { intros payload. apply Hmiss. exact (pc_body _ _ _ _ _ Hchecks). }
  destruct (commit_batch_runs env req body
              (idempotencyKey_of (body_requestId body)) hfChannel prepared
              db0) as (step & db' & t & Hcommit & Ht & _).
  rewrite Hlength in Hcommit.
  assert (Htrace : out_trace (onRequestPost env req db)
                   = (t0 ++ EvCommit hfChannel (map commit_file prepared)
                              (commitSummary_of (body_commitMessage body)
                                                (length files))
                            :: t)%list).
  { unfold onRequestPost. erewrite Hrun; [reflexivity|].
    rewrite (bind_quiet _ _ db0 (hfChannel, prepared));
      [exact Hcommit|].
    rewrite (prepare_batch_reached _ _ _ _ _ _ _ Hch Hip).
    now rewrite Hprepared. }
  split; [|split].
  - rewrite Htrace.
    change (EvCommit hfChannel (map commit_file prepared)
              (commitSummary_of (body_commitMessage body) (length files))
            :: t)
      with ([EvCommit hfChannel (map commit_file prepared)
               (commitSummary_of (body_commitMessage body)
                                 (length files))] ++ t)%list.
    rewrite !commits_app, Ht0, Ht. reflexivity.
  - exists t0, (map commit_file prepared), t.
    split; [exact Htrace|]. do 2 (split; [assumption|]).
    split; [now rewrite length_map | exact Hoperations].
  - exact commits_le_one.
Qed.

Lemma one_commit_per_batch_witness :
  let out := onRequestPost demo_env (demo_request demo_files RidAbsent) ∅ in
  commits (out_trace out) = 1%nat
  /\ (exists before operations after,
        out_trace out
        = (before
           ++ EvCommit demo_channel operations
                (commitSummary_of None (length demo_files))
              :: after)%list
        /\ commits before = 0%nat
        /\ commits after = 0%nat
        /\ length operations = length demo_files
        /\ Forall2 (operation_from (walk_ctx demo_env "demo" "Utopia"))
                   demo_files operations)
  /\ (forall env' req' db',
        (commits (out_trace (onRequestPost env' req' db')) <= 1)%nat).
Proof.
  apply (one_commit_per_batch demo_env (demo_request demo_files RidAbsent) ∅
           (demo_body demo_files RidAbsent) demo_files "demo"
           demo_channel "Utopia").
  - constructor; try reflexivity; [discriminate | vm_compute; discriminate].
  - intros body payload [= <-]. discriminate.
  - eexists. repeat split; reflexivity.
  - reflexivity.
  - reflexivity.
  - apply (bool_decide_unpack _). vm_compute. exact I.
  - vm_compute. discriminate.
Defined.
